(** * Cash-Flow-App: the statement parser of [AWS/app/main.py]

    A shallow embedding of the extraction pipeline of [main.py]
    (money parsing, field detection, year buckets, canonical matching,
    rollup and diagnostics) and the properties its specification states.

    Conventions of the embedding.
    - Text.  A Python [str] is a [string]; each [ascii] is one character,
      read as the code point U+0000..U+00FF.  On that domain the [str]
      methods and the character classes of [re] below are the ones of
      CPython ([str.isspace], [\s], [\w], [\d], [str.lower],
      [str.splitlines]).
    - Numbers.  A Python [float] is an IEEE 754 binary64 value, a
      [spec_float] with [prec = 53] and [emax = 1024]; arithmetic is the
      correctly rounded arithmetic of [SpecFloat].
    - Errors.  A raised exception is the [Err] case of [result].
    - Configuration.  [taxonomy.json] is not part of the sources: the
      tables read from it ([CANON], [ROLLUPS], [COMPANY_MARKERS]) are
      parameters, and so are the library calls [re.search] on a taxonomy
      pattern, [rapidfuzz.process.extractOne], [repr] of a float and the
      builtin [sum]. *)

From Stdlib Require Import ZArith Lia Bool List Ascii String DecimalString Sorted.
From Stdlib Require Import Floats.SpecFloat Floats.PrimFloat Floats.FloatOps.
From stdpp Require Import base option list gmap strings.

Open Scope string_scope.
Open Scope Z_scope.

#[global] Arguments String.append !s1 s2 / : simpl nomatch.
#[global] Arguments Ascii.eqb : simpl never.

(* ===================================================================== *)
(** * Characters and the [str] methods the program uses *)
(* ===================================================================== *)

Module Str.

Definition code (c : ascii) : N := N_of_ascii c.

Definition between (lo hi : N) (c : ascii) : bool :=
  ((lo <=? code c) && (code c <=? hi))%N.

(** [str.isspace] and the class [\s] of a [str] pattern. *)
Definition is_space (c : ascii) : bool :=
  between 9 13 c || between 28 32 c || (code c =? 133)%N || (code c =? 160)%N.

(** The class [\d] of a [str] pattern: decimal digits. *)
Definition is_digit (c : ascii) : bool := between 48 57 c.

(** The class [\w] of a [str] pattern: alphanumerics and the underscore. *)
Definition is_word (c : ascii) : bool :=
  is_digit c || between 65 90 c || between 97 122 c || (code c =? 95)%N
  || (code c =? 170)%N || between 178 179 c || (code c =? 181)%N
  || between 185 186 c || between 188 190 c
  || between 192 214 c || between 216 246 c || between 248 255 c.

Definition lower_char (c : ascii) : ascii :=
  if between 65 90 c || between 192 214 c || between 216 222 c
  then ascii_of_N (code c + 32) else c.

(** [s.lower()] *)
Fixpoint lower (s : string) : string :=
  match s with
  | EmptyString => EmptyString
  | String c r => String (lower_char c) (lower r)
  end.

Definition digit_val (c : ascii) : Z := Z.of_N (code c) - 48.

Definition is_empty (s : string) : bool :=
  match s with EmptyString => true | _ => false end.

Fixpoint lstrip_by (p : ascii -> bool) (s : string) : string :=
  match s with
  | EmptyString => EmptyString
  | String c r => if p c then lstrip_by p r else s
  end.

Fixpoint rstrip_by (p : ascii -> bool) (s : string) : string :=
  match s with
  | EmptyString => EmptyString
  | String c r =>
      let r' := rstrip_by p r in
      if is_empty r' && p c then EmptyString else String c r'
  end.

Definition strip_by (p : ascii -> bool) (s : string) : string :=
  rstrip_by p (lstrip_by p s).

(** [s.strip()] *)
Definition strip (s : string) : string := strip_by is_space s.

Fixpoint mem_char (c : ascii) (set : string) : bool :=
  match set with
  | EmptyString => false
  | String d r => Ascii.eqb c d || mem_char c r
  end.

(** [s.strip(chars)] *)
Definition strip_chars (chars s : string) : string :=
  strip_by (fun c => mem_char c chars) s.

(** [s.startswith(p)] *)
Fixpoint startswith (p s : string) : bool :=
  match p with
  | EmptyString => true
  | String a p' =>
      match s with
      | EmptyString => false
      | String b s' => Ascii.eqb a b && startswith p' s'
      end
  end.

(** [s.endswith(p)] *)
Fixpoint endswith (p s : string) : bool :=
  String.eqb s p ||
  match s with
  | EmptyString => false
  | String _ r => endswith p r
  end.

(** [needle in hay] *)
Fixpoint contains (needle hay : string) : bool :=
  startswith needle hay ||
  match hay with
  | EmptyString => false
  | String _ r => contains needle r
  end.

(** [s.replace(old, new)] for a non-empty [old]: occurrences are replaced
    from the left and do not overlap; [skip] counts the characters of an
    occurrence still to be passed over. *)
Fixpoint replace_from (skip : nat) (old new s : string) : string :=
  match s with
  | EmptyString => EmptyString
  | String c r =>
      match skip with
      | S k => replace_from k old new r
      | O =>
          if startswith old s
          then new +:+ replace_from (String.length old - 1) old new r
          else String c (replace_from O old new r)
      end
  end.

Definition replace (old new s : string) : string := replace_from O old new s.

(** [s.split(sep)[0]] for a non-empty [sep]: the text before the first
    occurrence of [sep], the whole of [s] when there is none. *)
Fixpoint split_head (sep s : string) : string :=
  match s with
  | EmptyString => EmptyString
  | String c r => if startswith sep s then EmptyString else String c (split_head sep r)
  end.

Definition is_linebreak (c : ascii) : bool :=
  between 10 13 c || between 28 30 c || (code c =? 133)%N.

(** [s.splitlines()]: [after_cr] tells that the previous character was a
    carriage return, so that a line feed here belongs to the same break. *)
Fixpoint splitlines_from (after_cr : bool) (s : string) : list string :=
  match s with
  | EmptyString => []
  | String c r =>
      if after_cr && (code c =? 10)%N then splitlines_from false r
      else if is_linebreak c then EmptyString :: splitlines_from (code c =? 13)%N r
      else match splitlines_from false r with
           | [] => [String c EmptyString]
           | l :: ls => String c l :: ls
           end
  end.

Definition splitlines (s : string) : list string := splitlines_from false s.

(** ["\n".join(parts)] *)
Definition join_lines (parts : list string) : string :=
  String.concat (String (ascii_of_N 10) EmptyString) parts.

(** [len(s)] *)
Definition len (s : string) : Z := Z.of_nat (String.length s).

(** A string none of whose characters satisfies [p]. *)
Fixpoint none_of (p : ascii -> bool) (s : string) : bool :=
  match s with
  | EmptyString => true
  | String c r => negb (p c) && none_of p r
  end.

End Str.


(* ===================================================================== *)
(** * Python floats: IEEE 754 binary64 *)
(* ===================================================================== *)

Module Float.

Definition prec : Z := 53.
Definition emax : Z := 1024.

Abbreviation float := spec_float.

Definition add : float -> float -> float := SFadd prec emax.
Definition sub : float -> float -> float := SFsub prec emax.
Definition opp : float -> float := SFopp.
Definition abs : float -> float := SFabs.
(** [x == y] *)
Definition eqb : float -> float -> bool := SFeqb.
(** [x < y] *)
Definition ltb : float -> float -> bool := SFltb.
(** [x <= y] *)
Definition leb : float -> float -> bool := SFleb.

Definition zero : float := S754_zero false.

Definition is_finite (x : float) : bool :=
  match x with
  | S754_zero _ | S754_finite _ _ _ => true
  | _ => false
  end.

(** The binary64 value nearest to [num / den], ties to even, with the
    sign [neg]: one exact division followed by one rounding. *)
Definition of_ratio (neg : bool) (num den : positive) : float :=
  let '(q, e, l) := SFdiv_core_binary prec emax (Zpos num) 0 (Zpos den) 0 in
  binary_round_aux prec emax neg q e l.

(** The binary64 value nearest to [m * 10 ^ e10], as [strtod] returns it. *)
Definition of_decimal (neg : bool) (m : N) (e10 : Z) : float :=
  match m with
  | N0 => S754_zero neg
  | Npos p =>
      if 0 <=? e10 then of_ratio neg (p * Z.to_pos (10 ^ e10)) 1
      else of_ratio neg p (Z.to_pos (10 ^ (- e10)))
  end.

(** The float of a small integer literal. *)
Definition of_Z (z : Z) : float :=
  match z with
  | Z0 => zero
  | Zpos p => of_ratio false p 1
  | Zneg p => of_ratio true p 1
  end.

Definition one : float := of_Z 1.

(** The integer nearest to [num / den], ties to even. *)
Definition div_half_even (num den : Z) : Z :=
  let q := num / den in
  let r := num mod den in
  match 2 * r ?= den with
  | Lt => q
  | Gt => q + 1
  | Eq => if Z.even q then q else q + 1
  end.

(** [round(x, 2)]: the exact value of [x] is rounded to the nearest
    multiple of 0.01, ties to even, and that decimal is converted back to
    the nearest float; infinities and NaN round to themselves. *)
Definition round2 (x : float) : float :=
  match x with
  | S754_finite s m e =>
      let hundredths :=
        if 0 <=? e then Zpos m * 100 * 2 ^ e
        else div_half_even (Zpos m * 100) (2 ^ (- e)) in
      of_decimal s (Z.to_N hundredths) (-2)
  | _ => x
  end.

(** ** [float(s)] on a string *)

Fixpoint span_digits (s : string) : string * string :=
  match s with
  | String c r =>
      if Str.is_digit c then let '(d, t) := span_digits r in (String c d, t)
      else (EmptyString, s)
  | EmptyString => (EmptyString, EmptyString)
  end.

(** The value of a string of decimal digits, most significant first. *)
Fixpoint digits_value (acc : N) (s : string) : N :=
  match s with
  | EmptyString => acc
  | String c r => digits_value (10 * acc + (Str.code c - 48))%N r
  end.

Definition take_sign (s : string) : bool * string :=
  match s with
  | String "-" r => (true, r)
  | String "+" r => (false, r)
  | _ => (false, s)
  end.

(** Characters above U+007E: white space becomes a blank, anything else
    is rejected (Latin-1 has no decimal digit there). *)
Fixpoint to_ascii_blanks (s : string) : option string :=
  match s with
  | EmptyString => Some EmptyString
  | String c r =>
      match to_ascii_blanks r with
      | None => None
      | Some r' =>
          if (Str.code c <? 127)%N then Some (String c r')
          else if Str.is_space c then Some (String " " r')
          else None
      end
  end.

(** Digit-group underscores: allowed only between two digits; they are
    removed.  [prev] is the previous character. *)
Fixpoint drop_underscores (prev : ascii) (s : string) : option string :=
  match s with
  | EmptyString => if Ascii.eqb prev "_" then None else Some EmptyString
  | String c r =>
      if Ascii.eqb c "_" then
        if Str.is_digit prev then drop_underscores c r else None
      else if Ascii.eqb prev "_" && negb (Str.is_digit c) then None
      else option_map (String c) (drop_underscores c r)
  end.

Definition is_c_space (c : ascii) : bool :=
  Str.between 9 13 c || (Str.code c =? 32)%N.

Definition parse_inf_nan (s : string) : option float :=
  let '(neg, body) := take_sign s in
  let b := Str.lower body in
  if String.eqb b "inf" || String.eqb b "infinity" then Some (S754_infinity neg)
  else if String.eqb b "nan" then Some S754_nan
  else None.

Definition parse_exponent (s : string) : option Z :=
  match s with
  | EmptyString => Some 0
  | String c r =>
      if Ascii.eqb c "e" || Ascii.eqb c "E" then
        let '(eneg, r1) := take_sign r in
        let '(ed, r2) := span_digits r1 in
        if Str.is_empty ed || negb (Str.is_empty r2) then None
        else let v := Z.of_N (digits_value 0 ed) in
             Some (if eneg then - v else v)
      else None
  end.

Definition parse_decimal (s : string) : option float :=
  let '(neg, s1) := take_sign s in
  let '(ip, s2) := span_digits s1 in
  let '(fp, s3) :=
    match s2 with
    | String "." r => span_digits r
    | _ => (EmptyString, s2)
    end in
  if Str.is_empty ip && Str.is_empty fp then None
  else match parse_exponent s3 with
       | None => None
       | Some e =>
           Some (of_decimal neg (digits_value 0 (ip +:+ fp))
                            (e - Z.of_nat (String.length fp)))
       end.

(** [float(s)]; [None] is [ValueError]. *)
Definition of_string (s : string) : option float :=
  match to_ascii_blanks s with
  | None => None
  | Some a =>
      match drop_underscores "000"%char a with
      | None => None
      | Some u =>
          let t := Str.strip_by is_c_space u in
          match parse_inf_nan t with
          | Some x => Some x
          | None => parse_decimal t
          end
      end
  end.

End Float.


(* ===================================================================== *)
(** * The compiled patterns of the module *)
(* ===================================================================== *)

Module Re.

(** [\b]: a position is a word boundary when exactly one of its two
    neighbours is a word character (the ends of the text are not). *)
Definition is_word_opt (c : option ascii) : bool :=
  match c with Some c => Str.is_word c | None => false end.

Definition head (s : string) : option ascii :=
  match s with String c _ => Some c | EmptyString => None end.

Definition boundary (prev : option ascii) (s : string) : bool :=
  xorb (is_word_opt prev) (is_word_opt (head s)).

(** ** [YEAR_RE = \b((?:19|20)\d{2})\b] *)

Definition century (a b : ascii) : bool :=
  (Ascii.eqb a "1" && Ascii.eqb b "9") || (Ascii.eqb a "2" && Ascii.eqb b "0").

(** The shape [(?:19|20)\d{2}] of a whole text. *)
Definition year_shape (tok : string) : bool :=
  match tok with
  | String a (String b (String c (String d EmptyString))) =>
      century a b && Str.is_digit c && Str.is_digit d
  | _ => false
  end.

(** A match of [YEAR_RE] starting at the head of [s]; [prev] is the
    character before it. *)
Definition year_match (prev : option ascii) (s : string) : option string :=
  match s with
  | String a (String b (String c (String d rest))) =>
      if boundary prev s && century a b && Str.is_digit c && Str.is_digit d
         && boundary (Some d) rest
      then Some (String a (String b (String c (String d EmptyString))))
      else None
  | _ => None
  end.

(** The scan of [findall]: leftmost matches, the search resuming where a
    match ended ([skip] characters of the last match remain). *)
Fixpoint year_scan (skip : nat) (prev : option ascii) (s : string) : list string :=
  match s with
  | EmptyString => []
  | String c r =>
      match skip with
      | S k => year_scan k (Some c) r
      | O =>
          match year_match prev s with
          | Some y => y :: year_scan 3 (Some c) r
          | None => year_scan 0 (Some c) r
          end
      end
  end.

(** [YEAR_RE.findall(text)] *)
Definition year_findall (text : string) : list string := year_scan 0 None text.

(** ** [NUM_RE], first alternative
    [\(?\$?\s*-?\d{1,3}(?:,\d{3})*(?:\.\d+)?\)?].
    Every item after the leading digits is optional, so the greedy choice
    is the match; before them, giving back an optional character or a
    blank leaves a character that is no digit, so no other choice of the
    prefix can succeed where the greedy one fails. *)

Definition take_char (c : ascii) (s : string) : string * string :=
  match s with
  | String d r => if Ascii.eqb c d then (String d EmptyString, r) else (EmptyString, s)
  | EmptyString => (EmptyString, s)
  end.

Fixpoint take_while (p : ascii -> bool) (s : string) : string * string :=
  match s with
  | String c r =>
      if p c then let '(t, u) := take_while p r in (String c t, u)
      else (EmptyString, s)
  | EmptyString => (EmptyString, EmptyString)
  end.

(** [\d{1,3}] *)
Definition take_digits3 (s : string) : string * string :=
  match s with
  | String a (String b (String c r)) =>
      if Str.is_digit a && Str.is_digit b && Str.is_digit c
      then (String a (String b (String c EmptyString)), r)
      else if Str.is_digit a && Str.is_digit b
      then (String a (String b EmptyString), String c r)
      else if Str.is_digit a then (String a EmptyString, String b (String c r))
      else (EmptyString, s)
  | String a (String b EmptyString) =>
      if Str.is_digit a && Str.is_digit b then (s, EmptyString)
      else if Str.is_digit a then (String a EmptyString, String b EmptyString)
      else (EmptyString, s)
  | String a EmptyString =>
      if Str.is_digit a then (s, EmptyString) else (EmptyString, s)
  | EmptyString => (EmptyString, s)
  end.

(** [(?:,\d{3})*] *)
Fixpoint take_groups (s : string) : string * string :=
  match s with
  | String "," (String a (String b (String c r))) =>
      if Str.is_digit a && Str.is_digit b && Str.is_digit c
      then let '(t, u) := take_groups r in
           (String "," (String a (String b (String c t))), u)
      else (EmptyString, s)
  | _ => (EmptyString, s)
  end.

(** [(?:\.\d+)?] *)
Definition take_fraction (s : string) : string * string :=
  match s with
  | String "." r =>
      let '(d, u) := take_while Str.is_digit r in
      if Str.is_empty d then (EmptyString, s) else (String "." d, u)
  | _ => (EmptyString, s)
  end.

Definition num_alt1 (s : string) : option string :=
  let '(p1, s1) := take_char "(" s in
  let '(p2, s2) := take_char "$" s1 in
  let '(p3, s3) := take_while Str.is_space s2 in
  let '(p4, s4) := take_char "-" s3 in
  let '(d, s5) := take_digits3 s4 in
  if Str.is_empty d then None
  else
    let '(g, s6) := take_groups s5 in
    let '(f, s7) := take_fraction s6 in
    let '(q, _) := take_char ")" s7 in
    Some (p1 +:+ p2 +:+ p3 +:+ p4 +:+ d +:+ g +:+ f +:+ q).

(** ** [NUM_RE], second alternative [\b-?\d+(?:\.\d+)?\b].
    The closing [\b] can hold after the fraction, or else after the
    integer part when a fraction follows it; inside a run of digits there
    is no boundary. *)
Fixpoint last_char (s : string) : option ascii :=
  match s with
  | EmptyString => None
  | String c EmptyString => Some c
  | String _ r => last_char r
  end.

Definition num_alt2 (prev : option ascii) (s : string) : option string :=
  if boundary prev s then
    let '(p, s1) := take_char "-" s in
    let '(d, s2) := take_while Str.is_digit s1 in
    if Str.is_empty d then None
    else
      let '(f, s3) := take_fraction s2 in
      if negb (Str.is_empty f) && boundary (last_char f) s3 then Some (p +:+ d +:+ f)
      else if boundary (last_char d) s2 then Some (p +:+ d)
      else None
  else None.

Definition num_match (prev : option ascii) (s : string) : option string :=
  match num_alt1 s with
  | Some t => Some t
  | None => num_alt2 prev s
  end.

Fixpoint num_scan (skip : nat) (prev : option ascii) (s : string) : list string :=
  match s with
  | EmptyString => []
  | String c r =>
      match skip with
      | S k => num_scan k (Some c) r
      | O =>
          match num_match prev s with
          | Some t => t :: num_scan (String.length t - 1) (Some c) r
          | None => num_scan 0 (Some c) r
          end
      end
  end.

(** [[m.group(0) for m in NUM_RE.finditer(line)]] *)
Definition num_finditer (line : string) : list string := num_scan 0 None line.

(** ** [DATE_LONG_RE], case-insensitive:
    [\b(JANUARY|...|DECEMBER)\s+(\d{1,2}),?\s*((?:19|20)\d{2})\b] *)

(** A pattern letter matches a character of the text when both have the
    same lower case.  That is the rule among the characters up to U+00FF;
    above them a letter of the pattern can match further characters
    (U+0130 for [I], U+017F for [S]), which no modelled text holds. *)
Fixpoint take_literal_ci (lit s : string) : option (string * string) :=
  match lit with
  | EmptyString => Some (EmptyString, s)
  | String a lit' =>
      match s with
      | String c r =>
          if Ascii.eqb (Str.lower_char a) (Str.lower_char c) then
            match take_literal_ci lit' r with
            | Some (t, u) => Some (String c t, u)
            | None => None
            end
          else None
      | EmptyString => None
      end
  end.

(** What follows the day: [,?\s*((?:19|20)\d{2})\b].  Giving back the
    comma or a blank leaves a character that cannot start the year. *)
Definition date_year (s : string) : option string :=
  let '(_, s1) := take_char "," s in
  let '(_, s2) := take_while Str.is_space s1 in
  match s2 with
  | String a (String b (String c (String d rest))) =>
      if century a b && Str.is_digit c && Str.is_digit d && boundary (Some d) rest
      then Some (String a (String b (String c (String d EmptyString))))
      else None
  | _ => None
  end.

(** What follows the month: [\s+(\d{1,2})] and the rest; two digits are
    tried for the day before one. *)
Definition date_day_year (s : string) : option (string * string) :=
  let '(sp, s1) := take_while Str.is_space s in
  if Str.is_empty sp then None
  else
    let two :=
      match s1 with
      | String a (String b r) =>
          if Str.is_digit a && Str.is_digit b then
            match date_year r with
            | Some y => Some (String a (String b EmptyString), y)
            | None => None
            end
          else None
      | _ => None
      end in
    match two with
    | Some m => Some m
    | None =>
        match s1 with
        | String a r =>
            if Str.is_digit a then
              match date_year r with
              | Some y => Some (String a EmptyString, y)
              | None => None
              end
            else None
        | EmptyString => None
        end
    end.

(** The alternatives of the month group, tried in order. *)
Fixpoint date_months (months : list string) (s : string)
  : option (string * string * string) :=
  match months with
  | [] => None
  | m :: ms =>
      let here :=
        match take_literal_ci m s with
        | Some (t, u) =>
            match date_day_year u with
            | Some (d, y) => Some (t, d, y)
            | None => None
            end
        | None => None
        end in
      match here with
      | Some g => Some g
      | None => date_months ms s
      end
  end.

Definition date_match (months : list string) (prev : option ascii) (s : string)
  : option (string * string * string) :=
  if boundary prev s then date_months months s else None.

(** [DATE_LONG_RE.search(text)]: the groups of the leftmost match. *)
Fixpoint date_scan (months : list string) (prev : option ascii) (s : string)
  : option (string * string * string) :=
  match date_match months prev s with
  | Some g => Some g
  | None =>
      match s with
      | EmptyString => None
      | String c r => date_scan months (Some c) r
      end
  end.

Definition date_search (months : list string) (text : string)
  : option (string * string * string) := date_scan months None text.

(** ** [re.sub(r"\(note\s*\d+\)", "", s, flags=re.IGNORECASE)]
    The match at the head of [s], as the number of characters it spans. *)
Definition note_match (s : string) : option nat :=
  match take_literal_ci "(note" s with
  | Some (t, s1) =>
      let '(sp, s2) := take_while Str.is_space s1 in
      let '(d, s3) := take_while Str.is_digit s2 in
      if Str.is_empty d then None
      else match s3 with
           | String ")" _ => Some (5 + String.length sp + String.length d + 1)%nat
           | _ => None
           end
  | None => None
  end.

Fixpoint note_strip (skip : nat) (s : string) : string :=
  match s with
  | EmptyString => EmptyString
  | String c r =>
      match skip with
      | S k => note_strip k r
      | O =>
          match note_match s with
          | Some n => note_strip (n - 1) r
          | None => String c (note_strip 0 r)
          end
      end
  end.

(** [re.sub(r"\s+", " ", s)]: [in_run] tells that the previous character
    was white space, already replaced. *)
Fixpoint collapse_spaces (in_run : bool) (s : string) : string :=
  match s with
  | EmptyString => EmptyString
  | String c r =>
      if Str.is_space c then
        if in_run then collapse_spaces true r
        else String " " (collapse_spaces true r)
      else String c (collapse_spaces false r)
  end.

(** [re.search(r"\d", x)] as a truth value. *)
Fixpoint has_digit (s : string) : bool :=
  match s with
  | EmptyString => false
  | String c r => Str.is_digit c || has_digit r
  end.

End Re.


(* ===================================================================== *)
(** * Exceptions *)
(* ===================================================================== *)

Inductive exn := ValueError | KeyError | IndexError | TypeError.

Inductive result (A : Type) : Type :=
| Ok (a : A)
| Err (e : exn).
Arguments Ok {A} a.
Arguments Err {A} e.

#[global] Instance result_ret : MRet result := fun A a => Ok a.
#[global] Instance result_bind : MBind result :=
  fun A B f m => match m with Ok a => f a | Err e => Err e end.

#[global] Instance result_fmap : FMap result :=
  fun A B f m => match m with Ok a => Ok (f a) | Err e => Err e end.

Definition of_option {A} (e : exn) (o : option A) : result A :=
  match o with Some a => Ok a | None => Err e end.

(** [[f(x) for x in xs]] where [f] may raise. *)
Fixpoint map_result {A B} (f : A -> result B) (xs : list A) : result (list B) :=
  match xs with
  | [] => Ok []
  | x :: r => y ← f x; ys ← map_result f r; Ok (y :: ys)
  end.

(** A loop [for x in xs: st = body(st, x)] whose body may raise. *)
Fixpoint for_each {S A} (body : S -> A -> result S) (xs : list A) (st : S) : result S :=
  match xs with
  | [] => Ok st
  | x :: r => st' ← body st x; for_each body r st'
  end.

(* ===================================================================== *)
(** * Builtins on sequences and dates *)
(* ===================================================================== *)

(** [not xs] *)
Definition is_nil {A} (xs : list A) : bool :=
  match xs with [] => true | _ => false end.

(** [xs[i]], a negative [i] counting from the end. *)
Definition py_index {A} (xs : list A) (i : Z) : result A :=
  let n := Z.of_nat (length xs) in
  let j := if i <? 0 then i + n else i in
  if (0 <=? j) && (j <? n) then of_option IndexError (xs !! Z.to_nat j)
  else Err IndexError.

(** [max(xs)] and [min(xs)] *)
Definition py_max (xs : list Z) : result Z :=
  match xs with
  | [] => Err ValueError
  | x :: r => Ok (fold_left Z.max r x)
  end.

Definition py_min (xs : list Z) : result Z :=
  match xs with
  | [] => Err ValueError
  | x :: r => Ok (fold_left Z.min r x)
  end.

(** [int(s)] for a string of decimal digits, as the patterns capture them. *)
Definition int_of_digits (s : string) : Z := Z.of_N (Float.digits_value 0 s).

(** [sorted(set(xs))] *)
Fixpoint insert_sorted (x : Z) (l : list Z) : list Z :=
  match l with
  | [] => [x]
  | y :: r =>
      if x <? y then x :: l
      else if x =? y then l
      else y :: insert_sorted x r
  end.

Definition sorted_set (xs : list Z) : list Z := foldr insert_sorted [] xs.

(** [xs.index(x)] *)
Fixpoint list_index (x : string) (xs : list string) : result Z :=
  match xs with
  | [] => Err ValueError
  | y :: r => if String.eqb y x then Ok 0 else i ← list_index x r; Ok (i + 1)
  end.

(** [datetime.date] *)
Record date := Date { year : Z; month : Z; day : Z }.

Definition is_leap (y : Z) : bool :=
  (y mod 4 =? 0) && (negb (y mod 100 =? 0) || (y mod 400 =? 0)).

Definition days_in_month (y m : Z) : Z :=
  if m =? 2 then (if is_leap y then 29 else 28)
  else if (m =? 4) || (m =? 6) || (m =? 9) || (m =? 11) then 30
  else 31.

(** [datetime.date(y, m, d)] *)
Definition make_date (y m d : Z) : result date :=
  if (1 <=? y) && (y <=? 9999) && (1 <=? m) && (m <=? 12)
     && (1 <=? d) && (d <=? days_in_month y m)
  then Ok (Date y m d) else Err ValueError.

Definition digit_char (d : Z) : ascii := ascii_of_N (48 + Z.to_N (d mod 10)).

Definition two_digits (n : Z) : string :=
  String (digit_char (n / 10)) (String (digit_char n) EmptyString).

(** [d.isoformat()] *)
Definition isoformat (d : date) : string :=
  two_digits (year d / 100) +:+ two_digits (year d) +:+ "-"
  +:+ two_digits (month d) +:+ "-" +:+ two_digits (day d).

(** The upper case of the letters whose upper case is a single character of
    the modelled range; it is applied to matched month names only. *)
Definition upper_char (c : ascii) : ascii :=
  if Str.between 97 122 c || Str.between 224 246 c || Str.between 248 254 c
  then ascii_of_N (Str.code c - 32) else c.

Fixpoint upper (s : string) : string :=
  match s with
  | EmptyString => EmptyString
  | String c r => String (upper_char c) (upper r)
  end.

(* ===================================================================== *)
(** * Module constants and the pure helpers *)
(* ===================================================================== *)

Definition MONTHS : list string :=
  ["JANUARY"; "FEBRUARY"; "MARCH"; "APRIL"; "MAY"; "JUNE"; "JULY"; "AUGUST";
   "SEPTEMBER"; "OCTOBER"; "NOVEMBER"; "DECEMBER"].

(** [norm_label].  The two [replace] calls and the last two characters of
    the [strip] set name characters above U+00FF, which no modelled string
    holds: they leave every modelled string as it is. *)
Definition norm_label (s : string) : string :=
  let s := Re.note_strip 0 s in
  let s := Re.collapse_spaces false s in
  Str.strip_chars " :-" s.

(** [parse_money] *)
Definition parse_money (tok : string) : result Float.float :=
  let neg := Str.startswith "(" (Str.strip tok) && Str.endswith ")" (Str.strip tok) in
  let tok := Str.replace "," "" (Str.strip_chars "()$ " tok) in
  if String.eqb tok "" || String.eqb tok "-" then Ok Float.zero
  else
    v ← of_option ValueError (Float.of_string tok);
    Ok (if neg then Float.opp v else v).


(** The parts of a token [parse_money] looks at: the parenthesis flag, and
    what is left once stripped and freed of commas. *)
Definition wrapped (tok : string) : bool :=
  Str.startswith "(" (Str.strip tok) && Str.endswith ")" (Str.strip tok).

Definition remainder (tok : string) : string :=
  Str.replace "," "" (Str.strip_chars "()$ " tok).

Definition is_zero_text (t : string) : bool :=
  String.eqb t "" || String.eqb t "-".

(** The characters a bare amount does not hold: white space, parentheses,
    the dollar sign and the comma. *)
Definition money_punct (c : ascii) : bool :=
  Str.is_space c || Str.mem_char c "()$ ,".

Definition plain (s : string) : bool := Str.none_of money_punct s.

(** [detect_currency], on texts of characters up to U+00FF: the euro sign
    lies above them, so the test for it is false on every modelled text
    and its branch is left out. *)
Definition currency_codes : list string :=
  ["USD"; "CAD"; "EUR"; "GBP"; "AUD"; "NZD"; "JPY"; "CHF"; "SEK"; "NOK"; "DKK";
   "HKD"; "SGD"; "INR"].

(** [full_text.upper()]: the sharp s becomes two letters; the micro sign and
    the y with diaeresis leave the modelled range and, like every character
    that is no ASCII letter, cannot take part in a currency code. *)
Fixpoint upper_text (s : string) : string :=
  match s with
  | EmptyString => EmptyString
  | String c r =>
      if (Str.code c =? 223)%N then String "S" (String "S" (upper_text r))
      else String (upper_char c) (upper_text r)
  end.

Definition detect_currency (full_text : string) : string :=
  let t := upper_text full_text in
  match List.find (fun code => Str.contains code t) currency_codes with
  | Some code => code
  | None =>
      if Str.contains (String (ascii_of_N 163) EmptyString) full_text then "GBP"
      else "AUTO"
  end.

(* ===================================================================== *)
(** * JSON-like values: the payload *)
(* ===================================================================== *)

#[warnings="-register-all"] Inductive json :=
| JNull
| JInt (n : Z)
| JFloat (x : Float.float)
| JStr (s : string)
| JArr (items : list json)
| JObj (fields : list (string * json)).

(** [d[k] = v] on a [dict]: a present key keeps its place. *)
Fixpoint dict_set {V} (k : string) (v : V) (d : list (string * V)) : list (string * V) :=
  match d with
  | [] => [(k, v)]
  | (k', v') :: r => if String.eqb k' k then (k, v) :: r else (k', v') :: dict_set k v r
  end.

(** [{k: f(k) for k in keys}] *)
Definition dict_comp {V} (f : string -> V) (keys : list string) : list (string * V) :=
  fold_left (fun d k => dict_set k (f k) d) keys [].

Fixpoint dict_get {V} (k : string) (d : list (string * V)) : option V :=
  match d with
  | [] => None
  | (k', v) :: r => if String.eqb k' k then Some v else dict_get k r
  end.

(** [j[k]] *)
Definition item (k : string) (j : json) : result json :=
  match j with
  | JObj fields => of_option KeyError (dict_get k fields)
  | _ => Err TypeError
  end.

(** The amounts of a payload are floats, as [rollup_payload] writes them;
    arithmetic on anything else is reported as [TypeError]. *)
Definition number (j : json) : result Float.float :=
  match j with
  | JFloat x => Ok x
  | _ => Err TypeError
  end.

(** [j[k1][k2]...] read as an amount. *)
Fixpoint amount (path : list string) (j : json) : result Float.float :=
  match path with
  | [] => number j
  | k :: r => j' ← item k j; amount r j'
  end.

(* ===================================================================== *)
(** * The pipeline *)
(* ===================================================================== *)

(** An entry of [TAX["canon"]]; an absent list reads as the empty one. *)
Record desc := Desc { synonyms : list string; regex : list string }.

(** The groups of [TAX["rollups"]] the builder reads.  [loan_payable] is
    [Some k] when the configured value is the string [k]. *)
Record rollups := Rollups {
  current_assets : list string;
  singletons : list string;
  current_liabilities : list string;
  loan_payable : option string;
  shareholders_equity : list string;
  expenses : list string
}.

Abbreviation flat_map_t := (gmap string Float.float).
Abbreviation buckets := (gmap Z (gmap string Float.float)).

Section Pipeline.

(** [TAX["canon"].items()], in order. *)
Variable CANON : list (string * desc).
Variable ROLLUPS : rollups.
(** [TAX.get("company_markers", [])] *)
Variable company_markers : list string.

(** [re.search(rx, lab, flags=re.IGNORECASE)] finds a match; the patterns
    of the taxonomy are taken to compile. *)
Variable re_search : string -> string -> bool.
(** [process.extractOne(lab, choices, scorer=fuzz.token_sort_ratio)]: the
    best choice and its score, if any. *)
Variable extractOne : string -> list string -> option (string * Float.float).
(** [datetime.date.today().year] *)
Variable today_year : Z.
(** [repr(x)] of a float, as an f-string formats it. *)
Variable float_repr : Float.float -> string.
(** The builtin [sum] over floats. *)
Variable builtin_sum : list Float.float -> Float.float.

Definition COMPANY_MARKERS : list string := map Str.lower company_markers.

Definition FUZZY_CHOICES : list string :=
  flat_map (fun '(_, d) => (map Str.lower (synonyms d) ++ map Str.lower (regex d))%list) CANON.

Definition CANON_KEY_FOR : gmap string string :=
  fold_left
    (fun m '(canon_key, d) =>
       fold_left (fun m s => <[Str.lower s := canon_key]> m) (synonyms d) m)
    CANON ∅.

(** ** [extract_company_and_period] *)

(** [any(m in L.lower() for m in COMPANY_MARKERS)] *)
Definition has_marker (L : string) : bool :=
  existsb (fun m => Str.contains m (Str.lower L)) COMPANY_MARKERS.

Definition company_step (company : option string) (line : string) : option string :=
  let L := Str.strip line in
  if has_marker L && (5 <? Str.len L)
  then match company with
       | None => Some L
       | Some c => if Str.len c <? Str.len L then Some L else company
       end
  else company.

Definition extract_company_and_period (text : string)
  : result (option string * option date) :=
  let company := fold_left company_step (Str.splitlines text) None in
  match Re.date_search MONTHS text with
  | None => Ok (company, None)
  | Some (month, day, year) =>
      i ← list_index (upper month) MONTHS;
      period ← make_date (int_of_digits year) (i + 1) (int_of_digits day);
      Ok (company, Some period)
  end.

(** ** [match_canonical] *)

(** The inner loop of the regex pass: some pattern of the entry is found
    in [lab]. *)
Definition entry_matches (lab : string) (entry : string * desc) : bool :=
  existsb (fun rx => re_search rx lab) (regex (snd entry)).

Definition regex_pass (lab : string) : option string :=
  fst <$> List.find (entry_matches lab) CANON.

Definition threshold : Float.float := Float.of_Z 84.

Definition fuzzy_pass (lab : string) : option string :=
  match extractOne lab FUZZY_CHOICES with
  | Some (choice, score) =>
      if Float.leb threshold score then CANON_KEY_FOR !! choice else None
  | None => None
  end.

Definition match_canonical (label : string) : option string :=
  let lab := Str.lower label in
  match regex_pass lab with
  | Some canon_key => Some canon_key
  | None => fuzzy_pass lab
  end.

(** ** [parse_pdf_to_year_buckets], from the page texts on.
    The pages are the texts [page.extract_text() or ""] of the document,
    in order.  Writing the temporary file and reading it with
    [pdfplumber] (lines 101 to 110) are not modelled, nor are their
    exceptions: what follows is what the function computes from the
    texts. *)

(** The first loop: company and period over the pages. *)
Definition truthy (s : option string) : bool :=
  match s with Some s => negb (Str.is_empty s) | None => false end.

Definition has_date (d : option date) : bool :=
  match d with Some _ => true | None => false end.

(** [len(s)] of a value that is a string when the test is reached. *)
Definition olen (s : option string) : Z := Str.len (default EmptyString s).

Definition detect_step (st : option string * option date) (t : string)
  : result (option string * option date) :=
  let '(company, period) := st in
  if negb (truthy company) || negb (has_date period) then
    '(c, p) ← extract_company_and_period t;
    let company :=
      if truthy c && (negb (truthy company) || (olen company <? olen c))
      then c else company in
    let period := if has_date p && negb (has_date period) then p else period in
    Ok (company, period)
  else Ok st.

(** [years], lines 122-124. *)
Definition detect_years (full_text : string) (period : option date) : list Z :=
  let years := sorted_set (map int_of_digits (Re.year_findall full_text)) in
  match years with
  | [] => [match period with Some d => year d | None => today_year end]
  | _ => years
  end.

Definition change_map : list (string * string) :=
  [("accounts receivable", "change_accounts_receivable");
   ("investment tax credits receivable", "change_investment_tax_credits_receivable");
   ("inventories", "change_inventories");
   ("prepaid expenses", "change_prepaid_expenses");
   ("accounts payable and accrued liabilities",
    "change_accounts_payable_and_accrued_liabilities");
   ("government remittances payable", "change_government_remittances_payable");
   ("deferred revenue", "change_deferred_revenue")].

(** The fallback loop over [change_map.items()]. *)
Definition change_fallback (label_part : string) : option string :=
  snd <$> List.find (fun '(syn, _) => Str.contains syn (Str.lower label_part)) change_map.

(** The canonical key of a label: [match_canonical], then the fallback
    when its answer is not truthy. *)
Definition resolve (label_part : string) : option string :=
  let canon := match_canonical label_part in
  if truthy canon then canon
  else match change_fallback label_part with
       | Some ck => Some ck
       | None => canon
       end.

(** [raw[y][canon] = v] *)
Definition write (y : Z) (canon : string) (v : Float.float) (raw : buckets)
  : result buckets :=
  match raw !! y with
  | Some flat => Ok (<[y := <[canon := v]> flat]> raw)
  | None => Err KeyError
  end.

(** The values the loop body names, as functions of the line:
    [nums], [label_part] once normalised, and [values]. *)
Definition nums_of (line : string) : list string :=
  Re.num_finditer (Str.strip line).

Definition label_part_of (line : string) : string :=
  match nums_of line with
  | [] => EmptyString
  | first :: _ => norm_label (Str.strip (Str.split_head first (Str.strip line)))
  end.

Definition values_of (line : string) : result (list Float.float) :=
  map_result parse_money (List.filter Re.has_digit (nums_of line)).

(** The body of the loop over the lines of a page. *)
Definition process_line (years : list Z) (current_year_context : Z)
           (raw : buckets) (line : string) : result buckets :=
  if Str.is_empty (Str.strip line) then Ok raw else
  if is_nil (nums_of line) then Ok raw else
  let label_part := label_part_of line in
  if Str.is_empty label_part then Ok raw else
  let canon := resolve label_part in
  if negb (truthy canon) then Ok raw else
  let canon := default EmptyString canon in
  values ← values_of line;
  if is_nil values then Ok raw else
  if (2 <=? Z.of_nat (length values)) && (2 <=? Z.of_nat (length years)) then
    v_curr ← py_index values (-2);
    v_prev ← py_index values (-1);
    hi ← py_max years;
    raw ← write hi canon v_curr raw;
    lo ← py_min years;
    write lo canon v_prev raw
  else
    v ← py_index values (-1);
    write current_year_context canon v raw.

(** The body of the loop over the pages: the year context, then the lines. *)
Definition process_page (years : list Z) (st : Z * buckets) (t : string)
  : result (Z * buckets) :=
  let '(current_year_context, raw) := st in
  let page_years := map int_of_digits (Re.year_findall t) in
  ctx ← match page_years with
        | [] => Ok current_year_context
        | _ => py_max page_years
        end;
  raw ← for_each (process_line years ctx) (Str.splitlines t) raw;
  Ok (ctx, raw).

Definition parse_pdf_to_year_buckets (pages_text : list string)
  : result (string * option date * string * buckets) :=
  '(company, period) ← for_each detect_step pages_text (None, None);
  let full_text := Str.join_lines pages_text in
  let doc_currency := detect_currency full_text in
  let years := detect_years full_text period in
  let raw : buckets := list_to_map (map (fun y => (y, ∅)) years) in
  current_year_context ← py_max years;
  '(_, raw) ← for_each (process_page years) pages_text (current_year_context, raw);
  Ok (if truthy company then default EmptyString company else "UNKNOWN",
      period, doc_currency, raw).

Local Infix "+." := Float.add (at level 50, left associativity).
Local Infix "-." := Float.sub (at level 50, left associativity).

(** ** [diagnostics] *)

Definition check_names : list string :=
  ["balance_sheet_identity"; "retained_earnings_recon"; "cash_bridge";
   "ibt_vs_rev_minus_exp"].

(** The four residuals, in the order they enter [d["checks"]]. *)
Definition checks_of (payload : json) : result (list (string * Float.float)) :=
  bs ← item "balance_sheet" payload;
  is_ ← item "income_statement" payload;
  cf ← item "cash_flows" payload;
  A ← amount ["assets"; "total_assets"] bs;
  LQ ← amount ["liabilities_and_equity"; "current_liabilities"; "total"] bs;
  LP ← amount ["liabilities_and_equity"; "loan_payable"] bs;
  EQ ← amount ["liabilities_and_equity"; "shareholders_equity"; "total"] bs;
  let c1 := Float.round2 (A -. (LQ +. LP +. EQ)) in
  beg ← amount ["retained_earnings_rollforward"; "beginning"] is_;
  ni ← amount ["net_income"] is_;
  div ← amount ["retained_earnings_rollforward"; "dividends"] is_;
  end_ ← amount ["retained_earnings_rollforward"; "end"] is_;
  let c2 := Float.round2 ((beg +. ni +. div) -. end_) in
  cb ← amount ["cash_beginning"] cf;
  inc ← amount ["increase_in_cash"] cf;
  ce ← amount ["cash_end"] cf;
  let c3 := Float.round2 ((cb +. inc) -. ce) in
  rev ← amount ["revenue"] is_;
  exp ← amount ["expenses"; "total"] is_;
  ibt ← amount ["income_before_income_taxes"] is_;
  let c4 := Float.round2 ((rev -. exp) -. ibt) in
  Ok (dict_set "ibt_vs_rev_minus_exp" c4
       (dict_set "cash_bridge" c3
         (dict_set "retained_earnings_recon" c2
           (dict_set "balance_sheet_identity" c1 [])))).

(** [abs(v) > 1.0] *)
Definition exceeds (v : Float.float) : bool := Float.ltb Float.one (Float.abs v).

Definition warning (k : string) (v : Float.float) : string :=
  k +:+ " mismatch: " +:+ float_repr v.

(** The loop over [d["checks"].items()]. *)
Definition warnings_of (checks : list (string * Float.float)) : list string :=
  fold_left (fun ws '(k, v) => if exceeds v then (ws ++ [warning k v])%list else ws)
            checks [].

Definition diagnostics (payload : json) : result json :=
  checks ← checks_of payload;
  Ok (JObj [("checks", JObj (map (fun '(k, v) => (k, JFloat v)) checks));
            ("warnings", JArr (map JStr (warnings_of checks)))]).

(** ** [json.dumps(payload, ensure_ascii=False)] *)

Definition hex_digit (n : N) : ascii :=
  if (n <? 10)%N then ascii_of_N (48 + n) else ascii_of_N (87 + n).

(** The escape of one character inside a JSON string. *)
Definition json_escape_char (c : ascii) : string :=
  let n := Str.code c in
  if (n =? 34)%N then String "\" (String c EmptyString)
  else if (n =? 92)%N then "\\"
  else if (n =? 8)%N then "\b"
  else if (n =? 12)%N then "\f"
  else if (n =? 10)%N then "\n"
  else if (n =? 13)%N then "\r"
  else if (n =? 9)%N then "\t"
  else if (n <? 32)%N then
    "\u00" +:+ String (hex_digit (n / 16)) (String (hex_digit (n mod 16)) EmptyString)
  else String c EmptyString.

Fixpoint json_escape (s : string) : string :=
  match s with
  | EmptyString => EmptyString
  | String c r => json_escape_char c +:+ json_escape r
  end.

Definition json_quote (s : string) : string :=
  let q := String (ascii_of_N 34) EmptyString in
  q +:+ json_escape s +:+ q.

Definition json_float (x : Float.float) : string :=
  match x with
  | S754_nan => "NaN"
  | S754_infinity false => "Infinity"
  | S754_infinity true => "-Infinity"
  | _ => float_repr x
  end.

Fixpoint json_dumps (j : json) : string :=
  match j with
  | JNull => "null"
  | JInt n => NilZero.string_of_int (Z.to_int n)
  | JFloat x => json_float x
  | JStr s => json_quote s
  | JArr items =>
      let fix go (xs : list json) : string :=
        match xs with
        | [] => EmptyString
        | [x] => json_dumps x
        | x :: r => json_dumps x +:+ ", " +:+ go r
        end in
      "[" +:+ go items +:+ "]"
  | JObj fields =>
      let fix go (xs : list (string * json)) : string :=
        match xs with
        | [] => EmptyString
        | [(k, v)] => json_quote k +:+ ": " +:+ json_dumps v
        | (k, v) :: r => json_quote k +:+ ": " +:+ json_dumps v +:+ ", " +:+ go r
        end in
      "{" +:+ go fields +:+ "}"
  end.

(** ** [rollup_payload] *)

Section Rollup.
Variables (company : string) (period : option date) (currency : string)
          (fiscal_year : Z) (r : gmap string Float.float).

(** [float(r.get(k, 0.0))] *)
Definition g (k : string) : Float.float := default Float.zero (r !! k).

Definition sum_keys (keys : list string) : Float.float := builtin_sum (map g keys).

Definition components (keys : list string) : json :=
  JObj (dict_comp (fun k => JFloat (g k)) keys).

Definition group (keys : list string) (total : Float.float) : json :=
  JObj [("components", components keys); ("total", JFloat (Float.round2 total))].

Definition gf (k : string) : string * json := (k, JFloat (g k)).

Definition rollup_payload : result json :=
  let ca_keys := current_assets ROLLUPS in
  let current_assets_total := sum_keys ca_keys in
  let total_assets := current_assets_total +. sum_keys (singletons ROLLUPS) in
  let cl_keys := current_liabilities ROLLUPS in
  let current_liab_total := sum_keys cl_keys in
  let loan_payable :=
    match loan_payable ROLLUPS with
    | Some k => g k
    | None => Float.zero
    end in
  let sh_keys := shareholders_equity ROLLUPS in
  let shareholders_total := sum_keys sh_keys in
  let total_liab_equity :=
    current_liab_total +. loan_payable +. shareholders_total in
  let exp_keys := expenses ROLLUPS in
  let expenses_total := sum_keys exp_keys in
  let payload :=
    [("company", JStr company);
     ("fiscal_year", JInt fiscal_year);
     ("period_end", match period with Some d => JStr (isoformat d) | None => JNull end);
     ("currency", JStr currency);
     ("balance_sheet", JObj
       [("assets", JObj
          [("current_assets", group ca_keys current_assets_total);
           gf "investment_in_xyz_ltd";
           gf "equipment_and_software";
           gf "intangible_assets";
           ("total_assets", JFloat (Float.round2 total_assets))]);
        ("liabilities_and_equity", JObj
          [("current_liabilities", group cl_keys current_liab_total);
           ("loan_payable", JFloat (Float.round2 loan_payable));
           ("shareholders_equity", group sh_keys shareholders_total);
           ("total_liabilities_and_equity", JFloat (Float.round2 total_liab_equity))])]);
     ("income_statement", JObj
       [gf "revenue";
        ("expenses", group exp_keys expenses_total);
        gf "income_before_income_taxes";
        gf "income_taxes";
        gf "net_income";
        ("retained_earnings_rollforward", JObj
          [("beginning", JFloat (g "retained_earnings_beginning"));
           ("dividends", JFloat (g "dividends"));
           ("end", JFloat (g "retained_earnings_end_of_year"))])]);
     ("cash_flows", JObj
       [("operating_activities", JObj
          [("components", JObj
             [gf "net_income";
              ("adjustments_amortization_tangible",
               JFloat (g "amortization_of_tangible_assets"));
              ("adjustments_amortization_intangible",
               JFloat (g "amortization_of_intangible_assets"));
              gf "change_accounts_receivable";
              gf "change_investment_tax_credits_receivable";
              gf "change_inventories";
              gf "change_prepaid_expenses";
              gf "change_accounts_payable_and_accrued_liabilities";
              gf "change_government_remittances_payable";
              gf "change_deferred_revenue"]);
           ("total", JFloat (Float.round2
              (g "net_income" +. g "amortization_of_tangible_assets"
               +. g "amortization_of_intangible_assets"
               +. g "change_accounts_receivable"
               +. g "change_investment_tax_credits_receivable"
               +. g "change_inventories"
               +. g "change_prepaid_expenses"
               +. g "change_accounts_payable_and_accrued_liabilities"
               +. g "change_government_remittances_payable"
               +. g "change_deferred_revenue")))]);
        ("investing_activities", JObj
          [("components", JObj [gf "purchase_of_property_and_equipment"]);
           ("total", JFloat (Float.round2 (g "purchase_of_property_and_equipment")))]);
        ("financing_activities", JObj
          [("components", JObj
             [gf "repayment_of_shareholder_loan";
              gf "dividends_paid";
              gf "repayment_of_loan_payable";
              gf "redemption_of_capital_stock"]);
           ("total", JFloat (Float.round2
              (g "repayment_of_shareholder_loan" +. g "dividends_paid"
               +. g "repayment_of_loan_payable" +. g "redemption_of_capital_stock")))]);
        gf "increase_in_cash";
        gf "cash_beginning";
        gf "cash_end"])] in
  d ← diagnostics (JObj payload);
  Ok (JObj (dict_set "_diagnostics" d payload)).

End Rollup.

End Pipeline.

(* ===================================================================== *)
(** * A sample configuration *)
(* ===================================================================== *)

(** A taxonomy where the label [cash in bank] is found by the pattern of
    the first entry and is, letter for letter, a synonym of the second. *)
Definition sample_canon : list (string * desc) :=
  [("cash", Desc ["cash"] ["cash"]);
   ("bank_indebtedness", Desc ["cash in bank"] [])].

(** Patterns without metacharacters: [re.search] is a substring test. *)
Definition literal_search (rx lab : string) : bool :=
  Str.contains (Str.lower rx) (Str.lower lab).

(** A fuzzy matcher that finds the label among the choices with score 100. *)
Definition exact_extract (lab : string) (choices : list string)
  : option (string * Float.float) :=
  if existsb (String.eqb lab) choices then Some (lab, Float.of_Z 100) else None.


(** The year buckets of a document whose years are 2022 and 2023, before
    any line is read. *)
Definition empty_2022_2023 : buckets := {[ 2022 := ∅; 2023 := ∅ ]}.

(* ===================================================================== *)
(** * Vocabulary of the statements *)
(* ===================================================================== *)

(** [hi] is the largest and [lo] the smallest member of [years]. *)
Definition is_max (hi : Z) (years : list Z) : Prop :=
  In hi years /\ forall y, In y years -> y <= hi.

Definition is_min (lo : Z) (years : list Z) : Prop :=
  In lo years /\ forall y, In y years -> lo <= y.

(** The reading of the two-column rule that takes the first two values of
    the line: for a line whose label resolves to [canon] and whose values
    start with [v1], [v2], in a document with two distinct years, [v1] is
    written under the largest year and [v2] under the smallest. *)
Definition first_two_rule : Prop :=
  forall CANON re_search extractOne years ctx (raw : buckets) line canon v1 v2 rest hi lo,
    label_part_of line <> EmptyString ->
    resolve CANON re_search extractOne (label_part_of line) = Some canon ->
    canon <> EmptyString ->
    values_of line = Ok (v1 :: v2 :: rest) ->
    is_max hi years -> is_min lo years -> hi <> lo ->
    (forall y, In y years -> is_Some (raw !! y)) ->
    exists raw',
      process_line CANON re_search extractOne years ctx raw line = Ok raw'
      /\ raw' !! hi = (insert canon v1 <$> raw !! hi)
      /\ raw' !! lo = (insert canon v2 <$> raw !! lo).

(** The best fuzzy score of a label is below the threshold (or there is no
    choice to score). *)
Definition fuzzy_below (CANON : list (string * desc))
           (extractOne : string -> list string -> option (string * Float.float))
           (lab : string) : Prop :=
  match extractOne lab (FUZZY_CHOICES CANON) with
  | Some (_, score) => Float.ltb score threshold = true
  | None => True
  end.

(** What a detected company is: the stripped form of a line of the text
    that holds a marker and is longer than five characters. *)
Definition candidate (company_markers : list string) (text : string) (c : string) : Prop :=
  exists line,
    In line (Str.splitlines text) /\ c = Str.strip line
    /\ has_marker company_markers c = true /\ 5 < Str.len c.

(** The warnings of the checks that exceed the tolerance, in check order. *)
Definition exceeding_warnings (float_repr : Float.float -> string)
           (checks : list (string * Float.float)) : list string :=
  flat_map (fun '(k, v) => if exceeds v then [warning float_repr k v] else []) checks.

(** The reading of the balance-sheet round trip without a side condition:
    whenever [total_assets] compares equal to the sum of the three
    right-hand amounts, the [balance_sheet_identity] residual compares equal
    to [0.0]. *)
Definition balanced_residual_rule : Prop :=
  forall float_repr payload A LQ LP EQ d c,
    amount ["balance_sheet"; "assets"; "total_assets"] payload = Ok A ->
    amount ["balance_sheet"; "liabilities_and_equity"; "current_liabilities"; "total"]
           payload = Ok LQ ->
    amount ["balance_sheet"; "liabilities_and_equity"; "loan_payable"] payload = Ok LP ->
    amount ["balance_sheet"; "liabilities_and_equity"; "shareholders_equity"; "total"]
           payload = Ok EQ ->
    Float.eqb A (Float.add (Float.add LQ LP) EQ) = true ->
    diagnostics float_repr payload = Ok d ->
    amount ["checks"; "balance_sheet_identity"] d = Ok c ->
    Float.eqb c Float.zero = true.

(** A payload with the given balance-sheet amounts and every other amount
    that [diagnostics] reads equal to [0.0]. *)
Definition balance_payload (A LQ LP EQ : Float.float) : json :=
  let z := JFloat Float.zero in
  JObj
    [("balance_sheet", JObj
       [("assets", JObj [("total_assets", JFloat A)]);
        ("liabilities_and_equity", JObj
          [("current_liabilities", JObj [("total", JFloat LQ)]);
           ("loan_payable", JFloat LP);
           ("shareholders_equity", JObj [("total", JFloat EQ)])])]);
     ("income_statement", JObj
       [("revenue", z);
        ("expenses", JObj [("total", z)]);
        ("income_before_income_taxes", z);
        ("net_income", z);
        ("retained_earnings_rollforward", JObj
          [("beginning", z); ("dividends", z); ("end", z)])]);
     ("cash_flows", JObj
       [("increase_in_cash", z); ("cash_beginning", z); ("cash_end", z)])].

(** A stand-in for [repr] on the floats of the samples. *)
Definition sample_repr (x : Float.float) : string :=
  match x with
  | S754_zero false => "0.0"
  | S754_zero true => "-0.0"
  | S754_nan => "nan"
  | S754_infinity false => "inf"
  | S754_infinity true => "-inf"
  | S754_finite s m e =>
      (if s then "-" else "") +:+ NilZero.string_of_int (Z.to_int (Zpos m))
      +:+ "*2**" +:+ NilZero.string_of_int (Z.to_int e)
  end.

(** The ten keys whose values make the operating total, in the order they
    are added. *)
Definition operating_keys : list string :=
  ["net_income"; "amortization_of_tangible_assets"; "amortization_of_intangible_assets";
   "change_accounts_receivable"; "change_investment_tax_credits_receivable";
   "change_inventories"; "change_prepaid_expenses";
   "change_accounts_payable_and_accrued_liabilities";
   "change_government_remittances_payable"; "change_deferred_revenue"].

(** [x1 + x2 + ... + xn], added from the left. *)
Definition sum_left (xs : list Float.float) : Float.float :=
  match xs with
  | [] => Float.zero
  | x :: r => fold_left Float.add r x
  end.

(** The value of a key in a flat map, [0.0] for a missing key. *)
Definition get_or_zero (r : gmap string Float.float) (k : string) : Float.float :=
  match r !! k with
  | Some v => v
  | None => Float.zero
  end.

(** A sample rollup configuration and flat map. *)
Definition sample_rollups : rollups :=
  Rollups ["cash"; "accounts_receivable"] ["equipment_and_software"]
          ["accounts_payable_and_accrued_liabilities"] (Some "loan_payable")
          ["share_capital"; "retained_earnings_end_of_year"] ["salaries"].

Definition sample_flat : gmap string Float.float :=
  {[ "cash" := Float.of_Z 10; "net_income" := Float.of_Z 3;
     "change_inventories" := Float.of_Z (-1) ]}.

(** The sum as CPython before 3.12 computes it: from [0], left to right. *)
Definition naive_sum (xs : list Float.float) : Float.float :=
  fold_left Float.add xs Float.zero.

(** A text of four digits. *)
Definition four_digits (tok : string) : bool :=
  match tok with
  | String a (String b (String c (String d EmptyString))) =>
      Str.is_digit a && Str.is_digit b && Str.is_digit c && Str.is_digit d
  | _ => false
  end.

(** [y] is a year token of [text]: four digits whose value lies between
    1900 and 2099, standing in [text] with no word character just before
    and none just after. *)
Definition year_token (text : string) (y : Z) : Prop :=
  exists pre tok post,
    text = pre +:+ tok +:+ post
    /\ four_digits tok = true
    /\ int_of_digits tok = y
    /\ 1900 <= y <= 2099
    /\ Re.is_word_opt (Re.last_char pre) = false
    /\ Re.is_word_opt (Re.head post) = false.

(** Strictly ascending: sorted, without a repeated member. *)
Definition ascending (l : list Z) : Prop := StronglySorted Z.lt l.

(* ===================================================================== *)
(** * Vocabulary of the further properties *)
(* ===================================================================== *)

(** The character before a position: the last one of [pre], or [prev] when
    [pre] is empty. *)
Definition last_or (prev : option ascii) (pre : string) : option ascii :=
  match Re.last_char pre with
  | Some c => Some c
  | None => prev
  end.

(** [tok] stands in [s] as a match of [YEAR_RE]: it has the shape of a
    year and no word character on either side; [prev] is the character
    before [s]. *)
Definition year_occurrence (prev : option ascii) (s tok : string) : Prop :=
  exists pre post,
    s = pre +:+ tok +:+ post
    /\ Re.year_shape tok = true
    /\ Re.is_word_opt (last_or prev pre) = false
    /\ Re.is_word_opt (Re.head post) = false.

(** The first [k] characters of [s] (or all of them, if fewer) are word
    characters. *)
Fixpoint word_run (k : nat) (s : string) : Prop :=
  match k, s with
  | S k', String c r => Str.is_word c = true /\ word_run k' r
  | _, _ => True
  end.

(** A two-page sample document. *)
Definition newline : string := String (ascii_of_N 10) EmptyString.

Definition sample_pages : list string :=
  ["Acme Widgets Ltd" +:+ newline
   +:+ "Balance sheet as at March 31, 2023 and 2022" +:+ newline
   +:+ "Cash $ 10,000 8,000";
   "Notes" +:+ newline +:+ "Inventories 7"].

Definition sample_parse :=
  parse_pdf_to_year_buckets sample_canon ["Inc"; "Ltd"] literal_search exact_extract 2026.

(** The strings made of capital ASCII letters only, as the month names of
    the date pattern are. *)
Fixpoint all_capital (s : string) : bool :=
  match s with
  | EmptyString => true
  | String c r => Str.between 65 90 c && all_capital r
  end.

(** The keys a line can be filed under: the keys of the taxonomy and the
    keys of the working-capital changes. *)
Definition known_key (CANON : list (string * desc)) (k : string) : Prop :=
  In k (map fst CANON) \/ In k (map snd change_map).

(** Every label of every year bucket is a known key. *)
Definition labels_known (CANON : list (string * desc)) (raw : buckets) : Prop :=
  forall (y : Z) (flat : gmap string Float.float) (k : string),
    raw !! y = Some flat -> is_Some (flat !! k) -> known_key CANON k.

(** [k in keys] *)
Definition listed (k : string) (keys : list string) : bool :=
  existsb (String.eqb k) keys.

(** What a group shows for [k] under [components]: the amount of [k] when
    the key list names it, and no entry otherwise. *)
Definition component (r : gmap string Float.float) (keys : list string) (k : string)
  : result Float.float :=
  if listed k keys then Ok (g r k) else Err KeyError.

(* ===================================================================== *)
(** * The endpoints *)
(* ===================================================================== *)

(** An [HTTPException] raised by a handler, or an exception that leaves
    it. *)
Inductive http_error :=
| HTTPException (status_code : Z) (detail : string)
| Unhandled (e : exn).

Inductive outcome (A : Type) : Type :=
| Done (a : A)
| Failed (h : http_error).
Arguments Done {A} a.
Arguments Failed {A} h.

(** The bound parameters of one [INSERT] of [upload_statement]. *)
Record statement := Statement {
  company_param : json;
  fy_param : json;
  period_end_param : json;
  currency_param : json;
  src_param : string;
  payload_param : string
}.

(** [sorted(buckets.items())]: the keys of a [dict] are distinct, so the
    order of the pairs is the order of the years and the comparison never
    reaches the second components. *)
Fixpoint insert_item {V} (x : Z * V) (l : list (Z * V)) : list (Z * V) :=
  match l with
  | [] => [x]
  | y :: r => if fst x <? fst y then x :: l else y :: insert_item x r
  end.

Definition sorted_items {V} (m : gmap Z V) : list (Z * V) :=
  foldr insert_item [] (map_to_list m).

Section Endpoints.
Variable CANON : list (string * desc).
Variable ROLLUPS : rollups.
Variable company_markers : list string.
Variable re_search : string -> string -> bool.
Variable extractOne : string -> list string -> option (string * Float.float).
Variable today_year : Z.
Variable float_repr : Float.float -> string.
Variable builtin_sum : list Float.float -> Float.float.
(** [str(e)]: the message of an exception. *)
Variable exn_text : exn -> string.

(** The parameters [upload_statement] binds for one payload. *)
Definition statement_of (filename : string) (payload : json) : result statement :=
  c ← item "company" payload;
  fy ← item "fiscal_year" payload;
  pe ← item "period_end" payload;
  cur ← item "currency" payload;
  Ok (Statement c fy pe cur filename (json_dumps float_repr payload)).

(** The body of the loop over the sorted buckets: the payload of the year
    and the statement executed for it. *)
Definition upload_step (filename company : string) (period : option date)
           (currency : string) (done : list statement) (entry : Z * gmap string Float.float)
  : result (list statement) :=
  let '(year, r) := entry in
  payload ← rollup_payload ROLLUPS float_repr builtin_sum company period currency year r;
  st ← statement_of filename payload;
  Ok (done ++ [st])%list.

(** [upload_statement], up to the database: the HTTP error it raises, or
    the statements it executes inside the transaction, in order.  The
    argument [pages_text] stands for the page texts of the uploaded file;
    an exception of the PDF reading, which is not modelled, is answered
    like any other exception of the parse, with status 500. *)
Definition upload_statement (filename : string) (pages_text : list string)
  : outcome (list statement) :=
  if negb (Str.endswith ".pdf" (Str.lower filename))
  then Failed (HTTPException 400 "Only PDF files are supported.")
  else
    match parse_pdf_to_year_buckets CANON company_markers re_search extractOne
            today_year pages_text with
    | Err e => Failed (HTTPException 500 ("Parse error: " +:+ exn_text e))
    | Ok (company, period, currency, buckets) =>
        match for_each (upload_step filename company period currency)
                       (sorted_items buckets) [] with
        | Ok statements => Done statements
        | Err e => Failed (Unhandled e)
        end
    end.

End Endpoints.

(** [if year:] on an optional integer. *)
Definition truthy_int (y : option Z) : bool :=
  match y with Some n => negb (n =? 0) | None => false end.

(** [list_statements], up to the database: the text of the query and its
    bound parameters. *)
Definition list_statements (company : option string) (year : option Z)
  : string * list (string * json) :=
  let where_ : list string := [] in
  let params : list (string * json) := [] in
  let '(where_, params) :=
    if truthy company
    then ((where_ ++ ["company = :c"])%list,
          dict_set "c" (JStr (default EmptyString company)) params)
    else (where_, params) in
  let '(where_, params) :=
    if truthy_int year
    then ((where_ ++ ["fiscal_year = :y"])%list,
          dict_set "y" (JInt (default 0 year)) params)
    else (where_, params) in
  let sql := "SELECT id, company, fiscal_year, period_end, payload FROM financial_statements" in
  let sql := if is_nil where_ then sql
             else sql +:+ " WHERE " +:+ String.concat " AND " where_ in
  let sql := sql +:+ " ORDER BY company, fiscal_year DESC" in
  (sql, params).

(** The statement of the upload for the bucket [entry]: its parameters are
    those of the document and of the payload of the year. *)
Definition statement_for (ROLLUPS : rollups) (float_repr : Float.float -> string)
           (builtin_sum : list Float.float -> Float.float)
           (filename company : string) (period : option date) (currency : string)
           (entry : Z * gmap string Float.float) (st : statement) : Prop :=
  exists payload,
    rollup_payload ROLLUPS float_repr builtin_sum company period currency
                   (fst entry) (snd entry) = Ok payload
    /\ st = Statement (JStr company) (JInt (fst entry))
              (match period with Some d => JStr (isoformat d) | None => JNull end)
              (JStr currency) filename (json_dumps float_repr payload).

(** The pairs the building loop stores in [CANON_KEY_FOR], in the order it
    stores them: every synonym, lower-cased, with the key of its entry. *)
Definition synonym_pairs (CANON : list (string * desc)) : list (string * string) :=
  flat_map (fun '(canon_key, d) => map (fun s => (Str.lower s, canon_key)) (synonyms d))
           CANON.

(** The value paired with [c] by the last pair that holds [c]. *)
Definition last_assoc (c : string) (pairs : list (string * string)) : option string :=
  snd <$> List.find (fun p => String.eqb (fst p) c) (rev pairs).

(** A taxonomy whose two entries share a synonym, up to case. *)
Definition shared_synonym_canon : list (string * desc) :=
  [("cash", Desc ["Cash"; "cash and equivalents"] ["petty"]);
   ("bank_indebtedness", Desc ["CASH"] [])].

(* ===================================================================== *)
(** * Facts about the [str] methods *)
(* ===================================================================== *)

Module StrFacts.
Import Str.

Lemma append_nil_r s : s +:+ EmptyString = s.
Proof. induction s as [|c s IH]; simpl; [reflexivity | now rewrite IH]. Qed.

Lemma append_assoc s t u : (s +:+ t) +:+ u = s +:+ (t +:+ u).
Proof. induction s as [|c s IH]; simpl; [reflexivity | now rewrite IH]. Qed.


Lemma is_empty_true s : is_empty s = true -> s = EmptyString.
Proof. now destruct s. Qed.

Section Strip.
Variable p : ascii -> bool.

Lemma rstrip_snoc_true s c :
  p c = true -> rstrip_by p (s +:+ String c EmptyString) = rstrip_by p s.
Proof.
  intros Hc. induction s as [|d s IH]; simpl.
  - now rewrite Hc.
  - now rewrite IH.
Qed.

Lemma rstrip_snoc_false s c :
  p c = false ->
  rstrip_by p (s +:+ String c EmptyString) = s +:+ String c EmptyString.
Proof.
  intros Hc. induction s as [|d s IH]; simpl.
  - now rewrite Hc.
  - rewrite IH. destruct s; reflexivity.
Qed.

Lemma lstrip_snoc s c :
  lstrip_by p (s +:+ String c EmptyString) =
  if is_empty (lstrip_by p s)
  then lstrip_by p (String c EmptyString)
  else lstrip_by p s +:+ String c EmptyString.
Proof.
  induction s as [|d s IH]; simpl.
  - reflexivity.
  - destruct (p d); [exact IH | reflexivity].
Qed.

Lemma strip_cons_true c s : p c = true -> strip_by p (String c s) = strip_by p s.
Proof. intros Hc. unfold strip_by. simpl. now rewrite Hc. Qed.

Lemma strip_snoc_true s c :
  p c = true -> strip_by p (s +:+ String c EmptyString) = strip_by p s.
Proof.
  intros Hc. unfold strip_by. rewrite lstrip_snoc.
  destruct (lstrip_by p s) as [|d t] eqn:E; simpl.
  - now rewrite Hc.
  - change (String d (t +:+ String c EmptyString))
      with (String d t +:+ String c EmptyString).
    now rewrite rstrip_snoc_true.
Qed.

Lemma rstrip_none s : none_of p s = true -> rstrip_by p s = s.
Proof.
  induction s as [|c s IH]; simpl; [reflexivity|].
  intros [Hc Hs]%andb_prop. rewrite (IH Hs).
  apply negb_true_iff in Hc. rewrite Hc. now rewrite andb_false_r.
Qed.

Lemma strip_none s : none_of p s = true -> strip_by p s = s.
Proof.
  intros H. unfold strip_by.
  destruct s as [|c s]; [reflexivity|].
  simpl in H. apply andb_prop in H as [Hc Hs].
  apply negb_true_iff in Hc. simpl lstrip_by. rewrite Hc.
  apply rstrip_none. simpl. now rewrite Hc, Hs.
Qed.

Lemma none_of_app s t : none_of p (s +:+ t) = none_of p s && none_of p t.
Proof.
  induction s as [|c s IH]; simpl; [reflexivity|].
  now rewrite IH, andb_assoc.
Qed.
End Strip.

Lemma none_of_weaken (p q : ascii -> bool) s :
  (forall c, q c = true -> p c = true) -> none_of p s = true -> none_of q s = true.
Proof.
  intros Hpq. induction s as [|c s IH]; simpl; [reflexivity|].
  intros [Hc Hs]%andb_prop. rewrite (IH Hs), andb_true_r.
  apply negb_true_iff. apply negb_true_iff in Hc.
  destruct (q c) eqn:E; [|reflexivity]. apply Hpq in E. congruence.
Qed.

Lemma endswith_app p s : endswith p (s +:+ p) = true.
Proof.
  induction s as [|c s IH]; simpl.
  - destruct p; simpl; [reflexivity|]. now rewrite Ascii.eqb_refl, String.eqb_refl.
  - now rewrite IH, orb_true_r.
Qed.

(** Removing the commas of [a , b] when neither side holds one. *)
Lemma replace_comma_free s :
  none_of (fun c => Ascii.eqb c ",") s = true -> replace "," "" s = s.
Proof.
  unfold replace. induction s as [|c s IH]; simpl; [reflexivity|].
  intros [Hc Hs]%andb_prop. apply negb_true_iff in Hc.
  rewrite Ascii.eqb_sym in Hc. rewrite Hc. simpl.
  now rewrite (IH Hs).
Qed.

Lemma replace_comma_between a b :
  none_of (fun c => Ascii.eqb c ",") a = true ->
  none_of (fun c => Ascii.eqb c ",") b = true ->
  replace "," "" (a +:+ String "," b) = a +:+ b.
Proof.
  intros Ha Hb. unfold replace. induction a as [|c a IH]; simpl.
  - apply (replace_comma_free b Hb).
  - simpl in Ha. apply andb_prop in Ha as [Hc Ha].
    apply negb_true_iff in Hc. rewrite Ascii.eqb_sym in Hc. rewrite Hc. simpl.
    now rewrite (IH Ha).
Qed.

End StrFacts.

(* ===================================================================== *)
(** * Money parsing *)
(* ===================================================================== *)

Module MoneyFacts.
Import Str StrFacts.

Lemma parse_money_eq tok :
  parse_money tok =
  if is_zero_text (remainder tok) then Ok Float.zero
  else (fun v => if wrapped tok then Float.opp v else v)
         <$> of_option ValueError (Float.of_string (remainder tok)).
Proof.
  unfold parse_money, wrapped, remainder, is_zero_text.
  destruct (_ || _); [reflexivity|].
  now destruct (Float.of_string _).
Qed.

Lemma remainder_cons c tok :
  mem_char c "()$ " = true -> remainder (String c tok) = remainder tok.
Proof. intros H. unfold remainder, strip_chars. now rewrite strip_cons_true. Qed.

Lemma remainder_snoc c tok :
  mem_char c "()$ " = true -> remainder (tok +:+ String c "") = remainder tok.
Proof. intros H. unfold remainder, strip_chars. now rewrite strip_snoc_true. Qed.

Lemma strip_cons_keep c s :
  is_space c = false -> strip (String c s) = String c (rstrip_by is_space s).
Proof.
  intros H. unfold strip, strip_by. simpl. rewrite H. simpl.
  now rewrite H, andb_false_r.
Qed.

Lemma wrapped_parens body : wrapped ("(" +:+ body +:+ ")") = true.
Proof.
  unfold wrapped. simpl. rewrite strip_cons_keep by reflexivity.
  rewrite rstrip_snoc_false by reflexivity.
  simpl. change (String "(" (body +:+ ")")) with (String "(" body +:+ ")").
  now rewrite endswith_app.
Qed.

Lemma wrapped_head c s :
  is_space c = false -> Ascii.eqb "(" c = false -> wrapped (String c s) = false.
Proof.
  intros Hs Hc. unfold wrapped. rewrite strip_cons_keep by assumption.
  simpl. now rewrite Hc.
Qed.

Lemma wrapped_space_l tok : wrapped (String " " tok) = wrapped tok.
Proof. unfold wrapped, strip. now rewrite strip_cons_true. Qed.

Lemma wrapped_space_r tok : wrapped (tok +:+ " ") = wrapped tok.
Proof. unfold wrapped, strip. now rewrite strip_snoc_true. Qed.

Lemma plain_head c s :
  plain (String c s) = true -> is_space c = false /\ Ascii.eqb "(" c = false.
Proof.
  unfold plain. simpl. intros [H _]%andb_prop.
  apply negb_true_iff in H. unfold money_punct in H.
  apply orb_false_elim in H as [H1 H2]. split; [assumption|].
  simpl in H2. apply orb_false_elim in H2 as [H2 _].
  now rewrite Ascii.eqb_sym.
Qed.

Lemma plain_strip_chars s :
  none_of (fun c => mem_char c "()$ ") s = true -> strip_chars "()$ " s = s.
Proof. apply strip_none. Qed.

Lemma plain_no_punct s : plain s = true -> none_of (fun c => mem_char c "()$ ") s = true.
Proof.
  apply none_of_weaken. intros c H. unfold money_punct.
  simpl in *. rewrite !orb_false_r in *.
  repeat (apply orb_prop in H as [H|H]); rewrite H, ?orb_true_r; reflexivity.
Qed.

Lemma plain_no_comma s : plain s = true -> none_of (fun c => Ascii.eqb c ",") s = true.
Proof.
  apply none_of_weaken. intros c H. unfold money_punct. simpl.
  rewrite H. now rewrite !orb_true_r.
Qed.

End MoneyFacts.


Section MoneyClaim.
Import Str StrFacts MoneyFacts.

(** C2.  [parse_money] on the four sample tokens gives the floats
    [-1234.56], [2000.0], [0.0] and [0.0].  In general: a token written
    between parentheses parses to the negation of what the text between
    them parses to; a leading dollar sign and a blank on either side do not
    change the result; a thousands-separator comma between two bare
    parts does not change it; and a token whose remainder (stripped, commas
    removed) is empty or a lone dash parses to [0.0]. *)
Theorem parse_money_spec :
  (parse_money "(1,234.56)" = Ok (Prim2SF (-1234.56)%float)
   /\ parse_money "$2,000" = Ok (Prim2SF 2000%float)
   /\ parse_money "-" = Ok (Prim2SF 0%float)
   /\ parse_money "0" = Ok (Prim2SF 0%float))
  /\ (forall body,
        wrapped body = false -> is_zero_text (remainder body) = false ->
        parse_money ("(" +:+ body +:+ ")") = Float.opp <$> parse_money body)
  /\ (forall tok v,
        wrapped tok = true -> is_zero_text (remainder tok) = false ->
        Float.of_string (remainder tok) = Some v ->
        parse_money tok = Ok (Float.opp v))
  /\ (forall body, wrapped body = false -> parse_money ("$" +:+ body) = parse_money body)
  /\ (forall tok, parse_money (" " +:+ tok) = parse_money tok
                  /\ parse_money (tok +:+ " ") = parse_money tok)
  /\ (forall a b,
        plain a = true -> plain b = true -> a <> "" -> b <> "" ->
        parse_money (a +:+ "," +:+ b) = parse_money (a +:+ b))
  /\ (forall tok, is_zero_text (remainder tok) = true -> parse_money tok = Ok Float.zero).
Proof.
  split; [repeat split; vm_compute; reflexivity|].
  split.
  { intros body Hw Hz. rewrite !parse_money_eq.
    rewrite wrapped_parens, Hw. simpl.
    rewrite remainder_cons by reflexivity.
    rewrite remainder_snoc by reflexivity. rewrite Hz.
    now destruct (Float.of_string _). }
  split.
  { intros tok v Hw Hz Hv. rewrite parse_money_eq, Hz, Hv, Hw. reflexivity. }
  split.
  { intros body Hw. rewrite !parse_money_eq. simpl.
    rewrite remainder_cons by reflexivity.
    rewrite wrapped_head by reflexivity. now rewrite Hw. }
  split.
  { intros tok. rewrite !parse_money_eq. simpl.
    rewrite remainder_cons, remainder_snoc by reflexivity.
    now rewrite wrapped_space_l, wrapped_space_r. }
  split.
  { intros a b Ha Hb Hna Hnb. rewrite !parse_money_eq.
    destruct a as [|c a]; [congruence|].
    destruct (plain_head _ _ Ha) as [Hsp Hpar].
    simpl. rewrite !wrapped_head by assumption.
    assert (R1 : remainder (String c (a +:+ String "," b)) = String c a +:+ b).
    { unfold remainder. rewrite plain_strip_chars.
      - apply (replace_comma_between (String c a) b); now apply plain_no_comma.
      - change (String c (a +:+ String "," b)) with (String c a +:+ String "," b).
        rewrite none_of_app, (plain_no_punct _ Ha). cbn [none_of].
        now rewrite (plain_no_punct _ Hb). }
    assert (R2 : remainder (String c (a +:+ b)) = String c a +:+ b).
    { unfold remainder. rewrite plain_strip_chars.
      - apply replace_comma_free.
        change (String c (a +:+ b)) with (String c a +:+ b).
        rewrite none_of_app. now rewrite !plain_no_comma.
      - change (String c (a +:+ b)) with (String c a +:+ b).
        rewrite none_of_app. now rewrite !plain_no_punct. }
    now rewrite R1, R2. }
  intros tok Hz. now rewrite parse_money_eq, Hz.
Qed.

Lemma parse_money_spec_witness :
  parse_money "(12.5)" = Float.opp <$> parse_money "12.5"
  /\ parse_money "(7)" = Ok (Float.opp (Float.of_decimal false 7 0))
  /\ parse_money "$12.5" = parse_money "12.5"
  /\ parse_money "1,234" = parse_money "1234"
  /\ parse_money "(-)" = Ok Float.zero.
Proof.
  destruct parse_money_spec as (_ & L1 & L2 & L3 & _ & L5 & L6).
  split; [apply (L1 "12.5"); reflexivity|].
  split; [apply (L2 "(7)"); reflexivity|].
  split; [apply (L3 "12.5"); reflexivity|].
  split; [apply (L5 "1" "234"); [reflexivity | reflexivity | discriminate | discriminate]|].
  apply (L6 "(-)"); reflexivity.
Defined.
End MoneyClaim.

(* ===================================================================== *)
(** * The canonical matcher *)
(* ===================================================================== *)

Section MatcherFacts.
Variable CANON : list (string * desc).
Variable re_search : string -> string -> bool.
Variable extractOne : string -> list string -> option (string * Float.float).

Lemma find_first_split {A} (f : A -> bool) (l : list A) :
  existsb f l = true ->
  exists pre x post,
    l = (pre ++ x :: post)%list /\ forallb (fun y => negb (f y)) pre = true
    /\ f x = true /\ List.find f l = Some x.
Proof.
  induction l as [|a l IH]; simpl; [discriminate|].
  destruct (f a) eqn:Fa.
  - intros _. exists [], a, l. now repeat split.
  - simpl. intros H. destruct (IH H) as (pre & x & post & -> & Hpre & Hx & Hfind).
    exists (a :: pre), x, post. simpl. rewrite Fa. now repeat split.
Qed.

Lemma find_none_forall {A} (f : A -> bool) (l : list A) :
  List.find f l = None <-> existsb f l = false.
Proof.
  induction l as [|a l IH]; simpl; [tauto|].
  destruct (f a); simpl; [split; discriminate | exact IH].
Qed.

(** C3.  When some pattern of some taxonomy entry is found in the
    lower-cased label, [match_canonical] returns the key of the first entry
    of the taxonomy, in iteration order, that has such a pattern, whatever
    the fuzzy matcher would answer. *)
Theorem match_canonical_regex_first (label : string) :
  existsb (entry_matches re_search (Str.lower label)) CANON = true ->
  exists pre entry post,
    CANON = (pre ++ entry :: post)%list
    /\ forallb (fun e => negb (entry_matches re_search (Str.lower label) e)) pre = true
    /\ entry_matches re_search (Str.lower label) entry = true
    /\ match_canonical CANON re_search extractOne label = Some (fst entry).
Proof.
  intros H. destruct (find_first_split _ _ H) as (pre & x & post & E & Hpre & Hx & Hfind).
  exists pre, x, post. repeat split; try assumption.
  unfold match_canonical, regex_pass. now rewrite Hfind.
Qed.

End MatcherFacts.

Lemma match_canonical_regex_first_witness :
  fuzzy_pass sample_canon exact_extract "cash in bank" = Some "bank_indebtedness"
  /\ exists pre entry post,
       sample_canon = (pre ++ entry :: post)%list
       /\ forallb (fun e => negb (entry_matches literal_search (Str.lower "Cash in Bank") e)) pre = true
       /\ entry_matches literal_search (Str.lower "Cash in Bank") entry = true
       /\ match_canonical sample_canon literal_search exact_extract "Cash in Bank"
          = Some (fst entry).
Proof.
  split; [vm_compute; reflexivity|].
  apply (match_canonical_regex_first sample_canon literal_search exact_extract "Cash in Bank").
  vm_compute; reflexivity.
Defined.

(* ===================================================================== *)
(** * Floats *)
(* ===================================================================== *)

Module FloatFacts.

Lemma compare_cont_antisym (p q : positive) :
  Pos.compare_cont Eq q p = CompOpp (Pos.compare_cont Eq p q).
Proof. symmetry. apply (Pos.compare_cont_antisym p q Eq). Qed.

(** [x < y] rules out [y <= x]. *)
Lemma ltb_not_leb (x y : Float.float) :
  Float.ltb x y = true -> Float.leb y x = false.
Proof.
  unfold Float.ltb, Float.leb, SFltb, SFleb.
  destruct x as [sx|sx| |sx mx ex], y as [sy|sy| |sy my ey]; simpl;
    try discriminate; try (destruct sx; discriminate);
    try (destruct sy; discriminate);
    try (destruct sx, sy; simpl; try discriminate; reflexivity).
  destruct sx, sy; simpl; try discriminate; try reflexivity;
    rewrite (Z.compare_antisym ex ey);
    destruct (ex ?= ey)%Z; simpl; try discriminate; try reflexivity;
    rewrite (compare_cont_antisym mx my);
    destruct (Pos.compare_cont Eq mx my); simpl; try discriminate; reflexivity.
Qed.

(** [x == y] on finite floats: both are zeros, or they are the same float. *)
Lemma eqb_finite (x y : Float.float) :
  Float.eqb x y = true -> Float.is_finite x = true ->
  (exists sx sy, x = S754_zero sx /\ y = S754_zero sy) \/ (x = y /\ exists s m e, x = S754_finite s m e).
Proof.
  unfold Float.eqb, SFeqb.
  destruct x as [sx|sx| |sx mx ex], y as [sy|sy| |sy my ey]; simpl;
    try discriminate; try (destruct sx; discriminate);
    try (destruct sy; discriminate).
  - intros _ _. left. eauto.
  - intros H _. right.
    destruct sx, sy; try discriminate;
      destruct (ex ?= ey)%Z eqn:E; try discriminate;
      apply Z.compare_eq in E; subst ey;
      destruct (Pos.compare_cont Eq mx my) eqn:E2; try discriminate;
      apply (Pos.compare_eq mx my) in E2; subst my; split; eauto.
Qed.

(** [x - x] is [+0.0] for a finite, non-zero [x]. *)
Lemma sub_diag_finite s m e :
  Float.sub (S754_finite s m e) (S754_finite s m e) = S754_zero false.
Proof.
  unfold Float.sub, SFsub. cbv zeta. rewrite Z.sub_diag. reflexivity.
Qed.

End FloatFacts.

(* ===================================================================== *)
(** * Builtins on sequences *)
(* ===================================================================== *)

Lemma fold_max_spec (r : list Z) (x : Z) :
  let m := fold_left Z.max r x in
  (m = x \/ In m r) /\ x <= m /\ forall y, In y r -> y <= m.
Proof.
  revert x. induction r as [|a r IH]; intros x; simpl.
  - repeat split; [now left | lia | tauto].
  - destruct (IH (Z.max x a)) as (Hin & Hle & Hall). repeat split.
    + destruct Hin as [E|Hin]; [|now right; right].
      rewrite E. destruct (Z.max_spec x a) as [[_ ->]|[_ ->]]; [right; now left | now left].
    + lia.
    + intros y [<-|Hy]; [lia | now apply Hall].
Qed.

Lemma fold_min_spec (r : list Z) (x : Z) :
  let m := fold_left Z.min r x in
  (m = x \/ In m r) /\ m <= x /\ forall y, In y r -> m <= y.
Proof.
  revert x. induction r as [|a r IH]; intros x; simpl.
  - repeat split; [now left | lia | tauto].
  - destruct (IH (Z.min x a)) as (Hin & Hle & Hall). repeat split.
    + destruct Hin as [E|Hin]; [|now right; right].
      rewrite E. destruct (Z.min_spec x a) as [[_ ->]|[_ ->]]; [now left | right; now left].
    + lia.
    + intros y [<-|Hy]; [lia | now apply Hall].
Qed.

Lemma py_max_spec (years : list Z) :
  years <> [] -> exists hi, py_max years = Ok hi /\ is_max hi years.
Proof.
  destruct years as [|x r]; [congruence|]. intros _.
  exists (fold_left Z.max r x). split; [reflexivity|].
  destruct (fold_max_spec r x) as (Hin & Hle & Hall). split.
  - destruct Hin as [->|Hin]; [now left | now right].
  - intros y [<-|Hy]; [exact Hle | now apply Hall].
Qed.

Lemma py_min_spec (years : list Z) :
  years <> [] -> exists lo, py_min years = Ok lo /\ is_min lo years.
Proof.
  destruct years as [|x r]; [congruence|]. intros _.
  exists (fold_left Z.min r x). split; [reflexivity|].
  destruct (fold_min_spec r x) as (Hin & Hle & Hall). split.
  - destruct Hin as [->|Hin]; [now left | now right].
  - intros y [<-|Hy]; [exact Hle | now apply Hall].
Qed.

Lemma is_max_unique a b l : is_max a l -> is_max b l -> a = b.
Proof. intros [Ha Ha'] [Hb Hb']. apply Ha' in Hb. apply Hb' in Ha. lia. Qed.

Lemma is_min_unique a b l : is_min a l -> is_min b l -> a = b.
Proof. intros [Ha Ha'] [Hb Hb']. apply Ha' in Hb. apply Hb' in Ha. lia. Qed.

Lemma last_two {A} (l : list A) :
  (2 <= length l)%nat -> exists front a b, l = (front ++ [a; b])%list.
Proof.
  intros H. destruct l as [|x l] using rev_ind; [simpl in H; lia|].
  clear IHl. destruct l as [|y l _] using rev_ind.
  - simpl in H. lia.
  - exists l, y, x. now rewrite <- app_assoc.
Qed.

Lemma py_index_from_end {A} (l : list A) (k : nat) (x : A) :
  (0 < k <= length l)%nat -> l !! (length l - k)%nat = Some x ->
  py_index l (- Z.of_nat k) = Ok x.
Proof.
  intros Hk Hx. unfold py_index.
  destruct (Z.ltb_spec (- Z.of_nat k) 0); [|lia].
  destruct (Z.leb_spec 0 (- Z.of_nat k + Z.of_nat (length l))); [|lia].
  destruct (Z.ltb_spec (- Z.of_nat k + Z.of_nat (length l)) (Z.of_nat (length l))); [|lia].
  simpl. replace (Z.to_nat (- Z.of_nat k + Z.of_nat (length l))) with (length l - k)%nat by lia.
  now rewrite Hx.
Qed.

Lemma py_index_last_two {A} (front : list A) (a b : A) :
  py_index (front ++ [a; b]) (-2) = Ok a /\ py_index (front ++ [a; b]) (-1) = Ok b.
Proof.
  split.
  - apply (py_index_from_end _ 2); rewrite length_app; simpl; [lia|].
    rewrite lookup_app_r by lia.
    now replace (length front + 2 - 2 - length front)%nat with 0%nat by lia.
  - apply (py_index_from_end _ 1); rewrite length_app; simpl; [lia|].
    rewrite lookup_app_r by lia.
    now replace (length front + 2 - 1 - length front)%nat with 1%nat by lia.
Qed.

Lemma py_index_last {A} (front : list A) (b : A) :
  py_index (front ++ [b]) (-1) = Ok b.
Proof.
  apply (py_index_from_end _ 1); rewrite length_app; simpl; [lia|].
  rewrite lookup_app_r by lia.
  now replace (length front + 1 - 1 - length front)%nat with 0%nat by lia.
Qed.

Lemma write_ok (y : Z) (canon : string) (v : Float.float) (raw : buckets) flat :
  raw !! y = Some flat -> write y canon v raw = Ok (<[y := <[canon := v]> flat]> raw).
Proof. intros H. unfold write. now rewrite H. Qed.

(* ===================================================================== *)
(** * The value accumulator *)
(* ===================================================================== *)

Section AccumulatorFacts.
Variable CANON : list (string * desc).
Variable re_search : string -> string -> bool.
Variable extractOne : string -> list string -> option (string * Float.float).

Local Abbreviation resolve0 := (resolve CANON re_search extractOne).
Local Abbreviation process_line0 := (process_line CANON re_search extractOne).

Lemma nums_of_blank line : Str.strip line = EmptyString -> nums_of line = [].
Proof. unfold nums_of. now intros ->. Qed.

Lemma values_of_no_nums line : nums_of line = [] -> values_of line = Ok [].
Proof. unfold values_of. now intros ->. Qed.

Lemma truthy_Some s : s <> EmptyString -> truthy (Some s) = true.
Proof. now destruct s. Qed.

(** The loop body once the line has passed the guards. *)
Lemma process_line_resolved years ctx (raw : buckets) line canon values :
  label_part_of line <> EmptyString ->
  resolve0 (label_part_of line) = Some canon ->
  canon <> EmptyString ->
  values_of line = Ok values ->
  values <> [] ->
  process_line0 years ctx raw line =
  if (2 <=? Z.of_nat (length values)) && (2 <=? Z.of_nat (length years)) then
    v_curr ← py_index values (-2);
    v_prev ← py_index values (-1);
    hi ← py_max years;
    raw ← write hi canon v_curr raw;
    lo ← py_min years;
    write lo canon v_prev raw
  else
    v ← py_index values (-1);
    write ctx canon v raw.
Proof.
  intros Hlab Hres Hcanon Hvals Hne. unfold process_line.
  destruct (Str.is_empty (Str.strip line)) eqn:E1.
  { apply StrFacts.is_empty_true in E1. apply nums_of_blank in E1.
    rewrite (values_of_no_nums _ E1) in Hvals. congruence. }
  destruct (is_nil (nums_of line)) eqn:E2.
  { destruct (nums_of line) eqn:E; [|discriminate].
    rewrite (values_of_no_nums _ E) in Hvals. congruence. }
  destruct (Str.is_empty (label_part_of line)) eqn:E3.
  { apply StrFacts.is_empty_true in E3. congruence. }
  rewrite Hres, (truthy_Some _ Hcanon), Hvals. simpl.
  destruct values; [congruence | reflexivity].
Qed.

(** C1, as the code has it.  For a line whose label resolves to a
    canonical key and whose parsed values number at least two, in a document
    with two distinct years, the last two parsed values are taken as
    (current, prior): the one before last is written under the largest year
    and the last under the smallest, nothing else changes.  With exactly two
    values these are the first and the second of the line. *)
Theorem two_column_split years ctx (raw : buckets) line canon values y1 y2 :
  label_part_of line <> EmptyString ->
  resolve0 (label_part_of line) = Some canon ->
  canon <> EmptyString ->
  values_of line = Ok values ->
  (2 <= length values)%nat ->
  In y1 years -> In y2 years -> y1 <> y2 ->
  (forall y, In y years -> is_Some (raw !! y)) ->
  exists front v_curr v_prev hi lo raw',
    values = (front ++ [v_curr; v_prev])%list
    /\ is_max hi years /\ is_min lo years /\ hi <> lo
    /\ process_line0 years ctx raw line = Ok raw'
    /\ raw' !! hi = (insert canon v_curr <$> raw !! hi)
    /\ raw' !! lo = (insert canon v_prev <$> raw !! lo)
    /\ (forall y, y <> hi -> y <> lo -> raw' !! y = raw !! y)
    /\ (forall v1 v2, values = [v1; v2] -> v_curr = v1 /\ v_prev = v2).
Proof.
  intros Hlab Hres Hcanon Hvals Hlen Hy1 Hy2 Hne Hraw.
  destruct (last_two values Hlen) as (front & a & b & ->).
  assert (Hyears : years <> []) by (intros ->; destruct Hy1).
  destruct (py_max_spec years Hyears) as (hi & Ehi & Hhi).
  destruct (py_min_spec years Hyears) as (lo & Elo & Hlo).
  assert (Hhilo : hi <> lo).
  { destruct Hhi as [_ Hhi], Hlo as [_ Hlo].
    pose proof (Hhi _ Hy1). pose proof (Hhi _ Hy2).
    pose proof (Hlo _ Hy1). pose proof (Hlo _ Hy2). lia. }
  destruct (Hraw hi (proj1 Hhi)) as [fhi Efhi].
  destruct (Hraw lo (proj1 Hlo)) as [flo Eflo].
  exists front, a, b, hi, lo,
    (<[lo := <[canon := b]> flo]> (<[hi := <[canon := a]> fhi]> raw)).
  split; [reflexivity|]. split; [exact Hhi|]. split; [exact Hlo|].
  split; [exact Hhilo|]. split.
  { rewrite (process_line_resolved years ctx raw line canon (front ++ [a; b]))
      by (try assumption; now destruct front).
    assert (L2 : (2 <=? Z.of_nat (length years)) = true).
    { apply Z.leb_le. destruct years as [|u [|w r]]; simpl in *; lia. }
    assert (L1 : (2 <=? Z.of_nat (length (front ++ [a; b]))) = true)
      by (apply Z.leb_le; lia).
    rewrite L1, L2. simpl.
    destruct (py_index_last_two front a b) as [-> ->]. simpl.
    rewrite Ehi. simpl. rewrite (write_ok _ _ _ _ _ Efhi). simpl.
    rewrite Elo. simpl. apply write_ok.
    now rewrite lookup_insert_ne. }
  split.
  { rewrite lookup_insert_ne by congruence. rewrite lookup_insert_eq.
    now rewrite Efhi. }
  split.
  { rewrite lookup_insert_eq. now rewrite Eflo. }
  split.
  { intros y H1 H2. now rewrite !lookup_insert_ne by congruence. }
  intros v1 v2 E. destruct front as [|x front].
  - now inversion E.
  - apply (f_equal (@length _)) in E. simpl in E. rewrite length_app in E.
    simpl in E. lia.
Qed.

(** C4.  A line that carries numeric tokens, whose normalised label is
    found by no taxonomy pattern, scores below the threshold on the fuzzy
    pass and holds no entry of the change-in-X table, leaves the year
    buckets as they are and raises nothing. *)
Theorem unmatched_line_skipped years ctx (raw : buckets) line :
  nums_of line <> [] ->
  existsb (entry_matches re_search (Str.lower (label_part_of line))) CANON = false ->
  fuzzy_below CANON extractOne (Str.lower (label_part_of line)) ->
  existsb (fun '(syn, _) => Str.contains syn (Str.lower (label_part_of line))) change_map
    = false ->
  process_line0 years ctx raw line = Ok raw.
Proof.
  intros Hnums Hre Hfz Hch. unfold process_line.
  destruct (Str.is_empty (Str.strip line)); [reflexivity|].
  destruct (is_nil (nums_of line)); [reflexivity|].
  destruct (Str.is_empty (label_part_of line)); [reflexivity|].
  assert (Hres : resolve0 (label_part_of line) = None).
  { unfold resolve, match_canonical, regex_pass.
    apply find_none_forall in Hre. rewrite Hre. simpl.
    assert (Hfuzzy : fuzzy_pass CANON extractOne (Str.lower (label_part_of line)) = None).
    { unfold fuzzy_pass. unfold fuzzy_below in Hfz.
      destruct (extractOne _ _) as [[choice score]|]; [|reflexivity].
      now rewrite (FloatFacts.ltb_not_leb _ _ Hfz). }
    rewrite Hfuzzy. simpl. unfold change_fallback.
    apply find_none_forall in Hch. now rewrite Hch. }
  now rewrite Hres.
Qed.

End AccumulatorFacts.

Lemma is_max_2023 : is_max 2023 [2022; 2023].
Proof. split; [simpl; tauto | simpl; intros y [<-|[<-|[]]]; lia]. Qed.

Lemma is_min_2022 : is_min 2022 [2022; 2023].
Proof. split; [simpl; tauto | simpl; intros y [<-|[<-|[]]]; lia]. Qed.

Lemma empty_2022_2023_keys y : In y [2022; 2023] -> is_Some (empty_2022_2023 !! y).
Proof. intros [<-|[<-|[]]]; vm_compute; eauto. Qed.

Lemma two_column_split_witness :
  exists raw',
    process_line sample_canon literal_search exact_extract [2022; 2023] 2023
                 empty_2022_2023 "Cash $ 10,000 8,000" = Ok raw'
    /\ raw' !! 2023 = Some {[ "cash" := Prim2SF 10000%float ]}
    /\ raw' !! 2022 = Some {[ "cash" := Prim2SF 8000%float ]}.
Proof.
  destruct (two_column_split sample_canon literal_search exact_extract
              [2022; 2023] 2023 empty_2022_2023 "Cash $ 10,000 8,000" "cash"
              [Prim2SF 10000%float; Prim2SF 8000%float] 2022 2023)
    as (front & vc & vp & hi & lo & raw' & Hv & Hhi & Hlo & _ & Hrun & H1 & H2 & _ & Hfirst).
  - vm_compute; discriminate.
  - vm_compute; reflexivity.
  - discriminate.
  - vm_compute; reflexivity.
  - simpl; lia.
  - simpl; tauto.
  - simpl; tauto.
  - lia.
  - exact empty_2022_2023_keys.
  - destruct (Hfirst _ _ eq_refl) as [-> ->].
    rewrite (is_max_unique _ _ _ Hhi is_max_2023) in H1.
    rewrite (is_min_unique _ _ _ Hlo is_min_2022) in H2.
    exists raw'. split; [exact Hrun|]. split; [exact H1 | exact H2].
Defined.

(** C1, as stated, fails on the line [Inventories 1 2 3] of a document with
    the years 2022 and 2023: its values are 1.0, 2.0 and 3.0, and the code
    writes 2.0 under 2023 and 3.0 under 2022, not the first two. *)
Lemma first_two_rule_counterexample : ~ first_two_rule.
Proof.
  intros H.
  destruct (H [] literal_search exact_extract [2022; 2023] 2023 empty_2022_2023
              "Inventories 1 2 3" "change_inventories"
              (Prim2SF 1%float) (Prim2SF 2%float) [Prim2SF 3%float] 2023 2022)
    as (raw' & Hrun & H1 & _).
  - vm_compute; discriminate.
  - vm_compute; reflexivity.
  - discriminate.
  - vm_compute; reflexivity.
  - exact is_max_2023.
  - exact is_min_2022.
  - lia.
  - exact empty_2022_2023_keys.
  - assert (E : process_line [] literal_search exact_extract [2022; 2023] 2023
                  empty_2022_2023 "Inventories 1 2 3"
                = Ok {[ 2022 := {[ "change_inventories" := Prim2SF 3%float ]};
                        2023 := {[ "change_inventories" := Prim2SF 2%float ]} ]})
      by (vm_compute; reflexivity).
    rewrite E in Hrun. injection Hrun as <-.
    apply (f_equal (fun o => o ≫= (fun m : gmap string Float.float => m !! "change_inventories"))) in H1.
    vm_compute in H1. discriminate.
Qed.

Lemma unmatched_line_skipped_witness :
  process_line sample_canon literal_search exact_extract [2022; 2023] 2023
               empty_2022_2023 "Goodwill impairment 5 6" = Ok empty_2022_2023.
Proof.
  apply (unmatched_line_skipped sample_canon literal_search exact_extract).
  - vm_compute; discriminate.
  - vm_compute; reflexivity.
  - vm_compute; exact I.
  - vm_compute; reflexivity.
Defined.

(* ===================================================================== *)
(** * Company detection *)
(* ===================================================================== *)

Section CompanyFacts.
Variable company_markers : list string.

Local Abbreviation candidate0 := (candidate company_markers).

Lemma company_fold_candidate (lines : list string) (P : string -> Prop) company :
  (forall line, In line lines ->
     has_marker company_markers (Str.strip line) = true ->
     5 < Str.len (Str.strip line) -> P (Str.strip line)) ->
  (forall c, company = Some c -> P c) ->
  forall c, fold_left (company_step company_markers) lines company = Some c -> P c.
Proof.
  revert company. induction lines as [|l lines IH]; intros company Hl Hc c; simpl.
  - apply Hc.
  - apply IH.
    + intros line Hin. apply Hl. now right.
    + intros c'. unfold company_step.
      destruct (has_marker _ _) eqn:Hm; simpl; [|apply Hc].
      destruct (5 <? Str.len (Str.strip l)) eqn:H5; [|apply Hc].
      apply Z.ltb_lt in H5.
      destruct company as [co|].
      * destruct (Str.len co <? _); [|apply Hc].
        intros [= <-]. apply Hl; [now left | assumption | assumption].
      * intros [= <-]. apply Hl; [now left | assumption | assumption].
Qed.

Lemma extract_company_eq text c p :
  extract_company_and_period company_markers text = Ok (c, p) ->
  c = fold_left (company_step company_markers) (Str.splitlines text) None.
Proof.
  unfold extract_company_and_period.
  destruct (Re.date_search MONTHS text) as [[[mo da] ye]|]; [|now intros [= <- _]].
  destruct (list_index _ _); simpl; [|discriminate].
  destruct (make_date _ _ _); simpl; [|discriminate].
  now intros [= <- _].
Qed.

(** C9.  The company [extract_company_and_period] returns is the stripped
    form of a marker line of more than five characters; when every marker
    line has five characters or fewer once stripped, no company is
    returned. *)
Theorem company_longer_than_five (text : string) :
  (forall c p,
     extract_company_and_period company_markers text = Ok (Some c, p) ->
     candidate0 text c)
  /\ ((forall line, In line (Str.splitlines text) ->
         has_marker company_markers (Str.strip line) = true ->
         Str.len (Str.strip line) <= 5) ->
      forall c p,
        extract_company_and_period company_markers text = Ok (c, p) -> c = None).
Proof.
  assert (H : forall c p,
             extract_company_and_period company_markers text = Ok (Some c, p) ->
             candidate0 text c).
  { intros c p E. apply extract_company_eq in E. symmetry in E. revert c E.
    apply company_fold_candidate.
    - intros line Hin Hm H5. exists line. now repeat split.
    - discriminate. }
  split; [exact H|].
  intros Hshort [c|] p E; [|reflexivity].
  destruct (H c p E) as (line & Hin & -> & Hm & H5).
  specialize (Hshort line Hin Hm). lia.
Qed.

End CompanyFacts.

Lemma company_longer_than_five_witness :
  extract_company_and_period ["Inc"; "Ltd"]
    ("Acme Widgets Ltd" +:+ String (ascii_of_N 10) " Inc. ")
  = Ok (Some "Acme Widgets Ltd", None)
  /\ candidate ["Inc"; "Ltd"]
       ("Acme Widgets Ltd" +:+ String (ascii_of_N 10) " Inc. ") "Acme Widgets Ltd"
  /\ extract_company_and_period ["Inc"; "Ltd"] " Inc. " = Ok (None, None).
Proof.
  split; [vm_compute; reflexivity|]. split.
  - apply (proj1 (company_longer_than_five ["Inc"; "Ltd"] _) _ None).
    vm_compute; reflexivity.
  - assert (E : exists c, extract_company_and_period ["Inc"; "Ltd"] " Inc. " = Ok (c, None))
      by (eexists; vm_compute; reflexivity).
    destruct E as [c E].
    rewrite (proj2 (company_longer_than_five ["Inc"; "Ltd"] " Inc. ")
               (fun line Hin Hm => ltac:(
                  vm_compute in Hin; destruct Hin as [<-|[]]; vm_compute; discriminate))
               c None E) in E.
    exact E.
Defined.

(* ===================================================================== *)
(** * Diagnostics *)
(* ===================================================================== *)

Section DiagnosticsFacts.
Variable float_repr : Float.float -> string.

Local Infix "+." := Float.add (at level 50, left associativity).
Local Infix "-." := Float.sub (at level 50, left associativity).

Lemma amount_cons k path j :
  amount (k :: path) j = (j' ← item k j; amount path j').
Proof. reflexivity. Qed.

Lemma bind_Ok {A B} (m : result A) (f : A -> result B) b :
  m ≫= f = Ok b -> exists a, m = Ok a /\ f a = Ok b.
Proof. destruct m as [a|e]; simpl; [eauto | discriminate]. Qed.

(** Reading [j[k][...]] from the root is reading [...] from [j[k]]. *)
Lemma amount_under k path j x :
  amount (k :: path) j = Ok x -> exists j', item k j = Ok j' /\ amount path j' = Ok x.
Proof. rewrite amount_cons. apply bind_Ok. Qed.

(** The difference of two finite floats that compare equal is a zero. *)
Lemma sub_equal_finite (x y : Float.float) :
  Float.eqb x y = true -> Float.is_finite x = true ->
  exists s, x -. y = S754_zero s.
Proof.
  intros He Hf. destruct (FloatFacts.eqb_finite x y He Hf)
    as [(sx & sy & -> & ->)|(<- & s & m & e & ->)].
  - destruct sx, sy; simpl; eauto.
  - exists false. apply FloatFacts.sub_diag_finite.
Qed.

Lemma zero_no_excess s :
  Float.eqb (Float.round2 (S754_zero s)) Float.zero = true
  /\ exceeds (Float.round2 (S754_zero s)) = false.
Proof. destruct s; split; reflexivity. Qed.

Lemma checks_dict (c1 c2 c3 c4 : Float.float) :
  dict_set "ibt_vs_rev_minus_exp" c4
    (dict_set "cash_bridge" c3
      (dict_set "retained_earnings_recon" c2
        (dict_set "balance_sheet_identity" c1 [])))
  = [("balance_sheet_identity", c1); ("retained_earnings_recon", c2);
     ("cash_bridge", c3); ("ibt_vs_rev_minus_exp", c4)].
Proof. reflexivity. Qed.

Lemma warnings_of_four (c1 c2 c3 c4 : Float.float) k1 k2 k3 k4 :
  warnings_of float_repr [(k1, c1); (k2, c2); (k3, c3); (k4, c4)]
  = exceeding_warnings float_repr [(k1, c1); (k2, c2); (k3, c3); (k4, c4)].
Proof.
  unfold warnings_of, exceeding_warnings. simpl.
  destruct (exceeds c1), (exceeds c2), (exceeds c3), (exceeds c4); reflexivity.
Qed.

Ltac under H :=
  let j := fresh "j" in let Hj := fresh "Hj" in
  apply amount_under in H as (j & Hj & H).

Ltac same_item :=
  repeat match goal with
  | H1 : item ?k ?p = Ok ?a, H2 : item ?k ?p = Ok ?b |- _ =>
      rewrite H1 in H2; injection H2 as <-
  end.

(** C6, as the code has it.  For a payload whose amounts can be read, the
    four checks are the rounded residuals of the four identities, and the
    warnings are, in check order, exactly the strings
    [<check_name> mismatch: <value>] of the checks whose absolute value
    exceeds 1.0.  When [total_assets] is finite and compares equal to
    current liabilities plus loan payable plus shareholders' equity, the
    [balance_sheet_identity] residual compares equal to 0.0 and no warning
    is issued for it. *)
Theorem diagnostics_spec (payload : json)
        (A LQ LP EQ beg ni div end_ cb inc ce rev exp ibt : Float.float) :
  amount ["balance_sheet"; "assets"; "total_assets"] payload = Ok A ->
  amount ["balance_sheet"; "liabilities_and_equity"; "current_liabilities"; "total"]
         payload = Ok LQ ->
  amount ["balance_sheet"; "liabilities_and_equity"; "loan_payable"] payload = Ok LP ->
  amount ["balance_sheet"; "liabilities_and_equity"; "shareholders_equity"; "total"]
         payload = Ok EQ ->
  amount ["income_statement"; "retained_earnings_rollforward"; "beginning"] payload
    = Ok beg ->
  amount ["income_statement"; "net_income"] payload = Ok ni ->
  amount ["income_statement"; "retained_earnings_rollforward"; "dividends"] payload
    = Ok div ->
  amount ["income_statement"; "retained_earnings_rollforward"; "end"] payload = Ok end_ ->
  amount ["cash_flows"; "cash_beginning"] payload = Ok cb ->
  amount ["cash_flows"; "increase_in_cash"] payload = Ok inc ->
  amount ["cash_flows"; "cash_end"] payload = Ok ce ->
  amount ["income_statement"; "revenue"] payload = Ok rev ->
  amount ["income_statement"; "expenses"; "total"] payload = Ok exp ->
  amount ["income_statement"; "income_before_income_taxes"] payload = Ok ibt ->
  let c1 := Float.round2 (A -. (LQ +. LP +. EQ)) in
  let c2 := Float.round2 ((beg +. ni +. div) -. end_) in
  let c3 := Float.round2 ((cb +. inc) -. ce) in
  let c4 := Float.round2 ((rev -. exp) -. ibt) in
  let checks :=
    [("balance_sheet_identity", c1); ("retained_earnings_recon", c2);
     ("cash_bridge", c3); ("ibt_vs_rev_minus_exp", c4)] in
  diagnostics float_repr payload =
    Ok (JObj [("checks", JObj (map (fun '(k, v) => (k, JFloat v)) checks));
              ("warnings", JArr (map JStr (exceeding_warnings float_repr checks)))])
  /\ (Float.is_finite A = true ->
      Float.eqb A (LQ +. LP +. EQ) = true ->
      Float.eqb c1 Float.zero = true
      /\ exceeds c1 = false
      /\ ~ In (warning float_repr "balance_sheet_identity" c1)
              (exceeding_warnings float_repr checks)).
Proof.
  intros HA HLQ HLP HEQ Hbeg Hni Hdiv Hend Hcb Hinc Hce Hrev Hexp Hibt c1 c2 c3 c4 checks.
  split.
  - under HA. under HLQ. under HLP. under HEQ. under Hbeg. under Hni. under Hdiv.
    under Hend. under Hcb. under Hinc. under Hce. under Hrev. under Hexp. under Hibt.
    same_item.
    unfold diagnostics, checks_of.
    repeat match goal with H : item _ payload = Ok _ |- _ => rewrite H; clear H end.
    cbn [mbind result_bind].
    rewrite HA, HLQ, HLP, HEQ, Hbeg, Hni, Hdiv, Hend, Hcb, Hinc, Hce, Hrev, Hexp, Hibt.
    cbn [mbind result_bind]. rewrite checks_dict.
    cbn [mbind result_bind]. now rewrite warnings_of_four.
  - intros Hfin Heq.
    destruct (sub_equal_finite _ _ Heq Hfin) as [s Hs].
    assert (E1 : c1 = Float.round2 (S754_zero s)) by (unfold c1; now rewrite Hs).
    destruct (zero_no_excess s) as [Hz Hx]. rewrite <- E1 in Hz, Hx.
    split; [exact Hz|]. split; [exact Hx|].
    unfold exceeding_warnings, checks. simpl. rewrite Hx. simpl.
    unfold warning.
    destruct (exceeds c2), (exceeds c3), (exceeds c4); simpl;
      intros H; repeat (destruct H as [H|H]; [discriminate H|]); exact H.
Qed.

(** The value [diagnostics] returns, for a payload whose amounts can be
    read. *)
Lemma diagnostics_value (payload : json)
        (A LQ LP EQ beg ni div end_ cb inc ce rev exp ibt : Float.float) :
  amount ["balance_sheet"; "assets"; "total_assets"] payload = Ok A ->
  amount ["balance_sheet"; "liabilities_and_equity"; "current_liabilities"; "total"]
         payload = Ok LQ ->
  amount ["balance_sheet"; "liabilities_and_equity"; "loan_payable"] payload = Ok LP ->
  amount ["balance_sheet"; "liabilities_and_equity"; "shareholders_equity"; "total"]
         payload = Ok EQ ->
  amount ["income_statement"; "retained_earnings_rollforward"; "beginning"] payload
    = Ok beg ->
  amount ["income_statement"; "net_income"] payload = Ok ni ->
  amount ["income_statement"; "retained_earnings_rollforward"; "dividends"] payload
    = Ok div ->
  amount ["income_statement"; "retained_earnings_rollforward"; "end"] payload = Ok end_ ->
  amount ["cash_flows"; "cash_beginning"] payload = Ok cb ->
  amount ["cash_flows"; "increase_in_cash"] payload = Ok inc ->
  amount ["cash_flows"; "cash_end"] payload = Ok ce ->
  amount ["income_statement"; "revenue"] payload = Ok rev ->
  amount ["income_statement"; "expenses"; "total"] payload = Ok exp ->
  amount ["income_statement"; "income_before_income_taxes"] payload = Ok ibt ->
  let c1 := Float.round2 (A -. (LQ +. LP +. EQ)) in
  let c2 := Float.round2 ((beg +. ni +. div) -. end_) in
  let c3 := Float.round2 ((cb +. inc) -. ce) in
  let c4 := Float.round2 ((rev -. exp) -. ibt) in
  let checks :=
    [("balance_sheet_identity", c1); ("retained_earnings_recon", c2);
     ("cash_bridge", c3); ("ibt_vs_rev_minus_exp", c4)] in
  diagnostics float_repr payload =
    Ok (JObj [("checks", JObj (map (fun '(k, v) => (k, JFloat v)) checks));
              ("warnings", JArr (map JStr (exceeding_warnings float_repr checks)))]).
Proof.
  intros HA HLQ HLP HEQ Hbeg Hni Hdiv Hend Hcb Hinc Hce Hrev Hexp Hibt c1 c2 c3 c4 checks.
  under HA. under HLQ. under HLP. under HEQ. under Hbeg. under Hni. under Hdiv.
  under Hend. under Hcb. under Hinc. under Hce. under Hrev. under Hexp. under Hibt.
  same_item.
  unfold diagnostics, checks_of.
  repeat match goal with H : item _ payload = Ok _ |- _ => rewrite H; clear H end.
  cbn [mbind result_bind].
  rewrite HA, HLQ, HLP, HEQ, Hbeg, Hni, Hdiv, Hend, Hcb, Hinc, Hce, Hrev, Hexp, Hibt.
  cbn [mbind result_bind]. rewrite checks_dict.
  cbn [mbind result_bind]. now rewrite warnings_of_four.
Qed.

End DiagnosticsFacts.

Lemma diagnostics_spec_witness :
  let payload := balance_payload (Float.of_Z 100) (Float.of_Z 30) (Float.of_Z 20)
                                 (Float.of_Z 50) in
  (exists d, diagnostics sample_repr payload = Ok d
             /\ item "warnings" d = Ok (JArr [])
             /\ amount ["checks"; "balance_sheet_identity"] d = Ok Float.zero)
  /\ diagnostics sample_repr
       (balance_payload (Float.of_Z 100) (Float.of_Z 30) (Float.of_Z 20) (Float.of_Z 40))
     = Ok (JObj
         [("checks", JObj
             [("balance_sheet_identity", JFloat (Float.of_Z 10));
              ("retained_earnings_recon", JFloat Float.zero);
              ("cash_bridge", JFloat Float.zero);
              ("ibt_vs_rev_minus_exp", JFloat Float.zero)]);
          ("warnings", JArr [JStr "balance_sheet_identity mismatch: 5629499534213120*2**-49"])]).
Proof.
  intros payload. split.
  - destruct (diagnostics_spec sample_repr payload
                (Float.of_Z 100) (Float.of_Z 30) (Float.of_Z 20) (Float.of_Z 50)
                Float.zero Float.zero Float.zero Float.zero Float.zero Float.zero
                Float.zero Float.zero Float.zero Float.zero)
      as [Hd Hbal]; [vm_compute; reflexivity .. |].
    destruct (Hbal eq_refl eq_refl) as (Hz & Hx & Hno).
    eexists. split; [exact Hd|]. split; vm_compute; reflexivity.
  - destruct (diagnostics_spec sample_repr
                (balance_payload (Float.of_Z 100) (Float.of_Z 30) (Float.of_Z 20)
                                 (Float.of_Z 40))
                (Float.of_Z 100) (Float.of_Z 30) (Float.of_Z 20) (Float.of_Z 40)
                Float.zero Float.zero Float.zero Float.zero Float.zero Float.zero
                Float.zero Float.zero Float.zero Float.zero)
      as [Hd _]; [vm_compute; reflexivity .. |].
    rewrite Hd. vm_compute. reflexivity.
Defined.

(** C6, as stated, fails on a payload whose total assets and current
    liabilities are both infinite (loan payable and equity 0.0): the two
    sides compare equal, the residual [inf - inf] is NaN, which does not
    compare equal to 0.0. *)
Lemma balanced_residual_rule_counterexample : ~ balanced_residual_rule.
Proof.
  intros H.
  pose (inf := S754_infinity false).
  assert (E : diagnostics sample_repr (balance_payload inf inf Float.zero Float.zero)
              = Ok (JObj
                  [("checks", JObj
                      [("balance_sheet_identity", JFloat S754_nan);
                       ("retained_earnings_recon", JFloat Float.zero);
                       ("cash_bridge", JFloat Float.zero);
                       ("ibt_vs_rev_minus_exp", JFloat Float.zero)]);
                   ("warnings", JArr [])]))
    by (vm_compute; reflexivity).
  specialize (H sample_repr (balance_payload inf inf Float.zero Float.zero)
                inf inf Float.zero Float.zero _ S754_nan
                eq_refl eq_refl eq_refl eq_refl eq_refl E eq_refl).
  vm_compute in H. discriminate H.
Qed.

(* ===================================================================== *)
(** * The rollup builder *)
(* ===================================================================== *)

Section RollupFacts.
Variable ROLLUPS : rollups.
Variable float_repr : Float.float -> string.
Variable builtin_sum : list Float.float -> Float.float.
Variables (company : string) (period : option date) (currency : string)
          (fiscal_year : Z).

Local Abbreviation rollup0 :=
  (rollup_payload ROLLUPS float_repr builtin_sum company period currency fiscal_year).

Lemma g_get_or_zero (r : gmap string Float.float) k : g r k = get_or_zero r k.
Proof. unfold g, get_or_zero. now destruct (r !! k). Qed.

(** The builder always returns: every amount [diagnostics] reads is in the
    payload it is given. *)
Lemma rollup_payload_total (r : gmap string Float.float) :
  exists fields d,
    rollup0 r = Ok (JObj (fields ++ [("_diagnostics", d)]))
    /\ diagnostics float_repr (JObj fields) = Ok d
    /\ dict_get "_diagnostics" fields = None
    /\ amount ["cash_flows"; "operating_activities"; "total"] (JObj fields)
       = Ok (Float.round2 (sum_left (map (g r) operating_keys))).
Proof.
  unfold rollup_payload.
  match goal with
  | |- context [diagnostics float_repr (JObj ?p)] => set (fields := p)
  end.
  eassert (Hd : diagnostics float_repr (JObj fields) = Ok _).
  { eapply diagnostics_value;
      cbv [fields amount item dict_get of_option number mbind result_bind gf group
           String.eqb Ascii.eqb Bool.eqb andb]; reflexivity. }
  rewrite Hd. cbn [mbind result_bind].
  eexists fields, _. split; [reflexivity|]. split; [exact Hd|].
  split; [reflexivity|].
  cbv [fields amount item dict_get of_option number mbind result_bind gf group
       String.eqb Ascii.eqb Bool.eqb andb sum_left map fold_left operating_keys].
  reflexivity.
Qed.

(** C7.  The builder returns a payload whose
    [cash_flows.operating_activities.total] is the sum, added from the left
    and rounded to two decimals, of the values of the ten operating keys,
    a key missing from the flat map counting as 0.0. *)
Theorem operating_total (r : gmap string Float.float) :
  exists payload,
    rollup0 r = Ok payload
    /\ amount ["cash_flows"; "operating_activities"; "total"] payload
       = Ok (Float.round2 (sum_left (map (get_or_zero r) operating_keys))).
Proof.
  destruct (rollup_payload_total r) as (fields & d & Hrun & _ & Hnew & Htotal).
  exists (JObj (fields ++ [("_diagnostics", d)])). split; [exact Hrun|].
  rewrite <- (map_ext _ _ (g_get_or_zero r)).
  rewrite amount_cons in Htotal |- *.
  apply bind_Ok in Htotal as (cf & Hcf & Htotal).
  assert (E : item "cash_flows" (JObj (fields ++ [("_diagnostics", d)])) = Ok cf).
  { revert Hcf. unfold item. clear. induction fields as [|[k v] fs IH]; simpl.
    - discriminate.
    - destruct (String.eqb k "cash_flows"); [tauto | exact IH]. }
  rewrite E. exact Htotal.
Qed.

End RollupFacts.

(* ===================================================================== *)
(** * The year pattern *)
(* ===================================================================== *)

Module YearFacts.
Import Str Re.

Lemma digit_is_word c : is_digit c = true -> is_word c = true.
Proof. unfold is_word. now intros ->. Qed.

Lemma eqb_char_eq a b : Ascii.eqb a b = true -> a = b.
Proof. apply Ascii.eqb_eq. Qed.

Lemma century_digits a b : century a b = true -> is_digit a = true /\ is_digit b = true.
Proof.
  unfold century. intros H. apply orb_prop in H as [H|H];
    apply andb_prop in H as [Ha Hb];
    apply eqb_char_eq in Ha, Hb; subst; split; reflexivity.
Qed.

Lemma year_match_spec prev s tok :
  year_match prev s = Some tok <->
  exists post, s = tok +:+ post /\ year_shape tok = true
               /\ is_word_opt prev = false /\ is_word_opt (head post) = false.
Proof.
  split.
  - unfold year_match.
    destruct s as [|a [|b [|c [|d rest]]]]; try discriminate.
    destruct (boundary prev _ && century a b && is_digit c && is_digit d
              && boundary (Some d) rest) eqn:E; [|discriminate].
    intros [= <-].
    apply andb_prop in E as [E Hr]. apply andb_prop in E as [E Hd].
    apply andb_prop in E as [E Hc]. apply andb_prop in E as [Hl Hab].
    destruct (century_digits _ _ Hab) as [Ha Hb].
    exists rest. split; [reflexivity|]. split; [simpl; now rewrite Hab, Hc, Hd|].
    unfold boundary in *. simpl in Hl, Hr.
    rewrite (digit_is_word _ Ha) in Hl. rewrite (digit_is_word _ Hd) in Hr.
    split.
    + now destruct (is_word_opt prev).
    + now destruct (is_word_opt (head rest)).
  - intros (post & -> & Hsh & Hl & Hr).
    destruct tok as [|a [|b [|c [|d [|]]]]]; try discriminate.
    simpl in Hsh. apply andb_prop in Hsh as [E Hd]. apply andb_prop in E as [Hab Hc].
    destruct (century_digits _ _ Hab) as [Ha Hb].
    unfold year_match. simpl. unfold boundary. simpl.
    rewrite Hl, Hr, (digit_is_word _ Ha), (digit_is_word _ Hd), Hab, Hc, Hd.
    reflexivity.
Qed.

Lemma last_char_cons c s : exists x, last_char (String c s) = Some x.
Proof.
  revert c. induction s as [|d s IH]; intros c; simpl; [eauto|].
  apply IH.
Qed.

Lemma last_or_cons prev c pre : last_or prev (String c pre) = last_or (Some c) pre.
Proof.
  unfold last_or. destruct pre as [|d pre]; [reflexivity|].
  destruct (last_char_cons d pre) as [x Hx].
  change (last_char (String c (String d pre))) with (last_char (String d pre)).
  now rewrite Hx.
Qed.

(** A match is found at the head of the text or further on. *)
Lemma occurrence_cons prev c r tok :
  year_occurrence prev (String c r) tok <->
  year_match prev (String c r) = Some tok \/ year_occurrence (Some c) r tok.
Proof.
  rewrite year_match_spec. split.
  - intros (pre & post & E & Hsh & Hl & Hr). destruct pre as [|c' pre].
    + left. exists post. now repeat split.
    + right. simpl in E. injection E as <- ->.
      exists pre, post. rewrite last_or_cons in Hl. now repeat split.
  - intros [(post & E & Hsh & Hl & Hr)|(pre & post & E & Hsh & Hl & Hr)].
    + exists EmptyString, post. now repeat split.
    + exists (String c pre), post. rewrite last_or_cons. subst r. now repeat split.
Qed.

Lemma occurrence_nil prev tok : ~ year_occurrence prev EmptyString tok.
Proof.
  intros (pre & post & E & Hsh & _). destruct pre; [|discriminate].
  destruct tok; [discriminate Hsh | discriminate E].
Qed.

Lemma year_match_run prev c r tok :
  year_match prev (String c r) = Some tok -> is_word c = true /\ word_run 3 r.
Proof.
  unfold year_match. destruct r as [|b [|c' [|d rest]]]; try discriminate.
  destruct (boundary prev _ && century c b && is_digit c' && is_digit d
            && boundary (Some d) rest) eqn:E; [|discriminate].
  intros _.
  apply andb_prop in E as [E Hr]. apply andb_prop in E as [E Hd].
  apply andb_prop in E as [E Hc]. apply andb_prop in E as [Hl Hab].
  destruct (century_digits _ _ Hab) as [Ha Hb].
  simpl. repeat split; now apply digit_is_word.
Qed.

(** The scan returns the matches of the pattern, all of them. *)
Lemma year_scan_spec s : forall skip prev,
  (skip = 0%nat \/ (is_word_opt prev = true /\ word_run skip s)) ->
  forall tok, In tok (year_scan skip prev s) <-> year_occurrence prev s tok.
Proof.
  induction s as [|c r IH]; intros skip prev Hg tok.
  - simpl. split; [tauto | apply occurrence_nil].
  - rewrite occurrence_cons. destruct skip as [|k].
    + change (year_scan 0 prev (String c r))
        with (match year_match prev (String c r) with
              | Some y => y :: year_scan 3 (Some c) r
              | None => year_scan 0 (Some c) r
              end).
      destruct (year_match prev (String c r)) as [y|] eqn:Ey.
      * pose proof (IH 3%nat (Some c) (or_intror (year_match_run _ _ _ _ Ey)) tok) as H3.
        split.
        -- intros [->|H]; [now left | right; now apply H3].
        -- intros [[= ->]|H]; [now left | right; now apply H3].
      * pose proof (IH 0%nat (Some c) (or_introl eq_refl) tok) as H0.
        split; [intros H; right; now apply H0|].
        intros [H|H]; [discriminate | now apply H0].
    + destruct Hg as [Hg|[Hp [Hc Hrun]]]; [discriminate|].
      change (year_scan (S k) prev (String c r)) with (year_scan k (Some c) r).
      assert (Hg' : k = 0%nat \/ (is_word_opt (Some c) = true /\ word_run k r)).
      { destruct k; [now left | right; split; [exact Hc | exact Hrun]]. }
      pose proof (IH k (Some c) Hg' tok) as Hk.
      split; [intros H; right; now apply Hk|].
      intros [H|H]; [|now apply Hk].
      apply year_match_spec in H as (post & _ & _ & Hl & _). congruence.
Qed.

Lemma year_findall_spec text tok :
  In tok (year_findall text) <-> year_occurrence None text tok.
Proof. unfold year_findall. apply year_scan_spec. now left. Qed.

End YearFacts.

Module YearValueFacts.
Import Str Re YearFacts.

Lemma code_inj a b : code a = code b -> a = b.
Proof.
  unfold code. intros H. rewrite <- (ascii_N_embedding a), <- (ascii_N_embedding b).
  now rewrite H.
Qed.

Lemma is_digit_range c : is_digit c = true <-> (48 <= code c <= 57)%N.
Proof.
  unfold is_digit, between. rewrite andb_true_iff, !N.leb_le. tauto.
Qed.

Lemma eqb_code a b : Ascii.eqb a b = true <-> code a = code b.
Proof.
  rewrite Ascii.eqb_eq. split; [now intros -> | apply code_inj].
Qed.

Lemma century_codes a b :
  century a b = true <->
  (code a = 49 /\ code b = 57)%N \/ (code a = 50 /\ code b = 48)%N.
Proof.
  unfold century. rewrite orb_true_iff, !andb_true_iff, !eqb_code. reflexivity.
Qed.

Lemma int_of_four a b c d :
  int_of_digits (String a (String b (String c (String d EmptyString)))) =
  Z.of_N (10 * (10 * (10 * (code a - 48) + (code b - 48)) + (code c - 48))
          + (code d - 48)).
Proof.
  unfold int_of_digits. cbn [Float.digits_value]. reflexivity.
Qed.

(** A text of four digits has the shape of a year exactly when its value
    lies between 1900 and 2099. *)
Lemma year_shape_range tok :
  year_shape tok = true <->
  four_digits tok = true /\ 1900 <= int_of_digits tok <= 2099.
Proof.
  destruct tok as [|a [|b [|c [|d [|e r]]]]];
    try (split; [discriminate | intros [H _]; discriminate H]).
  cbn [year_shape four_digits]. rewrite int_of_four.
  rewrite !andb_true_iff, century_codes, !is_digit_range.
  split.
  - intros [[Hab Hc] Hd]. split; [repeat split; lia | lia].
  - intros [[[[Ha Hb] Hc] Hd] Hr]. split; [split|]; [|exact Hc|exact Hd]. lia.
Qed.

(** The year tokens of a text are the values of what [findall] returns. *)
Lemma year_token_findall text y :
  year_token text y <->
  In y (map int_of_digits (year_findall text)).
Proof.
  rewrite in_map_iff. split.
  - intros (pre & tok & post & E & H4 & Hy & Hr & Hl & Hp).
    exists tok. split; [exact Hy|]. apply year_findall_spec.
    exists pre, post. split; [exact E|]. split.
    + apply year_shape_range. subst y. now split.
    + split; [|exact Hp]. unfold last_or. now destruct (last_char pre).
  - intros (tok & Hy & Hin). apply year_findall_spec in Hin.
    destruct Hin as (pre & post & E & Hsh & Hl & Hp).
    apply year_shape_range in Hsh as [H4 Hr].
    exists pre, tok, post. subst y. repeat split; try assumption; try lia.
    unfold last_or in Hl. now destruct (last_char pre).
Qed.

End YearValueFacts.

(* ===================================================================== *)
(** * [sorted(set(...))] *)
(* ===================================================================== *)

Lemma insert_sorted_In x y l : In x (insert_sorted y l) <-> x = y \/ In x l.
Proof.
  induction l as [|z l IH]; simpl; [intuition|].
  destruct (Z.ltb_spec y z); [simpl; intuition|].
  destruct (Z.eqb_spec y z); [subst; simpl; intuition|].
  simpl. rewrite IH. intuition.
Qed.

Lemma insert_sorted_ascending y l : ascending l -> ascending (insert_sorted y l).
Proof.
  unfold ascending. induction l as [|z l IH]; simpl; intros H.
  - repeat constructor.
  - apply StronglySorted_inv in H as [Hs Hall].
    destruct (Z.ltb_spec y z).
    + constructor; [now constructor|]. constructor; [assumption|].
      rewrite List.Forall_forall in *. intros w Hw. specialize (Hall w Hw). lia.
    + destruct (Z.eqb_spec y z); [now constructor|].
      constructor; [now apply IH|].
      rewrite List.Forall_forall in *. intros w Hw.
      apply insert_sorted_In in Hw as [->|Hw]; [lia | now apply Hall].
Qed.

Lemma sorted_set_In x l : In x (sorted_set l) <-> In x l.
Proof.
  unfold sorted_set. induction l as [|z l IH]; simpl; [tauto|].
  rewrite insert_sorted_In, IH. intuition.
Qed.

Lemma sorted_set_ascending l : ascending (sorted_set l).
Proof.
  unfold sorted_set. induction l as [|z l IH]; simpl.
  - constructor.
  - now apply insert_sorted_ascending.
Qed.



Section YearsClaim.
Variable today_year : Z.



End YearsClaim.

(* ===================================================================== *)
(** * Pages and the joined text *)
(* ===================================================================== *)

Module JoinFacts.
Import Str Re StrFacts.

Lemma last_char_app a b :
  last_char (a +:+ b) = match last_char b with Some c => Some c | None => last_char a end.
Proof.
  induction a as [|c a IH].
  - simpl. now destruct (last_char b).
  - destruct a as [|d a].
    + simpl. destruct b as [|e b]; [reflexivity|].
      destruct (YearFacts.last_char_cons e b) as [x Hx]. now rewrite Hx.
    + change (String c (String d a) +:+ b) with (String c (String d a +:+ b)).
      change (last_char (String c (String d a +:+ b)))
        with (last_char (String d a +:+ b)).
      rewrite IH. reflexivity.
Qed.

Lemma head_app a b :
  head (a +:+ b) = match head a with Some c => Some c | None => head b end.
Proof. now destruct a. Qed.

(** A member of a joined list stands in the joined text between separators
    (or at an end of the text). *)
Lemma concat_split sep t (parts : list string) :
  In t parts ->
  exists A B,
    String.concat sep parts = A +:+ t +:+ B
    /\ (A = EmptyString \/ exists A', A = A' +:+ sep)
    /\ (B = EmptyString \/ exists B', B = sep +:+ B').
Proof.
  induction parts as [|x xs IH]; [intros []|].
  intros Hin. destruct xs as [|x' xs].
  - destruct Hin as [->|[]]. exists EmptyString, EmptyString.
    simpl. rewrite append_nil_r. auto.
  - change (String.concat sep (x :: x' :: xs))
      with (x +:+ sep +:+ String.concat sep (x' :: xs)).
    destruct Hin as [->|Hin].
    + exists EmptyString, (sep +:+ String.concat sep (x' :: xs)).
      simpl. split; [reflexivity|]. split; [now left | right; eauto].
    + destruct (IH Hin) as (A & B & E & HA & HB).
      exists (x +:+ sep +:+ A), B. rewrite E. split.
      * now rewrite !append_assoc.
      * split; [|exact HB]. right. destruct HA as [->|[A' ->]].
        -- exists x. now rewrite append_nil_r.
        -- exists (x +:+ sep +:+ A'). now rewrite !append_assoc.
Qed.

Lemma newline_not_word : is_word (ascii_of_N 10) = false.
Proof. reflexivity. Qed.

(** A year token of a page is a year token of the joined text. *)
Lemma year_token_page t (pages : list string) y :
  In t pages -> year_token t y -> year_token (join_lines pages) y.
Proof.
  intros Hin (pre & tok & post & E & H4 & Hy & Hr & Hl & Hp).
  destruct (concat_split (String (ascii_of_N 10) EmptyString) t pages Hin)
    as (A & B & EJ & HA & HB).
  exists (A +:+ pre), tok, (post +:+ B). split.
  - unfold join_lines. rewrite EJ, E. now rewrite !append_assoc.
  - repeat split; try assumption; try lia.
    + rewrite last_char_app. destruct (last_char pre) as [c|]; [exact Hl|].
      destruct HA as [->|[A' ->]]; [reflexivity|].
      rewrite last_char_app. reflexivity.
    + rewrite head_app. destruct (head post) as [c|]; [exact Hp|].
      destruct HB as [->|[B' ->]]; reflexivity.
Qed.

End JoinFacts.

(* ===================================================================== *)
(** * The parse loop *)
(* ===================================================================== *)

Lemma parse_money_err tok e : parse_money tok = Err e -> e = ValueError.
Proof.
  unfold parse_money. destruct (_ || _); [discriminate|].
  destruct (Float.of_string _); simpl; [discriminate | congruence].
Qed.

Lemma map_result_err {A B} (f : A -> result B) (xs : list A) (e0 e : exn) :
  (forall x e', f x = Err e' -> e' = e0) -> map_result f xs = Err e -> e = e0.
Proof.
  intros Hf. induction xs as [|x r IH]; simpl; [discriminate|].
  destruct (f x) eqn:Ex; simpl.
  - destruct (map_result f r); simpl; [discriminate|].
    intros [= <-]. now apply IH.
  - intros [= <-]. now apply (Hf x).
Qed.

Lemma values_of_err line e : values_of line = Err e -> e = ValueError.
Proof. apply map_result_err. intros x e'. apply parse_money_err. Qed.

Lemma write_dom (y : Z) canon v (raw raw' : buckets) :
  write y canon v raw = Ok raw' -> dom raw' = dom raw.
Proof.
  unfold write. destruct (raw !! y) as [flat|] eqn:E; [|discriminate].
  intros [= <-]. rewrite dom_insert_L.
  assert (Hy : y ∈ dom raw) by (apply elem_of_dom; eauto).
  apply set_eq. intros z. rewrite elem_of_union, elem_of_singleton.
  split; [intros [->|Hz]; assumption | now right].
Qed.

Lemma write_in_dom (y : Z) canon v (raw : buckets) :
  y ∈ dom raw -> exists raw', write y canon v raw = Ok raw'.
Proof.
  intros [flat E]%elem_of_dom. unfold write. rewrite E. eauto.
Qed.

Lemma nonempty_last {A} (l : list A) : l <> [] -> exists front b, l = (front ++ [b])%list.
Proof.
  destruct l as [|x l _] using rev_ind; [congruence|]. eauto.
Qed.

Section ParseFacts.
Variable CANON : list (string * desc).
Variable company_markers : list string.
Variable re_search : string -> string -> bool.
Variable extractOne : string -> list string -> option (string * Float.float).
Variable today_year : Z.

Local Abbreviation process_line0 := (process_line CANON re_search extractOne).
Local Abbreviation process_page0 := (process_page CANON re_search extractOne).
Local Abbreviation parse0 :=
  (parse_pdf_to_year_buckets CANON company_markers re_search extractOne today_year).

(** A line keeps the key set of the buckets and can only fail on a token
    that is no number. *)
Lemma process_line_keys years ctx (raw : buckets) line :
  years <> [] ->
  (forall y, In y years -> y ∈ dom raw) ->
  ctx ∈ dom raw ->
  (forall raw', process_line0 years ctx raw line = Ok raw' -> dom raw' = dom raw)
  /\ (forall e, process_line0 years ctx raw line = Err e -> e = ValueError).
Proof.
  intros Hne Hyears Hctx. unfold process_line.
  destruct (Str.is_empty (Str.strip line)); [split; [now intros ? [= <-] | discriminate]|].
  destruct (is_nil (nums_of line)); [split; [now intros ? [= <-] | discriminate]|].
  destruct (Str.is_empty (label_part_of line));
    [split; [now intros ? [= <-] | discriminate]|].
  destruct (negb (truthy _)); [split; [now intros ? [= <-] | discriminate]|].
  destruct (values_of line) as [values|e0] eqn:Ev; simpl;
    [|split; [discriminate | intros e [= <-]; now apply (values_of_err line)]].
  destruct (is_nil values) eqn:En; [split; [now intros ? [= <-] | discriminate]|].
  assert (Hvne : values <> []) by (intros ->; discriminate).
  destruct ((2 <=? Z.of_nat (length values)) && (2 <=? Z.of_nat (length years))) eqn:E2.
  - apply andb_prop in E2 as [E2 _]. apply Z.leb_le in E2.
    destruct (last_two values) as (front & a & b & ->); [lia|].
    destruct (py_index_last_two front a b) as [-> ->]. simpl.
    destruct (py_max_spec years Hne) as (hi & -> & Hhi & _).
    destruct (py_min_spec years Hne) as (lo & Elo & Hlo & _). simpl.
    destruct (write_in_dom hi (default EmptyString
                (resolve CANON re_search extractOne (label_part_of line))) a raw
                (Hyears hi Hhi)) as [raw1 E1].
    rewrite E1. simpl. rewrite Elo. simpl.
    pose proof (write_dom _ _ _ _ _ E1) as D1.
    split.
    + intros raw' E. apply write_dom in E. congruence.
    + intros e E. exfalso.
      destruct (write_in_dom lo (default EmptyString
                  (resolve CANON re_search extractOne (label_part_of line))) b raw1)
        as [raw2 E']; [rewrite D1; now apply Hyears | congruence].
  - destruct (nonempty_last values Hvne) as (front & b & ->).
    rewrite py_index_last. simpl. split.
    + intros raw' E. now apply write_dom in E.
    + intros e E. exfalso.
      destruct (write_in_dom ctx (default EmptyString
                  (resolve CANON re_search extractOne (label_part_of line))) b raw Hctx)
        as [raw2 E']. congruence.
Qed.

Lemma lines_keys years ctx lines : forall raw : buckets,
  years <> [] ->
  (forall y, In y years -> y ∈ dom raw) ->
  ctx ∈ dom raw ->
  (forall raw', for_each (process_line0 years ctx) lines raw = Ok raw' ->
                dom raw' = dom raw)
  /\ (forall e, for_each (process_line0 years ctx) lines raw = Err e -> e = ValueError).
Proof.
  induction lines as [|l lines IH]; intros raw Hne Hy Hc; simpl.
  - split; [now intros ? [= <-] | discriminate].
  - destruct (process_line_keys years ctx raw l Hne Hy Hc) as [Hok Herr].
    destruct (process_line0 years ctx raw l) as [raw1|e1]; simpl.
    + pose proof (Hok raw1 eq_refl) as D.
      destruct (IH raw1 Hne) as [Hok' Herr'];
        [intros y Hin; rewrite D; now apply Hy | now rewrite D|].
      split; [intros raw' E; rewrite <- D; now apply Hok' | exact Herr'].
    + split; [discriminate | intros e [= <-]; now apply Herr].
Qed.

(** A page keeps the key set; its year context stays a key. *)
Lemma process_page_keys years ctx (raw : buckets) t :
  years <> [] ->
  (forall y, In y years -> y ∈ dom raw) ->
  ctx ∈ dom raw ->
  (forall y, In y (map int_of_digits (Re.year_findall t)) -> y ∈ dom raw) ->
  (forall ctx' raw', process_page0 years (ctx, raw) t = Ok (ctx', raw') ->
                     dom raw' = dom raw /\ ctx' ∈ dom raw)
  /\ (forall e, process_page0 years (ctx, raw) t = Err e -> e = ValueError).
Proof.
  intros Hne Hy Hc Hpage. unfold process_page.
  assert (Hctx : exists c, (match map int_of_digits (Re.year_findall t) with
                            | [] => Ok ctx
                            | _ :: _ => py_max (map int_of_digits (Re.year_findall t))
                            end) = Ok c /\ c ∈ dom raw).
  { destruct (map int_of_digits (Re.year_findall t)) as [|y0 ys] eqn:E; [eauto|].
    destruct (py_max_spec (y0 :: ys)) as (hi & Ehi & Hhi & _); [discriminate|].
    exists hi. split; [exact Ehi | now apply Hpage]. }
  destruct Hctx as (c & -> & Hcin). simpl.
  destruct (lines_keys years c (Str.splitlines t) raw Hne Hy Hcin) as [Hok Herr].
  destruct (for_each _ _ raw) as [raw1|e1]; simpl.
  - split; [|discriminate]. intros ctx' raw' [= <- <-]. split; [now apply Hok | exact Hcin].
  - split; [discriminate | intros e [= <-]; now apply Herr].
Qed.

Lemma pages_keys years pages : forall ctx (raw : buckets),
  years <> [] ->
  (forall y, In y years -> y ∈ dom raw) ->
  ctx ∈ dom raw ->
  (forall t y, In t pages -> In y (map int_of_digits (Re.year_findall t)) -> y ∈ dom raw) ->
  (forall ctx' raw', for_each (process_page0 years) pages (ctx, raw) = Ok (ctx', raw') ->
                     dom raw' = dom raw)
  /\ (forall e, for_each (process_page0 years) pages (ctx, raw) = Err e -> e = ValueError).
Proof.
  induction pages as [|t pages IH]; intros ctx raw Hne Hy Hc Hp; cbn [for_each].
  - split; [now intros ? ? [= _ <-] | discriminate].
  - destruct (process_page_keys years ctx raw t Hne Hy Hc) as [Hok Herr];
      [intros y; apply Hp; now left|].
    destruct (process_page0 years (ctx, raw) t) as [[ctx1 raw1]|e1];
      cbn [mbind result_bind].
    + destruct (Hok ctx1 raw1 eq_refl) as [D Hc1].
      destruct (IH ctx1 raw1 Hne) as [Hok' Herr'].
      * intros y Hin. rewrite D. now apply Hy.
      * now rewrite D.
      * intros t' y Ht' Hin. rewrite D. apply (Hp t' y); [now right | exact Hin].
      * split; [|exact Herr']. intros ctx' raw' E. rewrite <- D. now apply (Hok' ctx').
    + split; [discriminate | intros e [= <-]; now apply Herr].
Qed.

Lemma list_index_err x xs e : list_index x xs = Err e -> e = ValueError.
Proof.
  induction xs as [|y xs IH]; simpl; [congruence|].
  destruct (String.eqb y x); [discriminate|].
  destruct (list_index x xs); simpl; [discriminate | intros [= <-]; now apply IH].
Qed.

Lemma make_date_err y m d e : make_date y m d = Err e -> e = ValueError.
Proof. unfold make_date. destruct (_ && _); [discriminate | congruence]. Qed.

Lemma extract_err text e :
  extract_company_and_period company_markers text = Err e -> e = ValueError.
Proof.
  unfold extract_company_and_period.
  destruct (Re.date_search MONTHS text) as [[[mo da] ye]|]; [|discriminate].
  destruct (list_index _ _) eqn:Ei; simpl;
    [|intros [= <-]; now apply list_index_err in Ei].
  destruct (make_date _ _ _) eqn:Em; simpl; [discriminate|].
  intros [= <-]. now apply make_date_err in Em.
Qed.

Lemma detect_loop_err pages : forall st e,
  for_each (detect_step company_markers) pages st = Err e -> e = ValueError.
Proof.
  induction pages as [|t pages IH]; intros st e; cbn [for_each]; [discriminate|].
  destruct (detect_step company_markers st t) as [st1|e1] eqn:E1; cbn [mbind result_bind].
  - apply IH.
  - intros [= <-]. unfold detect_step in E1. destruct st as [company period].
    destruct (_ || _); [|discriminate].
    destruct (extract_company_and_period company_markers t) as [[c p]|e2] eqn:E2;
      simpl in E1; [discriminate|].
    injection E1 as <-. now apply extract_err in E2.
Qed.

Lemma detect_years_nonempty text period : detect_years today_year text period <> [].
Proof. unfold detect_years. now destruct (sorted_set _). Qed.

Lemma dom_initial (years : list Z) :
  dom (list_to_map (map (fun y => (y, ∅)) years) : buckets) = list_to_set years.
Proof.
  rewrite dom_list_to_map_L. f_equal.
  induction years as [|y ys IH]; [reflexivity | cbn; f_equal; exact IH].
Qed.

(** The years of a page are among the detected years of the document. *)
Lemma page_years_detected pages period t y :
  In t pages -> In y (map int_of_digits (Re.year_findall t)) ->
  In y (detect_years today_year (Str.join_lines pages) period).
Proof.
  intros Ht Hy. apply YearValueFacts.year_token_findall in Hy.
  apply (JoinFacts.year_token_page t pages y Ht) in Hy.
  apply YearValueFacts.year_token_findall in Hy.
  apply sorted_set_In in Hy. unfold detect_years.
  destruct (sorted_set _); [destruct Hy | exact Hy].
Qed.

(** The parse raises nothing but [ValueError]. *)
Lemma parse_error_value (pages_text : list string) (e : exn) :
  parse0 pages_text = Err e -> e = ValueError.
Proof.
  unfold parse_pdf_to_year_buckets.
  destruct (for_each (detect_step company_markers) pages_text (None, None))
    as [[company period]|e0] eqn:Ed; cbn [mbind result_bind];
    [|intros [= <-]; now apply detect_loop_err in Ed].
  set (years := detect_years today_year (Str.join_lines pages_text) period).
  pose proof (detect_years_nonempty (Str.join_lines pages_text) period) as Hne.
  fold years in Hne.
  destruct (py_max_spec years Hne) as (hi & -> & Hhi & _). cbn [mbind result_bind].
  pose proof (dom_initial years) as D0.
  set (raw0 := (list_to_map (map (fun y => (y, ∅)) years) : buckets)) in *.
  destruct (pages_keys years pages_text hi raw0 Hne) as [_ Herr].
  - intros y Hy. rewrite D0. apply elem_of_list_to_set. now apply list_elem_of_In.
  - rewrite D0. apply elem_of_list_to_set. now apply list_elem_of_In.
  - intros t y Ht Hy. rewrite D0. apply elem_of_list_to_set. apply list_elem_of_In.
    now apply (page_years_detected pages_text period t y).
  - destruct (for_each (process_page0 years) pages_text (hi, raw0))
      as [[ctx1 raw1]|e1]; cbn [mbind result_bind]; [discriminate|].
    intros [= <-]. now apply Herr.
Qed.

(** C10.  When [parse_pdf_to_year_buckets] returns, the keys of the year
    buckets are exactly the detected years of the joined text, with the
    returned period as the fallback: every detected year has its bucket,
    possibly empty, and no other year is a key. *)
Theorem buckets_keys (pages_text : list string) company period currency
        (raw : buckets) :
  parse0 pages_text = Ok (company, period, currency, raw) ->
  dom raw = list_to_set (detect_years today_year (Str.join_lines pages_text) period)
  /\ forall y, is_Some (raw !! y)
               <-> In y (detect_years today_year (Str.join_lines pages_text) period).
Proof.
  intros Hparse.
  assert (D : dom raw
              = list_to_set (detect_years today_year (Str.join_lines pages_text) period)).
  { revert Hparse. unfold parse_pdf_to_year_buckets.
    destruct (for_each (detect_step company_markers) pages_text (None, None))
      as [[company0 period0]|e0] eqn:Ed; cbn [mbind result_bind]; [|discriminate].
    set (years := detect_years today_year (Str.join_lines pages_text) period0).
    pose proof (detect_years_nonempty (Str.join_lines pages_text) period0) as Hne.
    fold years in Hne.
    destruct (py_max_spec years Hne) as (hi & -> & Hhi & _). cbn [mbind result_bind].
    pose proof (dom_initial years) as D0.
    set (raw0 := (list_to_map (map (fun y => (y, ∅)) years) : buckets)) in *.
    destruct (pages_keys years pages_text hi raw0 Hne) as [Hok _].
    - intros y Hy. rewrite D0. apply elem_of_list_to_set. now apply list_elem_of_In.
    - rewrite D0. apply elem_of_list_to_set. now apply list_elem_of_In.
    - intros t y Ht Hy. rewrite D0. apply elem_of_list_to_set. apply list_elem_of_In.
      now apply (page_years_detected pages_text period0 t y).
    - destruct (for_each (process_page0 years) pages_text (hi, raw0))
        as [[ctx1 raw1]|e1]; cbn [mbind result_bind]; [|discriminate].
      intros E. injection E as _ Hp _ Hr. subst period raw. fold years.
      rewrite <- D0. now apply (Hok ctx1). }
  split; [exact D|].
  intros y. rewrite <- elem_of_dom, D, elem_of_list_to_set.
  apply list_elem_of_In.
Qed.

(** X2.  Once the page texts are there, what [parse_pdf_to_year_buckets]
    computes from them raises no [KeyError] and no [IndexError]: every
    write [raw[y][key]] finds the bucket of its year, and [values[-2]] and
    [values[-1]] are in range. *)
Theorem no_lookup_error (pages_text : list string) (e : exn) :
  parse0 pages_text = Err e -> e <> KeyError /\ e <> IndexError.
Proof.
  intros H. rewrite (parse_error_value pages_text e H). split; discriminate.
Qed.

End ParseFacts.



Lemma buckets_keys_witness :
  exists company period currency (raw : buckets),
    sample_parse sample_pages = Ok (company, period, currency, raw)
    /\ dom raw = list_to_set [2022; 2023]
    /\ forall y, is_Some (raw !! y) <-> In y [2022; 2023].
Proof.
  destruct (sample_parse sample_pages) as [[[[c p] cur] raw]|e] eqn:E.
  - exists c, p, cur, raw. split; [reflexivity|].
    assert (Hy : detect_years 2026 (Str.join_lines sample_pages) p = [2022; 2023]).
    { unfold detect_years.
      now replace (sorted_set (map int_of_digits (Re.year_findall (Str.join_lines sample_pages))))
        with [2022; 2023] by (vm_compute; reflexivity). }
    rewrite <- Hy.
    exact (buckets_keys sample_canon ["Inc"; "Ltd"] literal_search exact_extract 2026
             sample_pages c p cur raw E).
  - vm_compute in E. discriminate E.
Defined.

Lemma no_lookup_error_witness :
  sample_parse ["Year ended June 31, 2023"] = Err ValueError
  /\ ValueError <> KeyError /\ ValueError <> IndexError.
Proof.
  assert (E : sample_parse ["Year ended June 31, 2023"] = Err ValueError)
    by (vm_compute; reflexivity).
  split; [exact E|].
  exact (no_lookup_error sample_canon ["Inc"; "Ltd"] literal_search exact_extract 2026
           ["Year ended June 31, 2023"] ValueError E).
Defined.

(* ===================================================================== *)
(** * Single-column lines and the year context *)
(* ===================================================================== *)

Section SingleColumnFacts.
Variable CANON : list (string * desc).
Variable re_search : string -> string -> bool.
Variable extractOne : string -> list string -> option (string * Float.float).

(** X3.  A line whose label resolves to a canonical key and that carries a
    single value, or any number of values in a document with a single year,
    writes its last value under the current year context: the value replaces
    whatever the key held there, the other keys of that year and the other
    years are untouched. *)
Theorem single_column_write years ctx (raw : buckets) line canon values flat :
  label_part_of line <> EmptyString ->
  resolve CANON re_search extractOne (label_part_of line) = Some canon ->
  canon <> EmptyString ->
  values_of line = Ok values ->
  values <> [] ->
  (length values = 1%nat \/ (length years <= 1)%nat) ->
  raw !! ctx = Some flat ->
  exists front v,
    values = (front ++ [v])%list
    /\ process_line CANON re_search extractOne years ctx raw line
       = Ok (<[ctx := <[canon := v]> flat]> raw).
Proof.
  intros Hlab Hres Hcanon Hvals Hne Hone Hflat.
  destruct (nonempty_last values Hne) as (front & v & ->).
  exists front, v. split; [reflexivity|].
  rewrite (process_line_resolved CANON re_search extractOne years ctx raw line canon
             (front ++ [v])) by assumption.
  assert (E : (2 <=? Z.of_nat (length (front ++ [v])))
              && (2 <=? Z.of_nat (length years)) = false).
  { apply andb_false_iff. destruct Hone as [H1|H1].
    - left. apply Z.leb_gt. lia.
    - right. apply Z.leb_gt. lia. }
  rewrite E, py_index_last. simpl. now apply write_ok.
Qed.


End SingleColumnFacts.

Lemma single_column_write_witness :
  exists front v,
    [Prim2SF 7%float] = (front ++ [v])%list
    /\ process_line sample_canon literal_search exact_extract [2022; 2023] 2022
         {[ 2022 := {[ "cash" := Prim2SF 1%float; "revenue" := Prim2SF 5%float ]};
            2023 := ∅ ]}
         "Cash 7"
       = Ok (<[2022 := <["cash" := v]>
                        {[ "cash" := Prim2SF 1%float; "revenue" := Prim2SF 5%float ]}]>
             {[ 2022 := {[ "cash" := Prim2SF 1%float; "revenue" := Prim2SF 5%float ]};
                2023 := ∅ ]}).
Proof.
  apply (single_column_write sample_canon literal_search exact_extract
           [2022; 2023] 2022 _ "Cash 7" "cash" [Prim2SF 7%float]).
  - vm_compute; discriminate.
  - vm_compute; reflexivity.
  - discriminate.
  - vm_compute; reflexivity.
  - discriminate.
  - left; reflexivity.
  - vm_compute; reflexivity.
Defined.


(* ===================================================================== *)
(** * The number pattern *)
(* ===================================================================== *)

Module NumFacts.
Import Str Re StrFacts.

Lemma digit_plain c :
  is_digit c = true ->
  is_space c = false /\ Ascii.eqb "(" c = false /\ Ascii.eqb "$" c = false
  /\ Ascii.eqb "-" c = false.
Proof.
  intros H. apply YearValueFacts.is_digit_range in H.
  repeat split.
  - destruct (is_space c) eqn:E; [|reflexivity]. exfalso.
    unfold is_space, between in E.
    rewrite !orb_true_iff, !andb_true_iff, !N.leb_le, !N.eqb_eq in E. lia.
  - apply Ascii.eqb_neq. intros <-. change (code "(") with 40%N in H. lia.
  - apply Ascii.eqb_neq. intros <-. change (code "$") with 36%N in H. lia.
  - apply Ascii.eqb_neq. intros <-. change (code "-") with 45%N in H. lia.
Qed.

Lemma take_digits3_digit a r :
  is_digit a = true -> is_empty (fst (take_digits3 (String a r))) = false.
Proof.
  intros Ha. destruct r as [|b [|c r]]; simpl; rewrite Ha; simpl.
  - reflexivity.
  - destruct (is_digit b); reflexivity.
  - destruct (is_digit b); simpl; [destruct (is_digit c)|]; reflexivity.
Qed.

Lemma take_while_head p c r :
  p c = false -> take_while p (String c r) = (EmptyString, String c r).
Proof. intros H. simpl. now rewrite H. Qed.

Lemma take_char_other c d r :
  Ascii.eqb c d = false -> take_char c (String d r) = (EmptyString, String d r).
Proof. intros H. simpl. now rewrite H. Qed.

(** Where a digit stands, possibly after a minus sign, the first
    alternative matches. *)
Lemma num_alt1_digit a r :
  is_digit a = true -> exists t, num_alt1 (String a r) = Some t.
Proof.
  intros Ha. destruct (digit_plain a Ha) as (Hs & Hp & Hd & Hm).
  unfold num_alt1.
  rewrite (take_char_other "(" a r Hp), (take_char_other "$" a r Hd),
    (take_while_head is_space a r Hs), (take_char_other "-" a r Hm).
  pose proof (take_digits3_digit a r Ha) as H3.
  destruct (take_digits3 (String a r)) as [d s5]. simpl in H3. rewrite H3.
  destruct (take_groups s5) as [g s6]. destruct (take_fraction s6) as [f s7].
  destruct (take_char ")" s7) as [q s8]. eauto.
Qed.

Lemma num_alt1_minus_digit a r :
  is_digit a = true -> exists t, num_alt1 (String "-" (String a r)) = Some t.
Proof.
  intros Ha. unfold num_alt1.
  rewrite (take_char_other "(" "-" _ eq_refl), (take_char_other "$" "-" _ eq_refl),
    (take_while_head is_space "-" _ eq_refl).
  change (take_char "-" (String "-" (String a r))) with ("-", String a r).
  cbv beta iota.
  pose proof (take_digits3_digit a r Ha) as H3.
  destruct (take_digits3 (String a r)) as [d s5]. simpl in H3. rewrite H3.
  destruct (take_groups s5) as [g s6]. destruct (take_fraction s6) as [f s7].
  destruct (take_char ")" s7) as [q s8]. eauto.
Qed.

Lemma take_while_nonempty p s :
  is_empty (fst (take_while p s)) = false ->
  exists c r, s = String c r /\ p c = true.
Proof.
  destruct s as [|c r]; simpl; [discriminate|].
  destruct (p c) eqn:E; [eauto | discriminate].
Qed.

End NumFacts.

(** X5.  The second alternative of [NUM_RE] never produces a match: where
    the first alternative fails, the second fails too, so every numeric
    token is a match of the first alternative. *)
Theorem num_second_alternative_dead (prev : option ascii) (s : string) :
  Re.num_alt1 s = None -> Re.num_alt2 prev s = None.
Proof.
  intros H1. unfold Re.num_alt2.
  destruct (Re.boundary prev s); [|reflexivity].
  destruct s as [|c r]; [reflexivity|].
  destruct (Ascii.eqb "-" c) eqn:Ec.
  - apply Ascii.eqb_eq in Ec. subst c.
    change (Re.take_char "-" (String "-" r)) with ("-", r). cbv beta iota.
    destruct (Re.take_while Str.is_digit r) as [d s2] eqn:Ed.
    destruct (Str.is_empty d) eqn:Ee; [reflexivity|]. exfalso.
    destruct (NumFacts.take_while_nonempty Str.is_digit r) as (a & r' & -> & Ha);
      [now rewrite Ed|].
    destruct (NumFacts.num_alt1_minus_digit a r' Ha) as [t Ht]. congruence.
  - rewrite (NumFacts.take_char_other "-" c r Ec). cbv beta iota.
    destruct (Re.take_while Str.is_digit (String c r)) as [d s2] eqn:Ed.
    destruct (Str.is_empty d) eqn:Ee; [reflexivity|]. exfalso.
    destruct (NumFacts.take_while_nonempty Str.is_digit (String c r))
      as (a & r' & [= <- <-] & Ha); [now rewrite Ed|].
    destruct (NumFacts.num_alt1_digit c r Ha) as [t Ht]. congruence.
Qed.

Lemma num_second_alternative_dead_witness :
  Re.num_alt2 None "x-1.5" = None /\ Re.num_alt2 (Some " "%char) ".5" = None.
Proof.
  split; apply num_second_alternative_dead; reflexivity.
Defined.

(* ===================================================================== *)
(** * Numeric tokens hold a digit *)
(* ===================================================================== *)

Module TokenFacts.
Import Str Re StrFacts.

Lemma has_digit_app a b : has_digit (a +:+ b) = has_digit a || has_digit b.
Proof.
  induction a as [|c a IH]; simpl; [reflexivity|].
  now rewrite IH, orb_assoc.
Qed.

Lemma nonempty_digits_has p s :
  (forall c, p c = true -> is_digit c = true) ->
  is_empty (fst (take_while p s)) = false -> has_digit (fst (take_while p s)) = true.
Proof.
  intros Hp. destruct s as [|c r]; simpl; [discriminate|].
  destruct (p c) eqn:E; [|discriminate].
  destruct (take_while p r). simpl. intros _. now rewrite (Hp c E).
Qed.

Lemma take_digits3_has s :
  is_empty (fst (take_digits3 s)) = false -> has_digit (fst (take_digits3 s)) = true.
Proof.
  destruct s as [|a [|b [|c r]]]; simpl.
  - discriminate.
  - destruct (is_digit a) eqn:Ea; simpl; [now rewrite Ea | discriminate].
  - destruct (is_digit a) eqn:Ea; simpl.
    + destruct (is_digit b); simpl; now rewrite Ea.
    + discriminate.
  - destruct (is_digit a) eqn:Ea; simpl.
    + destruct (is_digit b); simpl; [destruct (is_digit c)|]; simpl; now rewrite Ea.
    + discriminate.
Qed.

Lemma num_alt1_has s t : num_alt1 s = Some t -> has_digit t = true.
Proof.
  unfold num_alt1.
  destruct (take_char "(" s) as [p1 s1]. destruct (take_char "$" s1) as [p2 s2].
  destruct (take_while is_space s2) as [p3 s3]. destruct (take_char "-" s3) as [p4 s4].
  pose proof (take_digits3_has s4) as H3.
  destruct (take_digits3 s4) as [d s5]. simpl in H3.
  destruct (is_empty d); [discriminate|].
  destruct (take_groups s5) as [g s6]. destruct (take_fraction s6) as [f s7].
  destruct (take_char ")" s7) as [q s8]. intros [= <-].
  rewrite !has_digit_app, (H3 eq_refl). now rewrite !orb_true_r.
Qed.

Lemma num_alt2_has prev s t : num_alt2 prev s = Some t -> has_digit t = true.
Proof.
  unfold num_alt2. destruct (boundary prev s); [|discriminate].
  destruct (take_char "-" s) as [p s1].
  pose proof (nonempty_digits_has is_digit s1 (fun c H => H)) as Hd.
  destruct (take_while is_digit s1) as [d s2]. simpl in Hd.
  destruct (is_empty d); [discriminate|].
  destruct (take_fraction s2) as [f s3].
  destruct (_ && _); [|destruct (boundary _ s2); [|discriminate]];
    intros [= <-]; rewrite !has_digit_app, (Hd eq_refl); now rewrite ?orb_true_r.
Qed.

Lemma num_match_has prev s t : num_match prev s = Some t -> has_digit t = true.
Proof.
  unfold num_match. destruct (num_alt1 s) eqn:E.
  - intros [= <-]. now apply (num_alt1_has s).
  - apply num_alt2_has.
Qed.

Lemma num_scan_has s : forall skip prev,
  forallb has_digit (num_scan skip prev s) = true.
Proof.
  induction s as [|c r IH]; intros skip prev; [reflexivity|].
  destruct skip as [|k]; cbn [num_scan]; [|apply IH].
  destruct (num_match prev (String c r)) as [t|] eqn:E; [|apply IH].
  cbn [forallb]. now rewrite (num_match_has _ _ _ E), IH.
Qed.

Lemma filter_all {A} (f : A -> bool) (l : list A) :
  forallb f l = true -> List.filter f l = l.
Proof.
  induction l as [|x l IH]; simpl; [reflexivity|].
  intros [Hx Hl]%andb_prop. now rewrite Hx, IH.
Qed.

End TokenFacts.

(** X6.  Every numeric token of a line holds a digit, so the test
    [re.search(r"\d", x)] on the tokens drops none of them: the values of a
    line are the parses of all its tokens, in order. *)
Theorem digit_filter_keeps_all (line : string) :
  forallb Re.has_digit (nums_of line) = true
  /\ values_of line = map_result parse_money (nums_of line).
Proof.
  assert (H : forallb Re.has_digit (nums_of line) = true)
    by apply TokenFacts.num_scan_has.
  split; [exact H|]. unfold values_of. now rewrite (TokenFacts.filter_all _ _ H).
Qed.

(* ===================================================================== *)
(** * Period detection *)
(* ===================================================================== *)

Module DateFacts.
Import Str Re StrFacts.

Lemma code_bound c : (code c < 256)%N.
Proof. apply N_ascii_bounded. Qed.

Lemma code_of_N n : (n < 256)%N -> code (ascii_of_N n) = n.
Proof. apply N_ascii_embedding. Qed.

Lemma between_spec lo hi c : between lo hi c = true <-> (lo <= code c <= hi)%N.
Proof. unfold between. rewrite andb_true_iff, !N.leb_le. tauto. Qed.

Lemma between_false lo hi c : between lo hi c = false <-> ~ (lo <= code c <= hi)%N.
Proof. rewrite <- between_spec. now destruct (between lo hi c). Qed.

(** A capital ASCII letter of the pattern matches itself and its small
    letter; the upper case of the match is the pattern letter. *)
Lemma upper_of_ci_match a c :
  between 65 90 a = true -> lower_char a = lower_char c -> upper_char c = a.
Proof.
  intros Ha E. pose proof (proj1 (between_spec _ _ _) Ha) as Ra.
  pose proof (code_bound c) as Bc.
  unfold lower_char in E. rewrite Ha in E. simpl in E.
  apply (f_equal code) in E. rewrite code_of_N in E by lia.
  unfold upper_char.
  destruct (between 65 90 c || between 192 214 c || between 216 222 c) eqn:Eu.
  - rewrite !orb_true_iff, !between_spec in Eu.
    rewrite code_of_N in E by lia.
    assert (a = c) by (apply YearValueFacts.code_inj; lia). subst c.
    assert (Hl : between 97 122 a || between 224 246 a || between 248 254 a = false).
    { rewrite !orb_false_iff, !between_false. lia. }
    now rewrite Hl.
  - rewrite !orb_false_iff, !between_false in Eu.
    assert (Hl : between 97 122 c = true) by (apply between_spec; lia).
    rewrite Hl. simpl. apply YearValueFacts.code_inj.
    rewrite code_of_N by lia. lia.
Qed.

Lemma take_literal_upper m : forall s t u,
  all_capital m = true -> take_literal_ci m s = Some (t, u) -> upper t = m.
Proof.
  induction m as [|a m IH]; intros s t u Hm; simpl.
  - now intros [= <- _].
  - simpl in Hm. apply andb_prop in Hm as [Ha Hm].
    destruct s as [|c r]; [discriminate|].
    destruct (Ascii.eqb (lower_char a) (lower_char c)) eqn:E; [|discriminate].
    apply Ascii.eqb_eq in E.
    destruct (take_literal_ci m r) as [[t' u']|] eqn:Et; [|discriminate].
    intros [= <- _]. simpl. rewrite (IH _ _ _ Hm Et).
    now rewrite (upper_of_ci_match a c Ha E).
Qed.

Lemma date_year_shape s ye : date_year s = Some ye -> year_shape ye = true.
Proof.
  unfold date_year. destruct (take_char "," s) as [p s1].
  destruct (take_while is_space s1) as [q s2].
  destruct s2 as [|a [|b [|c [|d rest]]]]; try discriminate.
  destruct (century a b && is_digit c && is_digit d && boundary (Some d) rest) eqn:E;
    [|discriminate].
  intros [= <-]. simpl.
  apply andb_prop in E as [E _]. exact E.
Qed.

(** The day group is one or two digits: a number below 100. *)
Lemma date_day_year_spec s da ye :
  date_day_year s = Some (da, ye) ->
  year_shape ye = true /\ 0 <= int_of_digits da <= 99.
Proof.
  unfold date_day_year. destruct (take_while is_space s) as [sp s1].
  destruct (is_empty sp); [discriminate|].
  assert (H2 : forall a b, is_digit a = true -> is_digit b = true ->
                 0 <= int_of_digits (String a (String b EmptyString)) <= 99).
  { intros a b Ha Hb. apply YearValueFacts.is_digit_range in Ha, Hb.
    unfold int_of_digits. cbn [Float.digits_value]. lia. }
  assert (H1 : forall a, is_digit a = true ->
                 0 <= int_of_digits (String a EmptyString) <= 99).
  { intros a Ha. apply YearValueFacts.is_digit_range in Ha.
    unfold int_of_digits. cbn [Float.digits_value]. lia. }
  destruct s1 as [|a r]; [discriminate|].
  assert (One : (if is_digit a
                 then match date_year r with
                      | Some y => Some (String a EmptyString, y)
                      | None => None
                      end
                 else None) = Some (da, ye) ->
                year_shape ye = true /\ 0 <= int_of_digits da <= 99).
  { destruct (is_digit a) eqn:Ea; [|discriminate].
    destruct (date_year r) eqn:Ey; [|discriminate].
    intros [= <- <-]. split; [now apply (date_year_shape r) | now apply H1]. }
  destruct r as [|b r']; [exact One|].
  destruct (is_digit a && is_digit b) eqn:Eab; [|exact One].
  destruct (date_year r') eqn:Ey2; [|exact One].
  intros [= <- <-]. apply andb_prop in Eab as [Ea Eb].
  split; [now apply (date_year_shape r') | now apply H2].
Qed.

Lemma date_months_spec months s mo da ye :
  date_months months s = Some (mo, da, ye) ->
  exists m u, In m months /\ take_literal_ci m s = Some (mo, u)
              /\ date_day_year u = Some (da, ye).
Proof.
  induction months as [|m ms IH]; simpl; [discriminate|].
  destruct (take_literal_ci m s) as [[t u]|] eqn:Et.
  - destruct (date_day_year u) as [[d y]|] eqn:Ed.
    + intros [= <- <- <-]. exists m, u. auto.
    + intros H. destruct (IH H) as (m' & u' & Hin & H1 & H2). exists m', u'. auto.
  - intros H. destruct (IH H) as (m' & u' & Hin & H1 & H2). exists m', u'. auto.
Qed.

Lemma date_scan_spec months s : forall prev mo da ye,
  date_scan months prev s = Some (mo, da, ye) ->
  exists s', date_months months s' = Some (mo, da, ye).
Proof.
  induction s as [|c r IH]; intros prev mo da ye.
  - cbn [date_scan]. unfold date_match.
    destruct (boundary prev EmptyString); [|discriminate].
    destruct (date_months months EmptyString) eqn:E; [|discriminate].
    intros [= <-]. eauto.
  - cbn [date_scan]. unfold date_match.
    destruct (boundary prev (String c r)).
    + destruct (date_months months (String c r)) eqn:E.
      * intros [= <-]. eauto.
      * apply IH.
    + apply IH.
Qed.

Lemma list_index_member x xs :
  In x xs -> exists i, list_index x xs = Ok i /\ 0 <= i < Z.of_nat (length xs).
Proof.
  induction xs as [|y xs IH]; [intros []|]. intros Hin. simpl list_index.
  destruct (String.eqb y x) eqn:E.
  - exists 0. split; [reflexivity | simpl; lia].
  - destruct IH as (i & Ei & Hi).
    + destruct Hin as [->|Hin]; [|exact Hin]. rewrite String.eqb_refl in E. discriminate.
    + exists (i + 1). rewrite Ei. split; [reflexivity | simpl length; lia].
Qed.

Lemma months_capital m : In m MONTHS -> all_capital m = true.
Proof.
  intros H. repeat (destruct H as [<-|H]; [reflexivity|]). destruct H.
Qed.

(** What [DATE_LONG_RE.search] returns: a month whose upper case is in
    [MONTHS], a day below 100 and a year between 1900 and 2099. *)
Lemma date_search_spec text mo da ye :
  date_search MONTHS text = Some (mo, da, ye) ->
  (exists i, list_index (upper mo) MONTHS = Ok i /\ 0 <= i < 12)
  /\ 0 <= int_of_digits da <= 99
  /\ 1900 <= int_of_digits ye <= 2099.
Proof.
  unfold date_search. intros H.
  apply date_scan_spec in H as (s' & H).
  apply date_months_spec in H as (m & u & Hin & Hlit & Hday).
  apply date_day_year_spec in Hday as [Hy Hd].
  apply YearValueFacts.year_shape_range in Hy as [_ Hy].
  rewrite (take_literal_upper m s' mo u (months_capital m Hin) Hlit).
  split; [|split; assumption].
  destruct (list_index_member m MONTHS Hin) as (i & Ei & Hi).
  exists i. split; [exact Ei | exact Hi].
Qed.

End DateFacts.

(** X7.  What [extract_company_and_period] does with the period.  Without a
    long date in the text the period is [None].  When a period is returned
    it is the date of the matched groups: its year lies between 1900 and
    2099, its month is the place of the upper-cased month name in
    [MONTHS], and its day is a day of that month.  The only exception is
    [ValueError], and it needs a long date in the text. *)
Theorem period_outcome (company_markers : list string) (text : string) :
  match extract_company_and_period company_markers text with
  | Ok (_, None) => Re.date_search MONTHS text = None
  | Ok (_, Some p) =>
      exists mo da ye,
        Re.date_search MONTHS text = Some (mo, da, ye)
        /\ year p = int_of_digits ye /\ 1900 <= year p <= 2099
        /\ list_index (upper mo) MONTHS = Ok (month p - 1) /\ 1 <= month p <= 12
        /\ day p = int_of_digits da /\ 1 <= day p <= days_in_month (year p) (month p)
  | Err e => e = ValueError /\ Re.date_search MONTHS text <> None
  end.
Proof.
  unfold extract_company_and_period.
  destruct (Re.date_search MONTHS text) as [[[mo da] ye]|] eqn:E; [|reflexivity].
  destruct (DateFacts.date_search_spec _ _ _ _ E) as ((i & Ei & Hi) & Hd & Hy).
  rewrite Ei. cbn [mbind result_bind]. unfold make_date.
  destruct (_ && _) eqn:Eb.
  - cbn [mbind result_bind]. exists mo, da, ye. cbn [year month day].
    rewrite !andb_true_iff, !Z.leb_le in Eb.
    replace (i + 1 - 1) with i by lia.
    repeat split; try assumption; lia.
  - split; [reflexivity | discriminate].
Qed.

(* ===================================================================== *)
(** * Currency detection *)
(* ===================================================================== *)

Module CurrencyFacts.

Lemma find_first {A} (f : A -> bool) (pre : list A) x post :
  f x = true -> (forall y, In y pre -> f y = false) ->
  List.find f (pre ++ x :: post)%list = Some x.
Proof.
  intros Hx. induction pre as [|y pre IH]; intros Hpre; simpl.
  - now rewrite Hx.
  - rewrite (Hpre y (or_introl eq_refl)). apply IH. intros z Hz. apply Hpre. now right.
Qed.

Lemma find_none_all {A} (f : A -> bool) (l : list A) :
  List.find f l = None <-> forall y, In y l -> f y = false.
Proof.
  induction l as [|x l IH]; simpl.
  - split; [intros _ y [] | reflexivity].
  - destruct (f x) eqn:E.
    + split; [discriminate|]. intros H. rewrite (H x (or_introl eq_refl)) in E. discriminate.
    + rewrite IH. split.
      * intros H y [<-|Hy]; [exact E | now apply H].
      * intros H y Hy. apply H. now right.
Qed.

Lemma auto_is_no_code : ~ In "AUTO" currency_codes.
Proof.
  intros H. repeat (destruct H as [H|H]; [discriminate H|]). destruct H.
Qed.

End CurrencyFacts.

(** X8.  The currency codes are tried in the order of the list: the first
    code of the list found in the upper-cased text is the answer, whatever
    codes follow it in the list or come before it in the text. *)
Theorem currency_first_code (text : string) (pre : list string) (code : string)
        (post : list string) :
  currency_codes = (pre ++ code :: post)%list ->
  Str.contains code (upper_text text) = true ->
  (forall c, In c pre -> Str.contains c (upper_text text) = false) ->
  detect_currency text = code.
Proof.
  intros Hl Hc Hpre. unfold detect_currency. rewrite Hl.
  now rewrite (CurrencyFacts.find_first _ pre code post Hc Hpre).
Qed.

Lemma currency_first_code_witness :
  detect_currency "Amounts in eur, converted from Cad" = "CAD".
Proof.
  apply (currency_first_code _ ["USD"] "CAD"
           ["EUR"; "GBP"; "AUD"; "NZD"; "JPY"; "CHF"; "SEK"; "NOK"; "DKK";
            "HKD"; "SGD"; "INR"]).
  - reflexivity.
  - vm_compute. reflexivity.
  - intros c [<-|[]]. vm_compute. reflexivity.
Defined.

(** X9.  [detect_currency] answers one of the fourteen codes or [AUTO].
    It answers [AUTO] only when the upper-cased text holds no code and the
    text no pound sign; and a text with a pound sign and no code gives
    [GBP]. *)
Theorem currency_range (text : string) :
  In (detect_currency text) ("AUTO" :: currency_codes)
  /\ (detect_currency text = "AUTO" ->
      (forall c, In c currency_codes -> Str.contains c (upper_text text) = false)
      /\ Str.contains (String (ascii_of_N 163) EmptyString) text = false)
  /\ ((forall c, In c currency_codes -> Str.contains c (upper_text text) = false) ->
      Str.contains (String (ascii_of_N 163) EmptyString) text = true ->
      detect_currency text = "GBP").
Proof.
  unfold detect_currency.
  destruct (List.find _ currency_codes) as [code|] eqn:E.
  - apply find_some in E as [Hin Hc]. split; [now right|]. split.
    + intros ->. destruct (CurrencyFacts.auto_is_no_code Hin).
    + intros H _. rewrite (H code Hin) in Hc. discriminate.
  - pose proof (proj1 (CurrencyFacts.find_none_all _ _) E) as Hnone.
    destruct (Str.contains _ text) eqn:Ep.
    + split; [right; do 3 right; now left|]. split; [discriminate | reflexivity].
    + split; [now left|]. split; [intros _; split; [exact Hnone | reflexivity] | discriminate].
Qed.

(* ===================================================================== *)
(** * The labels of the buckets *)
(* ===================================================================== *)

Lemma for_each_invariant {S A} (body : S -> A -> result S) (P : S -> Prop) (xs : list A) :
  (forall s a s', In a xs -> P s -> body s a = Ok s' -> P s') ->
  forall s s', P s -> for_each body xs s = Ok s' -> P s'.
Proof.
  induction xs as [|x xs IH]; intros Hbody s s' Hs; cbn [for_each].
  - now intros [= <-].
  - destruct (body s x) as [s1|e] eqn:E; cbn [mbind result_bind]; [|discriminate].
    apply IH.
    + intros t a t' Ha. apply Hbody. now right.
    + apply (Hbody s x s1); [now left | exact Hs | exact E].
Qed.

Section LabelFacts.
Variable CANON : list (string * desc).
Variable company_markers : list string.
Variable re_search : string -> string -> bool.
Variable extractOne : string -> list string -> option (string * Float.float).
Variable today_year : Z.

Lemma regex_pass_key lab k :
  regex_pass CANON re_search lab = Some k -> In k (map fst CANON).
Proof.
  unfold regex_pass.
  destruct (List.find (entry_matches re_search lab) CANON) as [e|] eqn:E; [|discriminate].
  intros [= <-]. apply find_some in E as [Hin _]. now apply in_map.
Qed.

Lemma synonyms_fold_key (Q : string -> Prop) key (syns : list string) :
  Q key ->
  forall m : gmap string string,
    (forall c k, m !! c = Some k -> Q k) ->
    forall c k,
      fold_left (fun m s => <[Str.lower s := key]> m) syns m !! c = Some k -> Q k.
Proof.
  intros Hkey. induction syns as [|s syns IH]; intros m Hm c k; simpl; [apply Hm|].
  apply IH. intros c' k'.
  destruct (decide (Str.lower s = c')) as [->|Hne].
  - rewrite lookup_insert_eq. now intros [= <-].
  - rewrite lookup_insert_ne by exact Hne. apply Hm.
Qed.

Lemma canon_fold_key (Q : string -> Prop) (entries : list (string * desc)) :
  (forall e, In e entries -> Q (fst e)) ->
  forall m : gmap string string,
    (forall c k, m !! c = Some k -> Q k) ->
    forall c k,
      fold_left
        (fun m '(canon_key, d) =>
           fold_left (fun m s => <[Str.lower s := canon_key]> m) (synonyms d) m)
        entries m !! c = Some k -> Q k.
Proof.
  induction entries as [|[key d] entries IH]; intros He m Hm c k; simpl; [apply Hm|].
  apply IH.
  - intros e Hin. apply He. now right.
  - apply synonyms_fold_key; [|exact Hm]. apply (He (key, d)). now left.
Qed.

Lemma canon_key_for_key c k : CANON_KEY_FOR CANON !! c = Some k -> In k (map fst CANON).
Proof.
  unfold CANON_KEY_FOR. apply (canon_fold_key (fun k => In k (map fst CANON))).
  - intros e Hin. now apply in_map.
  - intros c' k'. rewrite lookup_empty. discriminate.
Qed.

Lemma match_canonical_key label k :
  match_canonical CANON re_search extractOne label = Some k -> In k (map fst CANON).
Proof.
  unfold match_canonical.
  destruct (regex_pass CANON re_search (Str.lower label)) as [k0|] eqn:E.
  - intros [= <-]. now apply (regex_pass_key (Str.lower label)).
  - unfold fuzzy_pass. destruct (extractOne _ _) as [[choice score]|]; [|discriminate].
    destruct (Float.leb threshold score); [|discriminate]. apply canon_key_for_key.
Qed.

Lemma change_fallback_key label k :
  change_fallback label = Some k -> In k (map snd change_map).
Proof.
  unfold change_fallback. destruct (List.find _ change_map) as [e|] eqn:E; [|discriminate].
  intros [= <-]. apply find_some in E as [Hin _]. now apply in_map.
Qed.

Lemma resolve_key label k :
  resolve CANON re_search extractOne label = Some k -> known_key CANON k.
Proof.
  unfold resolve.
  destruct (truthy (match_canonical CANON re_search extractOne label)).
  - intros H. left. now apply (match_canonical_key label).
  - destruct (change_fallback label) as [ck|] eqn:E.
    + intros [= <-]. right. now apply (change_fallback_key label).
    + intros H. left. now apply (match_canonical_key label).
Qed.

Lemma write_labels y canon v (raw raw' : buckets) :
  known_key CANON canon -> labels_known CANON raw ->
  write y canon v raw = Ok raw' -> labels_known CANON raw'.
Proof.
  intros Hk Hraw. unfold write. destruct (raw !! y) as [flat|] eqn:E; [|discriminate].
  intros [= <-] y' flat' k.
  destruct (decide (y = y')) as [<-|Hne].
  - rewrite lookup_insert_eq. intros [= <-].
    destruct (decide (canon = k)) as [<-|Hnk]; [intros _; exact Hk|].
    rewrite lookup_insert_ne by exact Hnk. now apply (Hraw y flat).
  - rewrite lookup_insert_ne by exact Hne. apply Hraw.
Qed.

Lemma process_line_labels years ctx (raw raw' : buckets) line :
  labels_known CANON raw ->
  process_line CANON re_search extractOne years ctx raw line = Ok raw' ->
  labels_known CANON raw'.
Proof.
  intros Hraw. unfold process_line.
  destruct (Str.is_empty (Str.strip line)); [now intros [= <-]|].
  destruct (is_nil (nums_of line)); [now intros [= <-]|].
  destruct (Str.is_empty (label_part_of line)); [now intros [= <-]|].
  destruct (resolve CANON re_search extractOne (label_part_of line)) as [canon|] eqn:Er;
    [|now intros [= <-]].
  apply resolve_key in Er.
  destruct (negb (truthy (Some canon))); [now intros [= <-]|].
  change (default EmptyString (Some canon)) with canon.
  destruct (values_of line) as [values|e0]; cbn [mbind result_bind]; [|discriminate].
  destruct (is_nil values); [now intros [= <-]|].
  destruct (_ && _).
  - destruct (py_index values (-2)) as [a|]; cbn [mbind result_bind]; [|discriminate].
    destruct (py_index values (-1)) as [b|]; cbn [mbind result_bind]; [|discriminate].
    destruct (py_max years) as [hi|]; cbn [mbind result_bind]; [|discriminate].
    destruct (write hi canon a raw) as [raw1|] eqn:E1; cbn [mbind result_bind];
      [|discriminate].
    destruct (py_min years) as [lo|]; cbn [mbind result_bind]; [|discriminate].
    apply write_labels; [exact Er|]. now apply (write_labels hi canon a raw).
  - destruct (py_index values (-1)) as [b|]; cbn [mbind result_bind]; [|discriminate].
    now apply write_labels.
Qed.

Lemma process_page_labels years (st st' : Z * buckets) t :
  labels_known CANON (snd st) ->
  process_page CANON re_search extractOne years st t = Ok st' ->
  labels_known CANON (snd st').
Proof.
  destruct st as [ctx raw]. cbn [snd]. intros Hraw. unfold process_page.
  destruct (match map int_of_digits (Re.year_findall t) with
            | [] => Ok ctx
            | _ :: _ => py_max (map int_of_digits (Re.year_findall t))
            end) as [c|]; cbn [mbind result_bind]; [|discriminate].
  destruct (for_each _ (Str.splitlines t) raw) as [raw1|] eqn:E;
    cbn [mbind result_bind]; [|discriminate].
  intros [= <-]. cbn [snd].
  apply (for_each_invariant _ (labels_known CANON) _
           (fun s a s' _ => process_line_labels years c s s' a) raw raw1 Hraw E).
Qed.

Lemma initial_labels (years : list Z) :
  labels_known CANON (list_to_map (map (fun y => (y, ∅)) years)).
Proof.
  intros y flat k E. apply elem_of_list_to_map_2 in E.
  apply list_elem_of_In, in_map_iff in E as (y0 & [= _ <-] & _).
  rewrite lookup_empty. intros [v Hv]. discriminate.
Qed.

(** X10.  Every label under which [parse_pdf_to_year_buckets] files an
    amount, in any year bucket, is a key of the taxonomy or one of the
    seven [change_*] keys of the fallback table: no other string, and in
    particular no text of the document, becomes a label. *)
Theorem bucket_labels_known (pages_text : list string) company period currency
        (raw : buckets) :
  parse_pdf_to_year_buckets CANON company_markers re_search extractOne today_year
    pages_text = Ok (company, period, currency, raw) ->
  forall (y : Z) (flat : gmap string Float.float) (k : string),
    raw !! y = Some flat -> is_Some (flat !! k) ->
    In k (map fst CANON) \/ In k (map snd change_map).
Proof.
  unfold parse_pdf_to_year_buckets.
  destruct (for_each (detect_step company_markers) pages_text (None, None))
    as [[c p]|]; cbn [mbind result_bind]; [|discriminate].
  destruct (py_max _) as [hi|]; cbn [mbind result_bind]; [|discriminate].
  destruct (for_each _ pages_text _) as [[ctx1 raw1]|] eqn:E; cbn [mbind result_bind];
    [|discriminate].
  intros H. injection H as _ _ _ Hr. subst raw.
  pose proof (for_each_invariant _ (fun st => labels_known CANON (snd st)) _
                (fun s a s' _ => process_page_labels _ s s' a) _ _
                (initial_labels _ : labels_known CANON (snd (hi, _))) E) as H.
  exact H.
Qed.

End LabelFacts.

Lemma result_cases {A} (r : result A) : (exists a, r = Ok a) \/ (exists e, r = Err e).
Proof. destruct r; eauto. Qed.

Lemma sample_parse_ok :
  exists c p cur raw, sample_parse sample_pages = Ok (c, p, cur, raw).
Proof.
  assert (H : match sample_parse sample_pages with Ok _ => true | Err _ => false end = true)
    by (vm_compute; reflexivity).
  pose proof (result_cases (sample_parse sample_pages)) as C.
  destruct C as [[[[[c p] cur] raw] E]|[e E]]; [eauto|].
  rewrite E in H. discriminate H.
Defined.

Lemma bucket_labels_known_witness :
  exists company period currency (raw : buckets) flat,
    sample_parse sample_pages = Ok (company, period, currency, raw)
    /\ raw !! 2023 = Some flat
    /\ is_Some (flat !! "change_inventories")
    /\ (In "change_inventories" (map fst sample_canon)
        \/ In "change_inventories" (map snd change_map)).
Proof.
  destruct sample_parse_ok as (c & p & cur & raw & E).
  assert (Hf : match sample_parse sample_pages with
               | Ok (_, _, _, raw) =>
                   match raw !! 2023 with
                   | Some flat => bool_decide (is_Some (flat !! "change_inventories"))
                   | None => false
                   end
               | Err _ => false
               end = true) by (vm_compute; reflexivity).
  rewrite E in Hf. destruct (raw !! 2023) as [flat|] eqn:Hy; [|discriminate Hf].
  apply bool_decide_eq_true_1 in Hf as Hk.
  exists c, p, cur, raw, flat. split; [exact E|]. split; [exact Hy|].
  split; [exact Hk|].
  exact (bucket_labels_known sample_canon ["Inc"; "Ltd"] literal_search exact_extract
           2026 sample_pages c p cur raw E 2023 flat "change_inventories" Hy Hk).
Defined.

(* ===================================================================== *)
(** * Company and period over the pages *)
(* ===================================================================== *)

Section HeaderFacts.
Variable CANON : list (string * desc).
Variable company_markers : list string.
Variable re_search : string -> string -> bool.
Variable extractOne : string -> list string -> option (string * Float.float).
Variable today_year : Z.

Local Abbreviation extract0 := (extract_company_and_period company_markers).
Local Abbreviation detect0 := (detect_step company_markers).

Lemma detect_step_eq co pe t :
  detect0 (co, pe) t =
  if negb (truthy co) || negb (has_date pe) then
    match extract0 t with
    | Ok (c, p) =>
        Ok (if truthy c && (negb (truthy co) || (olen co <? olen c)) then c else co,
            if has_date p && negb (has_date pe) then p else pe)
    | Err e => Err e
    end
  else Ok (co, pe).
Proof.
  unfold detect_step. destruct (_ || _); [|reflexivity].
  destruct (extract0 t) as [[c p]|e]; reflexivity.
Qed.

Lemma extract_candidate t c p :
  extract0 t = Ok (Some c, p) -> candidate company_markers t c.
Proof.
  intros E. apply extract_company_eq in E. symmetry in E. revert c E.
  apply company_fold_candidate.
  - intros line Hin Hm H5. exists line. now repeat split.
  - discriminate.
Qed.

Lemma detect_step_company pages st st' t :
  In t pages ->
  (forall c, fst st = Some c -> exists t, In t pages /\ candidate company_markers t c) ->
  detect0 st t = Ok st' ->
  forall c, fst st' = Some c -> exists t, In t pages /\ candidate company_markers t c.
Proof.
  destruct st as [co pe]. intros Ht Hst. rewrite detect_step_eq.
  destruct (_ || _); [|now intros [= <-]].
  destruct (extract0 t) as [[c p]|e] eqn:E; [|discriminate].
  intros [= <-]. cbn [fst].
  destruct (truthy c && _); [|exact Hst].
  intros c' ->. exists t. split; [exact Ht | now apply (extract_candidate t c' p)].
Qed.

(** Once found, the period is kept. *)
Lemma period_kept pages : forall co d st',
  for_each detect0 pages (co, Some d) = Ok st' -> snd st' = Some d.
Proof.
  induction pages as [|t pages IH]; intros co d st'; cbn [for_each].
  - now intros [= <-].
  - rewrite detect_step_eq.
    destruct (_ || _).
    + destruct (extract0 t) as [[c p]|e]; cbn [mbind result_bind]; [|discriminate].
      cbn [has_date negb]. rewrite andb_false_r. apply IH.
    + cbn [mbind result_bind]. apply IH.
Qed.

(** The period is the date of the first page that has one. *)
Lemma detect_loop_period pages : forall co st',
  for_each detect0 pages (co, None) = Ok st' ->
  match snd st' with
  | Some d =>
      exists pre t post c,
        pages = (pre ++ t :: post)%list /\ extract0 t = Ok (c, Some d)
        /\ forall t', In t' pre -> exists c', extract0 t' = Ok (c', None)
  | None => forall t, In t pages -> exists c, extract0 t = Ok (c, None)
  end.
Proof.
  induction pages as [|t pages IH]; intros co st'; cbn [for_each].
  - intros [= <-]. cbn [snd]. intros t [].
  - rewrite detect_step_eq. cbn [has_date negb]. rewrite orb_true_r.
    destruct (extract0 t) as [[c [d|]]|e] eqn:E; cbn [mbind result_bind];
      [| |discriminate].
    + cbn [has_date andb]. intros H. rewrite (period_kept _ _ _ _ H).
      exists [], t, pages, c. split; [reflexivity|]. split; [exact E|]. intros t' [].
    + cbn [has_date andb]. intros H. specialize (IH _ _ H).
      destruct (snd st') as [d|].
      * destruct IH as (pre & t0 & post & c0 & -> & E0 & Hpre).
        exists (t :: pre), t0, post, c0. split; [reflexivity|]. split; [exact E0|].
        intros t' [<-|Hin]; [eauto | now apply Hpre].
      * intros t' [<-|Hin]; [eauto | now apply IH].
Qed.

(** X11.  The company [parse_pdf_to_year_buckets] returns is [UNKNOWN] or
    the stripped form of a marker line, longer than five characters, of
    one of the pages. *)
Theorem company_from_pages (pages_text : list string) company period currency
        (raw : buckets) :
  parse_pdf_to_year_buckets CANON company_markers re_search extractOne today_year
    pages_text = Ok (company, period, currency, raw) ->
  company = "UNKNOWN"
  \/ exists t, In t pages_text /\ candidate company_markers t company.
Proof.
  unfold parse_pdf_to_year_buckets.
  destruct (for_each detect0 pages_text (None, None)) as [[co pe]|] eqn:E;
    cbn [mbind result_bind]; [|discriminate].
  destruct (py_max _) as [hi|]; cbn [mbind result_bind]; [|discriminate].
  destruct (for_each (process_page _ _ _ _) pages_text _) as [[ctx1 raw1]|];
    cbn [mbind result_bind]; [|discriminate].
  intros H. injection H as Hc _ _ _. subst company.
  destruct (truthy co) eqn:Et; [|now left]. right.
  destruct co as [c|]; [|discriminate Et]. cbn [default].
  apply (for_each_invariant detect0
           (fun st => forall c, fst st = Some c ->
                        exists t, In t pages_text /\ candidate company_markers t c)
           pages_text
           (fun s a s' Ha => detect_step_company pages_text s s' a Ha)
           (None, None) (Some c, pe)); [discriminate | exact E | reflexivity].
Qed.

(** X12.  The period [parse_pdf_to_year_buckets] returns is the date of the
    first page that holds a long date; the pages before it hold none, and
    without a period no page holds one.  A later page never replaces it. *)
Theorem period_first_date (pages_text : list string) company period currency
        (raw : buckets) :
  parse_pdf_to_year_buckets CANON company_markers re_search extractOne today_year
    pages_text = Ok (company, period, currency, raw) ->
  match period with
  | Some d =>
      exists pre t post c,
        pages_text = (pre ++ t :: post)%list
        /\ extract_company_and_period company_markers t = Ok (c, Some d)
        /\ forall t', In t' pre ->
             exists c', extract_company_and_period company_markers t' = Ok (c', None)
  | None =>
      forall t, In t pages_text ->
        exists c, extract_company_and_period company_markers t = Ok (c, None)
  end.
Proof.
  unfold parse_pdf_to_year_buckets.
  destruct (for_each detect0 pages_text (None, None)) as [[co pe]|] eqn:E;
    cbn [mbind result_bind]; [|discriminate].
  destruct (py_max _) as [hi|]; cbn [mbind result_bind]; [|discriminate].
  destruct (for_each (process_page _ _ _ _) pages_text _) as [[ctx1 raw1]|];
    cbn [mbind result_bind]; [|discriminate].
  intros H. injection H as _ Hp _ _. subst period.
  exact (detect_loop_period pages_text None (co, pe) E).
Qed.

End HeaderFacts.

Lemma company_from_pages_witness :
  exists period currency (raw : buckets),
    sample_parse sample_pages = Ok ("Acme Widgets Ltd", period, currency, raw)
    /\ ("Acme Widgets Ltd" = "UNKNOWN"
        \/ exists t, In t sample_pages /\ candidate ["Inc"; "Ltd"] t "Acme Widgets Ltd").
Proof.
  destruct sample_parse_ok as (c & p & cur & raw & E).
  assert (Hc : match sample_parse sample_pages with
               | Ok (c, _, _, _) => String.eqb c "Acme Widgets Ltd"
               | Err _ => false
               end = true) by (vm_compute; reflexivity).
  rewrite E in Hc. apply String.eqb_eq in Hc. subst c.
  exists p, cur, raw. split; [exact E|].
  exact (company_from_pages sample_canon ["Inc"; "Ltd"] literal_search exact_extract
           2026 sample_pages _ p cur raw E).
Defined.

Lemma period_first_date_witness :
  exists company currency (raw : buckets),
    sample_parse sample_pages = Ok (company, Some (Date 2023 3 31), currency, raw)
    /\ exists pre t post c,
         sample_pages = (pre ++ t :: post)%list
         /\ extract_company_and_period ["Inc"; "Ltd"] t = Ok (c, Some (Date 2023 3 31))
         /\ forall t', In t' pre ->
              exists c', extract_company_and_period ["Inc"; "Ltd"] t' = Ok (c', None).
Proof.
  destruct sample_parse_ok as (c & p & cur & raw & E).
  assert (Hp : match sample_parse sample_pages with
               | Ok (_, Some (Date y m d), _, _) => (y =? 2023) && (m =? 3) && (d =? 31)
               | _ => false
               end = true) by (vm_compute; reflexivity).
  rewrite E in Hp. destruct p as [[y m d]|]; [|discriminate Hp].
  apply andb_prop in Hp as [Hp Hd]. apply andb_prop in Hp as [Hy Hm].
  apply Z.eqb_eq in Hy, Hm, Hd. subst y m d.
  exists c, cur, raw. split; [exact E|].
  exact (period_first_date sample_canon ["Inc"; "Ltd"] literal_search exact_extract
           2026 sample_pages c _ cur raw E).
Defined.

(* ===================================================================== *)
(** * The checks of a rolled-up payload *)
(* ===================================================================== *)

Section RollupChecks.
Variable ROLLUPS : rollups.
Variable float_repr : Float.float -> string.
Variable builtin_sum : list Float.float -> Float.float.
Variables (company : string) (period : option date) (currency : string)
          (fiscal_year : Z).

Local Infix "+." := Float.add (at level 50, left associativity).
Local Infix "-." := Float.sub (at level 50, left associativity).

(** X13.  The checks stored under [_diagnostics] by [rollup_payload] are
    taken from the payload, hence from totals already rounded to two
    decimals: the balance-sheet residual is the rounded difference of the
    rounded totals, and the income check uses the rounded expense total;
    the retained-earnings and cash checks use the amounts of the flat map
    as they are. *)
Theorem rollup_checks (r : gmap string Float.float) :
  let total keys := builtin_sum (map (g r) keys) in
  let loan := match loan_payable ROLLUPS with Some k => g r k | None => Float.zero end in
  exists payload,
    rollup_payload ROLLUPS float_repr builtin_sum company period currency fiscal_year r
      = Ok payload
    /\ amount ["_diagnostics"; "checks"; "balance_sheet_identity"] payload
       = Ok (Float.round2
               (Float.round2 (total (current_assets ROLLUPS) +. total (singletons ROLLUPS))
                -. (Float.round2 (total (current_liabilities ROLLUPS))
                    +. Float.round2 loan
                    +. Float.round2 (total (shareholders_equity ROLLUPS)))))
    /\ amount ["_diagnostics"; "checks"; "retained_earnings_recon"] payload
       = Ok (Float.round2
               ((g r "retained_earnings_beginning" +. g r "net_income" +. g r "dividends")
                -. g r "retained_earnings_end_of_year"))
    /\ amount ["_diagnostics"; "checks"; "cash_bridge"] payload
       = Ok (Float.round2
               ((g r "cash_beginning" +. g r "increase_in_cash") -. g r "cash_end"))
    /\ amount ["_diagnostics"; "checks"; "ibt_vs_rev_minus_exp"] payload
       = Ok (Float.round2
               ((g r "revenue" -. Float.round2 (total (expenses ROLLUPS)))
                -. g r "income_before_income_taxes")).
Proof.
  intros total loan. unfold rollup_payload.
  match goal with
  | |- context [diagnostics float_repr (JObj ?p)] => set (fields := p)
  end.
  eassert (Hd : diagnostics float_repr (JObj fields) = Ok _).
  { eapply diagnostics_value;
      cbv [fields amount item dict_get of_option number mbind result_bind gf group
           String.eqb Ascii.eqb Bool.eqb andb]; reflexivity. }
  rewrite Hd. cbn [mbind result_bind].
  eexists. split; [reflexivity|].
  repeat split;
  cbv [fields amount item dict_get dict_set of_option number mbind result_bind gf group
       String.eqb Ascii.eqb Bool.eqb andb map sum_keys total loan].
  all: reflexivity.
Qed.
End RollupChecks.


(* ===================================================================== *)
(** * The groups of a rolled-up payload *)
(* ===================================================================== *)

Lemma dict_get_set {V} k k' (v : V) d :
  dict_get k (dict_set k' v d) = if String.eqb k' k then Some v else dict_get k d.
Proof.
  induction d as [|[a b] d IH]; simpl.
  - reflexivity.
  - destruct (String.eqb a k') eqn:E; simpl.
    + apply String.eqb_eq in E. subst a. now destruct (String.eqb k' k).
    + destruct (String.eqb a k) eqn:Ea.
      * apply String.eqb_eq in Ea. subst a. now rewrite String.eqb_sym, E.
      * exact IH.
Qed.

Lemma dict_get_fold {V} (f : string -> V) keys k : forall d,
  dict_get k (fold_left (fun d k => dict_set k (f k) d) keys d)
  = if listed k keys then Some (f k) else dict_get k d.
Proof.
  unfold listed. induction keys as [|a keys IH]; intros d; simpl; [reflexivity|].
  rewrite IH, dict_get_set.
  destruct (existsb (String.eqb k) keys); rewrite ?orb_true_r; [reflexivity|].
  rewrite orb_false_r, (String.eqb_sym a k).
  destruct (String.eqb k a) eqn:E; [|reflexivity].
  apply String.eqb_eq in E. now subst a.
Qed.

Lemma dict_get_comp {V} (f : string -> V) keys k :
  dict_get k (dict_comp f keys) = if listed k keys then Some (f k) else None.
Proof. unfold dict_comp. now rewrite dict_get_fold. Qed.

Lemma components_amount r keys k : amount [k] (components r keys) = component r keys k.
Proof.
  unfold component, components. cbn [amount item]. rewrite dict_get_comp.
  now destruct (listed k keys).
Qed.

Section GroupFacts.
Variable ROLLUPS : rollups.
Variable float_repr : Float.float -> string.
Variable builtin_sum : list Float.float -> Float.float.
Variables (company : string) (period : option date) (currency : string)
          (fiscal_year : Z).

(** X15.  In each of the four groups of the payload, [components] shows,
    for every key the taxonomy lists for the group, the amount of that key
    (0.0 when the flat map lacks it) and has no other entry; [total] is
    the rounded sum over the key list as it stands, so a key listed twice
    is shown once and counted twice. *)
Theorem group_components (r : gmap string Float.float) :
  exists payload,
    rollup_payload ROLLUPS float_repr builtin_sum company period currency fiscal_year r
      = Ok payload
    /\ (forall k,
         amount ["balance_sheet"; "assets"; "current_assets"; "components"; k] payload
           = component r (current_assets ROLLUPS) k
         /\ amount ["balance_sheet"; "liabilities_and_equity"; "current_liabilities";
                    "components"; k] payload
           = component r (current_liabilities ROLLUPS) k
         /\ amount ["balance_sheet"; "liabilities_and_equity"; "shareholders_equity";
                    "components"; k] payload
           = component r (shareholders_equity ROLLUPS) k
         /\ amount ["income_statement"; "expenses"; "components"; k] payload
           = component r (expenses ROLLUPS) k)
    /\ amount ["balance_sheet"; "assets"; "current_assets"; "total"] payload
       = Ok (Float.round2 (builtin_sum (map (g r) (current_assets ROLLUPS))))
    /\ amount ["balance_sheet"; "liabilities_and_equity"; "current_liabilities"; "total"]
         payload
       = Ok (Float.round2 (builtin_sum (map (g r) (current_liabilities ROLLUPS))))
    /\ amount ["balance_sheet"; "liabilities_and_equity"; "shareholders_equity"; "total"]
         payload
       = Ok (Float.round2 (builtin_sum (map (g r) (shareholders_equity ROLLUPS))))
    /\ amount ["income_statement"; "expenses"; "total"] payload
       = Ok (Float.round2 (builtin_sum (map (g r) (expenses ROLLUPS)))).
Proof.
  unfold rollup_payload.
  match goal with
  | |- context [diagnostics float_repr (JObj ?p)] => set (fields := p)
  end.
  eassert (Hd : diagnostics float_repr (JObj fields) = Ok _).
  { eapply diagnostics_value;
      cbv [fields amount item dict_get of_option number mbind result_bind gf group
           String.eqb Ascii.eqb Bool.eqb andb]; reflexivity. }
  rewrite Hd. cbn [mbind result_bind].
  eexists. split; [reflexivity|]. split.
  - intros k. repeat split; rewrite <- components_amount; reflexivity.
  - repeat split;
      cbv [fields amount item dict_get dict_set of_option number mbind result_bind gf group
           String.eqb Ascii.eqb Bool.eqb andb sum_keys];
      reflexivity.
Qed.
End GroupFacts.

(* ===================================================================== *)
(** * The endpoints *)
(* ===================================================================== *)

Lemma insert_item_In {V} (x y : Z * V) l : In x (insert_item y l) <-> x = y \/ In x l.
Proof.
  induction l as [|z l IH]; simpl.
  - intuition congruence.
  - destruct (fst y <? fst z); simpl; [intuition congruence|]. rewrite IH. tauto.
Qed.

Lemma insert_item_sorted {V} (y : Z * V) l :
  StronglySorted (fun a b => fst a < fst b) l ->
  (forall z, In z l -> fst z <> fst y) ->
  StronglySorted (fun a b => fst a < fst b) (insert_item y l).
Proof.
  induction 1 as [|z l Hl IH Hz]; intros Hne; simpl.
  - constructor; constructor.
  - destruct (fst y <? fst z) eqn:E.
    + apply Z.ltb_lt in E. constructor; [now constructor|].
      constructor; [exact E|]. rewrite Forall_forall in Hz |- *.
      intros w Hw. specialize (Hz w (proj2 (list_elem_of_In _ _) (proj1 (list_elem_of_In _ _) Hw))). lia.
    + apply Z.ltb_ge in E. constructor.
      * apply IH. intros w Hw. apply Hne. now right.
      * rewrite Forall_forall in Hz |- *. intros w Hw.
        apply list_elem_of_In, insert_item_In in Hw as [->|Hw].
        -- pose proof (Hne z (or_introl eq_refl)). lia.
        -- apply Hz. now apply list_elem_of_In.
Qed.

Lemma foldr_insert_item {V} (l : list (Z * V)) :
  NoDup (map fst l) ->
  StronglySorted (fun a b => fst a < fst b) (foldr insert_item [] l)
  /\ forall x, In x (foldr insert_item [] l) <-> In x l.
Proof.
  induction l as [|y l IH]; simpl; intros Hnd.
  - split; [constructor | tauto].
  - apply NoDup_cons in Hnd as [Hy Hnd]. destruct (IH Hnd) as [Hs Hin]. split.
    + apply insert_item_sorted; [exact Hs|]. intros z Hz E. apply Hy.
      apply list_elem_of_In. rewrite <- E. apply in_map. now apply Hin.
    + intros x. rewrite insert_item_In, Hin. intuition congruence.
Qed.

Lemma sorted_keys {V} (l : list (Z * V)) :
  StronglySorted (fun a b => fst a < fst b) l -> ascending (map fst l).
Proof.
  unfold ascending. induction 1 as [|z l Hl IH Hz]; simpl; constructor; [exact IH|].
  rewrite Forall_forall in Hz. rewrite Forall_forall. intros w Hw.
  apply list_elem_of_In, in_map_iff in Hw as (p & <- & Hp).
  apply Hz. now apply list_elem_of_In.
Qed.

(** The sorted items of a map: ascending in the keys, and the pairs of the
    map. *)
Lemma sorted_items_spec {V} (m : gmap Z V) :
  ascending (map fst (sorted_items m))
  /\ forall y v, In (y, v) (sorted_items m) <-> m !! y = Some v.
Proof.
  destruct (foldr_insert_item (map_to_list m)) as [Hs Hin].
  - change (map fst (map_to_list m)) with ((map_to_list m).*1).
    apply NoDup_fst_map_to_list.
  - split.
    + now apply sorted_keys.
    + intros y v. unfold sorted_items. rewrite Hin, <- list_elem_of_In.
      apply elem_of_map_to_list.
Qed.

Section EndpointFacts.
Variable CANON : list (string * desc).
Variable ROLLUPS : rollups.
Variable company_markers : list string.
Variable re_search : string -> string -> bool.
Variable extractOne : string -> list string -> option (string * Float.float).
Variable today_year : Z.
Variable float_repr : Float.float -> string.
Variable builtin_sum : list Float.float -> Float.float.
Variable exn_text : exn -> string.

Local Abbreviation upload0 :=
  (upload_statement CANON ROLLUPS company_markers re_search extractOne today_year
     float_repr builtin_sum exn_text).

(** The head of a rolled-up payload. *)
Lemma rollup_payload_head company period currency fiscal_year
      (r : gmap string Float.float) :
  exists payload,
    rollup_payload ROLLUPS float_repr builtin_sum company period currency fiscal_year r
      = Ok payload
    /\ item "company" payload = Ok (JStr company)
    /\ item "fiscal_year" payload = Ok (JInt fiscal_year)
    /\ item "period_end" payload
       = Ok (match period with Some d => JStr (isoformat d) | None => JNull end)
    /\ item "currency" payload = Ok (JStr currency).
Proof.
  unfold rollup_payload.
  match goal with
  | |- context [diagnostics float_repr (JObj ?p)] => set (fields := p)
  end.
  eassert (Hd : diagnostics float_repr (JObj fields) = Ok _).
  { eapply diagnostics_value;
      cbv [fields amount item dict_get of_option number mbind result_bind gf group
           String.eqb Ascii.eqb Bool.eqb andb]; reflexivity. }
  rewrite Hd. cbn [mbind result_bind].
  eexists. split; [reflexivity|].
  repeat split;
    cbv [fields item dict_get dict_set of_option String.eqb Ascii.eqb Bool.eqb andb];
    reflexivity.
Qed.

Lemma upload_step_spec filename company period currency done entry :
  exists st,
    upload_step ROLLUPS float_repr builtin_sum filename company period currency done entry
      = Ok (done ++ [st])%list
    /\ statement_for ROLLUPS float_repr builtin_sum filename company period currency
                     entry st.
Proof.
  destruct entry as [y r]. unfold upload_step.
  destruct (rollup_payload_head company period currency y r)
    as (payload & Hp & Hc & Hy & Hd & Hcur).
  rewrite Hp. cbn [mbind result_bind]. unfold statement_of.
  rewrite Hc, Hy, Hd, Hcur. cbn [mbind result_bind].
  eexists. split; [reflexivity|]. exists payload. split; [exact Hp | reflexivity].
Qed.

Lemma upload_loop_spec filename company period currency entries : forall done,
  exists sts,
    for_each (upload_step ROLLUPS float_repr builtin_sum filename company period currency)
             entries done = Ok (done ++ sts)%list
    /\ Forall2 (statement_for ROLLUPS float_repr builtin_sum filename company period
                              currency) entries sts.
Proof.
  induction entries as [|e entries IH]; intros done; cbn [for_each].
  - exists []. rewrite app_nil_r. split; [reflexivity | constructor].
  - destruct (upload_step_spec filename company period currency done e) as (st & -> & Hst).
    cbn [mbind result_bind]. destruct (IH (done ++ [st])%list) as (sts & -> & Hsts).
    exists (st :: sts). rewrite <- app_assoc. split; [reflexivity | now constructor].
Qed.

(** X16.  For a file named [*.pdf] (in any case) whose pages parse,
    [upload_statement] raises nothing and executes exactly one statement
    per year bucket, in ascending order of the years; each statement binds
    the company, period and currency of the document, the file name, the
    year of the bucket and the serialised payload of that bucket. *)
Theorem upload_one_statement_per_year (filename : string) (pages_text : list string)
        company period currency (raw : buckets) :
  Str.endswith ".pdf" (Str.lower filename) = true ->
  parse_pdf_to_year_buckets CANON company_markers re_search extractOne today_year
    pages_text = Ok (company, period, currency, raw) ->
  exists statements,
    upload0 filename pages_text = Done statements
    /\ Forall2 (statement_for ROLLUPS float_repr builtin_sum filename company period
                              currency) (sorted_items raw) statements
    /\ ascending (map fst (sorted_items raw))
    /\ forall y r, In (y, r) (sorted_items raw) <-> raw !! y = Some r.
Proof.
  intros Hpdf Hparse. unfold upload_statement. rewrite Hpdf, Hparse. cbn [negb].
  destruct (upload_loop_spec filename company period currency (sorted_items raw) [])
    as (sts & -> & Hsts).
  exists sts. split; [reflexivity|]. split; [exact Hsts|]. apply sorted_items_spec.
Qed.

(** X17.  The outcomes of [upload_statement], up to the database.  A file
    whose name does not end in [.pdf] is refused with status 400, whatever
    its content.  For a PDF, status 500 is answered exactly when the parse
    raises, with the message of that exception; and when the parse returns,
    building the payloads and binding the parameters raises nothing. *)
Theorem upload_errors (filename : string) (pages_text : list string) :
  match upload0 filename pages_text with
  | Done _ =>
      Str.endswith ".pdf" (Str.lower filename) = true
      /\ exists parsed,
           parse_pdf_to_year_buckets CANON company_markers re_search extractOne
             today_year pages_text = Ok parsed
  | Failed (HTTPException status detail) =>
      (status = 400 /\ detail = "Only PDF files are supported."
       /\ Str.endswith ".pdf" (Str.lower filename) = false)
      \/ (status = 500 /\ Str.endswith ".pdf" (Str.lower filename) = true
          /\ exists e,
               parse_pdf_to_year_buckets CANON company_markers re_search extractOne
                 today_year pages_text = Err e
               /\ detail = "Parse error: " +:+ exn_text e)
  | Failed (Unhandled _) => False
  end.
Proof.
  unfold upload_statement.
  destruct (Str.endswith ".pdf" (Str.lower filename)); cbn [negb]; [|now left].
  destruct (parse_pdf_to_year_buckets _ _ _ _ _ pages_text) as [[[[c p] cur] raw]|e] eqn:E.
  - destruct (upload_loop_spec filename c p cur (sorted_items raw) []) as (sts & -> & _).
    split; [reflexivity | eauto].
  - right. split; [reflexivity|]. split; [reflexivity|]. exists e. now split.
Qed.

End EndpointFacts.

Lemma upload_one_statement_per_year_witness :
  exists company period currency (raw : buckets) statements,
    sample_parse sample_pages = Ok (company, period, currency, raw)
    /\ upload_statement sample_canon sample_rollups ["Inc"; "Ltd"] literal_search
         exact_extract 2026 sample_repr naive_sum (fun _ => "invalid")
         "Statements-2023.PDF" sample_pages = Done statements
    /\ Forall2 (statement_for sample_rollups sample_repr naive_sum "Statements-2023.PDF"
                              company period currency) (sorted_items raw) statements
    /\ ascending (map fst (sorted_items raw))
    /\ forall y r, In (y, r) (sorted_items raw) <-> raw !! y = Some r.
Proof.
  destruct sample_parse_ok as (c & p & cur & raw & E).
  exists c, p, cur, raw.
  destruct (upload_one_statement_per_year sample_canon sample_rollups ["Inc"; "Ltd"]
              literal_search exact_extract 2026 sample_repr naive_sum
              (fun _ => "invalid") "Statements-2023.PDF" sample_pages c p cur raw)
    as (sts & H); [vm_compute; reflexivity | exact E |].
  exists sts. split; [exact E | exact H].
Defined.

(** X18.  The query of [list_statements] is one of four fixed texts, chosen
    by which filters are given: the values of the filters never enter the
    text, they are bound as the parameters [c] and [y].  An empty company
    and the year 0 count as no filter. *)
Theorem list_statements_query (company : option string) (year : option Z) :
  let head :=
    "SELECT id, company, fiscal_year, period_end, payload FROM financial_statements" in
  let tail := " ORDER BY company, fiscal_year DESC" in
  fst (list_statements company year)
  = head
    +:+ (match truthy company, truthy_int year with
         | true, true => " WHERE company = :c AND fiscal_year = :y"
         | true, false => " WHERE company = :c"
         | false, true => " WHERE fiscal_year = :y"
         | false, false => EmptyString
         end)
    +:+ tail
  /\ dict_get "c" (snd (list_statements company year))
     = (if truthy company then JStr <$> company else None)
  /\ dict_get "y" (snd (list_statements company year))
     = (if truthy_int year then JInt <$> year else None)
  /\ list_statements (Some EmptyString) year = list_statements None year
  /\ list_statements company (Some 0) = list_statements company None.
Proof.
  intros head tail. unfold list_statements.
  destruct company as [[|a s]|], year as [[|n|n]|];
    cbn [truthy truthy_int Str.is_empty negb Z.eqb default];
    repeat split; reflexivity.
Qed.

(* ===================================================================== *)
(** * Labels hold no digit *)
(* ===================================================================== *)

Module PrefixFacts.
Import Str Re StrFacts.

Lemma take_char_split c s : fst (take_char c s) +:+ snd (take_char c s) = s.
Proof.
  destruct s as [|a r]; [reflexivity|]. unfold take_char.
  destruct (Ascii.eqb c a); reflexivity.
Qed.

Lemma take_while_split p s : fst (take_while p s) +:+ snd (take_while p s) = s.
Proof.
  induction s as [|a r IH]; [reflexivity|]. cbn [take_while].
  destruct (p a); [|reflexivity].
  destruct (take_while p r) as [t u]. cbn [fst snd] in *. simpl. now rewrite IH.
Qed.

Lemma take_digits3_split s : fst (take_digits3 s) +:+ snd (take_digits3 s) = s.
Proof.
  destruct s as [|a [|b [|c r]]]; cbn [take_digits3]; [reflexivity|..];
    destruct (is_digit a); cbn [andb]; try reflexivity;
    destruct (is_digit b); cbn [andb]; try reflexivity;
    destruct (is_digit c); reflexivity.
Qed.

Lemma take_groups_other c r :
  c <> ","%char -> take_groups (String c r) = (EmptyString, String c r).
Proof.
  intros H. destruct c as [[] [] [] [] [] [] [] []]; try reflexivity.
  destruct H. reflexivity.
Qed.

Lemma take_groups_split_bound n : forall s,
  (String.length s <= n)%nat -> fst (take_groups s) +:+ snd (take_groups s) = s.
Proof.
  induction n as [|n IH]; intros s Hn.
  - destruct s; [reflexivity | simpl in Hn; lia].
  - destruct s as [|c r]; [reflexivity|].
    destruct (ascii_dec c ",") as [->|Hc]; [|now rewrite take_groups_other].
    destruct r as [|a [|b [|d r]]]; try reflexivity.
    cbn [take_groups].
    destruct (is_digit a && is_digit b && is_digit d); [|reflexivity].
    specialize (IH r). destruct (take_groups r) as [t u]. cbn [fst snd] in *.
    simpl. rewrite IH; [reflexivity | simpl in Hn; lia].
Qed.

Lemma take_groups_split s : fst (take_groups s) +:+ snd (take_groups s) = s.
Proof. now apply (take_groups_split_bound (String.length s)). Qed.

Lemma take_fraction_other c r :
  c <> "."%char -> take_fraction (String c r) = (EmptyString, String c r).
Proof.
  intros H. destruct c as [[] [] [] [] [] [] [] []]; try reflexivity.
  destruct H. reflexivity.
Qed.

Lemma take_fraction_split s : fst (take_fraction s) +:+ snd (take_fraction s) = s.
Proof.
  destruct s as [|c r]; [reflexivity|].
  destruct (ascii_dec c ".") as [->|Hc]; [|now rewrite take_fraction_other].
  cbn [take_fraction]. pose proof (take_while_split is_digit r) as H.
  destruct (take_while is_digit r) as [d u]. cbn [fst snd] in H.
  destruct (is_empty d); [reflexivity|]. cbn [fst snd]. simpl. now rewrite H.
Qed.

(** A match of either alternative is a prefix of the text it is tried on. *)
Lemma num_alt1_prefix s t : num_alt1 s = Some t -> exists post, s = t +:+ post.
Proof.
  unfold num_alt1.
  pose proof (take_char_split "(" s) as H1. destruct (take_char "(" s) as [p1 s1].
  pose proof (take_char_split "$" s1) as H2. destruct (take_char "$" s1) as [p2 s2].
  pose proof (take_while_split is_space s2) as H3.
  destruct (take_while is_space s2) as [p3 s3].
  pose proof (take_char_split "-" s3) as H4. destruct (take_char "-" s3) as [p4 s4].
  pose proof (take_digits3_split s4) as H5. destruct (take_digits3 s4) as [d s5].
  destruct (is_empty d); [discriminate|].
  pose proof (take_groups_split s5) as H6. destruct (take_groups s5) as [g s6].
  pose proof (take_fraction_split s6) as H7. destruct (take_fraction s6) as [f s7].
  pose proof (take_char_split ")" s7) as H8. destruct (take_char ")" s7) as [q s8].
  cbn [fst snd] in *. intros [= <-]. exists s8.
  rewrite !append_assoc. congruence.
Qed.

Lemma num_alt2_prefix prev s t : num_alt2 prev s = Some t -> exists post, s = t +:+ post.
Proof.
  unfold num_alt2. destruct (boundary prev s); [|discriminate].
  pose proof (take_char_split "-" s) as H1. destruct (take_char "-" s) as [p s1].
  pose proof (take_while_split is_digit s1) as H2.
  destruct (take_while is_digit s1) as [d s2].
  destruct (is_empty d); [discriminate|].
  pose proof (take_fraction_split s2) as H3. destruct (take_fraction s2) as [f s3].
  cbn [fst snd] in *.
  destruct (_ && _).
  - intros [= <-]. exists s3. rewrite !append_assoc. congruence.
  - destruct (boundary _ s2); [|discriminate].
    intros [= <-]. exists s2. rewrite !append_assoc. congruence.
Qed.

Lemma num_match_prefix prev s t : num_match prev s = Some t -> exists post, s = t +:+ post.
Proof.
  unfold num_match. destruct (num_alt1 s) as [t1|] eqn:E.
  - intros [= <-]. now apply num_alt1_prefix.
  - apply num_alt2_prefix.
Qed.

(** The first token of a text stands after a part without digit. *)
Lemma first_token s : forall prev tok rest,
  num_scan 0 prev s = tok :: rest ->
  exists pre post, s = pre +:+ tok +:+ post /\ has_digit pre = false.
Proof.
  induction s as [|c r IH]; intros prev tok rest; cbn [num_scan]; [discriminate|].
  destruct (num_match prev (String c r)) as [t|] eqn:E.
  - intros [= <- _]. destruct (num_match_prefix _ _ _ E) as [post Hpost].
    exists EmptyString, post. split; [exact Hpost | reflexivity].
  - intros H. destruct (IH _ _ _ H) as (pre & post & -> & Hpre).
    exists (String c pre), post. split; [reflexivity|].
    cbn [has_digit]. rewrite Hpre, orb_false_r.
    destruct (is_digit c) eqn:Ec; [|reflexivity].
    destruct (NumFacts.num_alt1_digit c (pre +:+ tok +:+ post) Ec) as [t Ht].
    unfold num_match in E. rewrite Ht in E. discriminate.
Qed.

Lemma startswith_app p s : startswith p (p +:+ s) = true.
Proof.
  induction p as [|a p IH]; [reflexivity|]. simpl.
  now rewrite Ascii.eqb_refl, IH.
Qed.

Lemma split_head_digits tok pre post :
  has_digit pre = false -> has_digit (split_head tok (pre +:+ tok +:+ post)) = false.
Proof.
  induction pre as [|c pre IH]; intros H.
  - change (EmptyString +:+ tok +:+ post) with (tok +:+ post).
    destruct (tok +:+ post) as [|a r] eqn:E; [reflexivity|].
    cbn [split_head]. rewrite <- E, startswith_app. reflexivity.
  - cbn [has_digit] in H. apply orb_false_elim in H as [Hc H].
    change (String c pre +:+ tok +:+ post) with (String c (pre +:+ tok +:+ post)).
    cbn [split_head]. destruct (startswith tok _); [reflexivity|].
    cbn [has_digit]. now rewrite Hc, IH.
Qed.

Lemma lstrip_digits p s : has_digit s = false -> has_digit (lstrip_by p s) = false.
Proof.
  induction s as [|c r IH]; [reflexivity|]. cbn [has_digit lstrip_by].
  intros [Hc H]%orb_false_elim. destruct (p c); [now apply IH|].
  cbn [has_digit]. now rewrite Hc, H.
Qed.

Lemma rstrip_digits p s : has_digit s = false -> has_digit (rstrip_by p s) = false.
Proof.
  induction s as [|c r IH]; [reflexivity|]. cbn [has_digit rstrip_by].
  intros [Hc H]%orb_false_elim. destruct (_ && _); [reflexivity|].
  cbn [has_digit]. now rewrite Hc, IH.
Qed.

Lemma strip_digits p s : has_digit s = false -> has_digit (strip_by p s) = false.
Proof. intros H. unfold strip_by. now apply rstrip_digits, lstrip_digits. Qed.

Lemma collapse_digits s : forall b,
  has_digit s = false -> has_digit (collapse_spaces b s) = false.
Proof.
  induction s as [|c r IH]; intros b; [reflexivity|]. cbn [has_digit collapse_spaces].
  intros [Hc H]%orb_false_elim. destruct (is_space c).
  - destruct b; [now apply IH|]. cbn [has_digit].
    change (is_digit " ") with false. now apply IH.
  - cbn [has_digit]. rewrite Hc. now apply IH.
Qed.

Lemma take_literal_split lit : forall s t u,
  take_literal_ci lit s = Some (t, u) -> s = t +:+ u.
Proof.
  induction lit as [|a lit IH]; intros s t u; cbn [take_literal_ci].
  - now intros [= <- <-].
  - destruct s as [|c r]; [discriminate|].
    destruct (Ascii.eqb _ _); [|discriminate].
    destruct (take_literal_ci lit r) as [[t' u']|] eqn:E; [|discriminate].
    intros [= <- <-]. simpl. now rewrite (IH _ _ _ E).
Qed.

(** The note pattern needs a digit. *)
Lemma note_match_digits s : has_digit s = false -> note_match s = None.
Proof.
  intros H. unfold note_match.
  destruct (take_literal_ci "(note" s) as [[t s1]|] eqn:E; [|reflexivity].
  apply take_literal_split in E. subst s.
  rewrite TokenFacts.has_digit_app in H. apply orb_false_elim in H as [_ H].
  pose proof (take_while_split is_space s1) as H1.
  destruct (take_while is_space s1) as [sp s2]. cbn [fst snd] in H1. subst s1.
  rewrite TokenFacts.has_digit_app in H. apply orb_false_elim in H as [_ H].
  pose proof (take_while_split is_digit s2) as H2.
  pose proof (TokenFacts.nonempty_digits_has is_digit s2 (fun c Hc => Hc)) as Hd.
  destruct (take_while is_digit s2) as [d s3]. cbn [fst snd] in H2, Hd. subst s2.
  rewrite TokenFacts.has_digit_app in H. apply orb_false_elim in H as [H _].
  destruct (is_empty d); [reflexivity|]. rewrite (Hd eq_refl) in H. discriminate.
Qed.

Lemma note_strip_digits s : has_digit s = false -> note_strip 0 s = s.
Proof.
  induction s as [|c r IH]; [reflexivity|]. intros H.
  cbn [note_strip]. rewrite (note_match_digits _ H).
  cbn [has_digit] in H. apply orb_false_elim in H as [_ H]. now rewrite IH.
Qed.

End PrefixFacts.

(** X19.  The text before the first numeric token of a line holds no
    digit, and neither does the label made of it.  Hence the removal of
    [(note N)], the first step of [norm_label], finds nothing when the
    parser calls it: it returns that text as it is. *)
Theorem label_without_digits (line : string) :
  Re.has_digit (label_part_of line) = false
  /\ match nums_of line with
     | [] => True
     | first :: _ =>
         let before := Str.strip (Str.split_head first (Str.strip line)) in
         Re.has_digit before = false /\ Re.note_strip 0 before = before
     end.
Proof.
  unfold label_part_of. destruct (nums_of line) as [|first rest] eqn:E.
  - split; reflexivity.
  - unfold nums_of, Re.num_finditer in E.
    destruct (PrefixFacts.first_token _ _ _ _ E) as (pre & post & Hs & Hpre).
    assert (H : Re.has_digit (Str.strip (Str.split_head first (Str.strip line))) = false).
    { apply PrefixFacts.strip_digits. rewrite Hs.
      now apply PrefixFacts.split_head_digits. }
    split.
    + unfold norm_label. rewrite (PrefixFacts.note_strip_digits _ H).
      apply PrefixFacts.strip_digits. now apply PrefixFacts.collapse_digits.
    + cbv zeta. split; [exact H | now apply PrefixFacts.note_strip_digits].
Qed.

(* ===================================================================== *)
(** * The two years of a two-column line *)
(* ===================================================================== *)

Lemma ascending_ends (l : list Z) hi lo :
  ascending l -> (2 <= length l)%nat -> is_max hi l -> is_min lo l -> lo < hi.
Proof.
  intros Hs Hl [_ Hhi] [_ Hlo].
  destruct l as [|a [|b r]]; [simpl in Hl; lia | simpl in Hl; lia |].
  apply StronglySorted_inv in Hs as [_ Ha]. apply Forall_cons in Ha as [Hab _].
  specialize (Hhi b (or_intror (or_introl eq_refl))).
  specialize (Hlo a (or_introl eq_refl)). lia.
Qed.

Lemma detect_years_ascending today_year text period :
  ascending (detect_years today_year text period).
Proof.
  unfold detect_years.
  pose proof (sorted_set_ascending (map int_of_digits (Re.year_findall text))) as H.
  destruct (sorted_set _); [|exact H]. repeat constructor.
Qed.

(** X20.  When the document has at least two detected years, the largest
    and the smallest differ: the two writes of a two-column line go to two
    different buckets, and the prior-year value never replaces the
    current-year value. *)
Theorem two_column_years_differ (today_year : Z) (text : string) (period : option date) :
  (2 <= length (detect_years today_year text period))%nat ->
  exists hi lo,
    py_max (detect_years today_year text period) = Ok hi
    /\ py_min (detect_years today_year text period) = Ok lo
    /\ lo < hi.
Proof.
  intros Hl.
  assert (Hne : detect_years today_year text period <> [])
    by (intros E; rewrite E in Hl; simpl in Hl; lia).
  destruct (py_max_spec _ Hne) as (hi & Ehi & Hhi).
  destruct (py_min_spec _ Hne) as (lo & Elo & Hlo).
  exists hi, lo. split; [exact Ehi|]. split; [exact Elo|].
  exact (ascending_ends _ hi lo (detect_years_ascending _ _ _) Hl Hhi Hlo).
Qed.

Lemma two_column_years_differ_witness :
  exists hi lo,
    py_max (detect_years 2026 "As at March 31, 2023 and 2022" None) = Ok hi
    /\ py_min (detect_years 2026 "As at March 31, 2023 and 2022" None) = Ok lo
    /\ lo < hi.
Proof.
  apply (two_column_years_differ 2026 "As at March 31, 2023 and 2022" None).
  apply Nat.leb_le. vm_compute. reflexivity.
Defined.

(* ===================================================================== *)
(** * The fuzzy pass *)
(* ===================================================================== *)

Section FuzzyFacts.
Variable CANON : list (string * desc).
Variable re_search : string -> string -> bool.
Variable extractOne : string -> list string -> option (string * Float.float).

Lemma find_app_last {A} (f : A -> bool) (l : list A) (x : A) :
  List.find f (l ++ [x])%list
  = match List.find f l with
    | Some y => Some y
    | None => if f x then Some x else None
    end.
Proof.
  induction l as [|a l IH]; simpl; [reflexivity|]. destruct (f a); [reflexivity | exact IH].
Qed.

Lemma pairs_fold_lookup (pairs : list (string * string)) c : forall m : gmap string string,
  fold_left (fun m p => <[fst p := snd p]> m) pairs m !! c
  = match last_assoc c pairs with
    | Some k => Some k
    | None => m !! c
    end.
Proof.
  unfold last_assoc. induction pairs as [|p ps IH]; intros m; [reflexivity|].
  cbn [fold_left rev]. rewrite IH, find_app_last.
  destruct (List.find _ (rev ps)) as [q|]; [reflexivity|]. cbn [fmap option_fmap option_map].
  destruct (String.eqb (fst p) c) eqn:E.
  - apply String.eqb_eq in E. rewrite <- E, lookup_insert_eq. reflexivity.
  - apply String.eqb_neq in E. rewrite lookup_insert_ne by exact E. reflexivity.
Qed.

Lemma synonyms_fold_pairs key (syns : list string) : forall m : gmap string string,
  fold_left (fun m s => <[Str.lower s := key]> m) syns m
  = fold_left (fun m p => <[fst p := snd p]> m)
              (map (fun s => (Str.lower s, key)) syns) m.
Proof. induction syns as [|s syns IH]; intros m; [reflexivity | apply IH]. Qed.

Lemma canon_fold_pairs (entries : list (string * desc)) : forall m : gmap string string,
  fold_left
    (fun m '(canon_key, d) =>
       fold_left (fun m s => <[Str.lower s := canon_key]> m) (synonyms d) m)
    entries m
  = fold_left (fun m p => <[fst p := snd p]> m) (synonym_pairs entries) m.
Proof.
  induction entries as [|[key d] entries IH]; intros m; [reflexivity|].
  cbn [fold_left synonym_pairs flat_map]. rewrite fold_left_app, <- synonyms_fold_pairs.
  apply IH.
Qed.

(** [CANON_KEY_FOR]: a later entry replaces the key of a shared synonym. *)
Lemma canon_key_for_last c :
  CANON_KEY_FOR CANON !! c = last_assoc c (synonym_pairs CANON).
Proof.
  unfold CANON_KEY_FOR. rewrite canon_fold_pairs, pairs_fold_lookup.
  rewrite lookup_empty. now destruct (last_assoc c _).
Qed.

(** X21.  When no pattern matches and the fuzzy matcher returns a choice
    with a score of at least 84, [match_canonical] answers the key of the
    LAST taxonomy entry, in file order, that has the choice as a
    lower-cased synonym; a choice that is only a pattern text, not a
    synonym, gives [None]. *)
Theorem fuzzy_last_synonym (label choice : string) (score : Float.float) :
  regex_pass CANON re_search (Str.lower label) = None ->
  extractOne (Str.lower label) (FUZZY_CHOICES CANON) = Some (choice, score) ->
  Float.leb threshold score = true ->
  match_canonical CANON re_search extractOne label
  = last_assoc choice (synonym_pairs CANON).
Proof.
  intros Hr He Hs. unfold match_canonical, fuzzy_pass.
  rewrite Hr, He, Hs. apply canon_key_for_last.
Qed.

End FuzzyFacts.

Lemma fuzzy_last_synonym_witness :
  match_canonical shared_synonym_canon literal_search exact_extract "Cash"
  = Some "bank_indebtedness".
Proof.
  rewrite (fuzzy_last_synonym shared_synonym_canon literal_search exact_extract
             "Cash" "cash" (Float.of_Z 100));
    vm_compute; reflexivity.
Defined.

(* ===================================================================== *)
(** * The other totals of a rolled-up payload *)
(* ===================================================================== *)

Section TotalFacts.
Variable ROLLUPS : rollups.
Variable float_repr : Float.float -> string.
Variable builtin_sum : list Float.float -> Float.float.
Variables (company : string) (period : option date) (currency : string)
          (fiscal_year : Z).

Local Infix "+." := Float.add (at level 50, left associativity).

(** X22.  The totals of the balance sheet and of the investing and
    financing activities.  Total assets is the sum of the current assets
    and of the singletons of the taxonomy, whatever three asset amounts the
    payload shows beside it; the loan is 0.0 when the taxonomy names no
    loan key; each sum is rounded once, at the end. *)
Theorem rollup_totals (r : gmap string Float.float) :
  let total keys := builtin_sum (map (g r) keys) in
  let loan := match loan_payable ROLLUPS with Some k => g r k | None => Float.zero end in
  exists payload,
    rollup_payload ROLLUPS float_repr builtin_sum company period currency fiscal_year r
      = Ok payload
    /\ amount ["balance_sheet"; "assets"; "total_assets"] payload
       = Ok (Float.round2 (total (current_assets ROLLUPS) +. total (singletons ROLLUPS)))
    /\ amount ["balance_sheet"; "liabilities_and_equity"; "loan_payable"] payload
       = Ok (Float.round2 loan)
    /\ amount ["balance_sheet"; "liabilities_and_equity"; "total_liabilities_and_equity"]
         payload
       = Ok (Float.round2 (total (current_liabilities ROLLUPS) +. loan
                           +. total (shareholders_equity ROLLUPS)))
    /\ amount ["cash_flows"; "investing_activities"; "total"] payload
       = Ok (Float.round2 (g r "purchase_of_property_and_equipment"))
    /\ amount ["cash_flows"; "financing_activities"; "total"] payload
       = Ok (Float.round2 (g r "repayment_of_shareholder_loan" +. g r "dividends_paid"
                           +. g r "repayment_of_loan_payable"
                           +. g r "redemption_of_capital_stock")).
Proof.
  intros total loan. unfold rollup_payload.
  match goal with
  | |- context [diagnostics float_repr (JObj ?p)] => set (fields := p)
  end.
  eassert (Hd : diagnostics float_repr (JObj fields) = Ok _).
  { eapply diagnostics_value;
      cbv [fields amount item dict_get of_option number mbind result_bind gf group
           String.eqb Ascii.eqb Bool.eqb andb]; reflexivity. }
  rewrite Hd. cbn [mbind result_bind].
  eexists. split; [reflexivity|].
  repeat split;
    cbv [fields amount item dict_get dict_set of_option number mbind result_bind gf group
         String.eqb Ascii.eqb Bool.eqb andb sum_keys total loan];
    reflexivity.
Qed.

End TotalFacts.
